(** * The Particle-to-InfluxDB bridge (bridge/particle-bridge.py)

    A shallow embedding of the event-stream pipeline of the bridge: the
    SSE frame decoder of [main] (lines 99-119), the envelope processing of
    [main] (lines 119-148), [process_event] (lines 41-79) and the
    reconnecting supervisor loop of [main] (lines 83-160).

    Python values are modelled as follows.
    - A [str] is the list of its code points.
    - An [int] is a [Z]; a [float] is a binary64 datum of the Standard
      Library's [spec_float].
    - Exceptions are an error result; the output of [print], the calls of
      [write_api.write] and of [time.sleep] are recorded, in order, in a
      trace threaded through the program.
    - The standard output is a UTF-8 stream with the default error handler,
      as Python opens it: [print] raises a [UnicodeEncodeError] on a text
      that holds a surrogate code point, and on no other text.
    - The chunks of a connection are the strings the HTTP client yields.
    - The interpreter's resource limits are not modelled: [json.loads]
      raises a [ValueError] on an integer literal over the digit limit of
      [int] and a [RecursionError] on a text nested deeper than the stack
      allows. A property that holds only short of these limits has the
      hypothesis that the text is [within_limits]. *)

From Stdlib Require Import Strings.String Strings.Ascii.
From Stdlib Require Import ZArith NArith Bool List Lia.
From Stdlib Require Import Floats.SpecFloat.
Import ListNotations.

Set Warnings "-register-all".

(* ================================================================== *)
(** * Part I: definitions *)
(* ================================================================== *)

(** ** Python strings *)

Module Str.

(** A character is a Unicode code point. *)
Abbreviation char := N (only parsing).
Abbreviation str := (list N) (only parsing).

Definition LF : char := 10%N.

(** Literals of this development are written with the apostrophe standing
    for the quotation mark (34) and the dollar sign for the line feed (10);
    every other character stands for itself. *)
Definition code (a : ascii) : char :=
  if Ascii.eqb a "'"%char then 34%N
  else if Ascii.eqb a "$"%char then LF
  else N_of_ascii a.

Definition lit (s : string) : str := map code (list_ascii_of_string s).

Fixpoint eqb (s t : str) : bool :=
  match s, t with
  | [], [] => true
  | a :: s', b :: t' => N.eqb a b && eqb s' t'
  | _, _ => false
  end.

(** Truth value of a string: [if s:]. *)
Definition truthy (s : str) : bool :=
  match s with [] => false | _ :: _ => true end.

(** [s.startswith(p)] *)
Fixpoint startswith (s p : str) {struct p} : bool :=
  match p with
  | [] => true
  | a :: p' =>
      match s with
      | b :: s' => N.eqb a b && startswith s' p'
      | [] => false
      end
  end.

(** [p in s] for two strings: [p] occurs in [s]. *)
Fixpoint contains (s p : str) : bool :=
  startswith s p ||
  match s with
  | [] => false
  | _ :: s' => contains s' p
  end.

(** [str.isspace] on one character: the code points Python counts as
    white space. *)
Definition isspace (c : char) : bool :=
  ((9 <=? c) && (c <=? 13) || (28 <=? c) && (c <=? 32)
   || (c =? 133) || (c =? 160) || (c =? 5760)
   || (8192 <=? c) && (c <=? 8202)
   || (c =? 8232) || (c =? 8233) || (c =? 8239) || (c =? 8287)
   || (c =? 12288))%N.

Fixpoint lstrip (s : str) : str :=
  match s with
  | c :: s' => if isspace c then lstrip s' else s
  | [] => []
  end.

Definition rstrip (s : str) : str := rev (lstrip (rev s)).

(** [s.strip()] *)
Definition strip (s : str) : str := rstrip (lstrip s).

(** A surrogate code point. A [str] may hold one on its own, and then it
    has no UTF-8 encoding. *)
Definition is_surrogate (c : char) : bool :=
  ((55296 <=? c) && (c <=? 57343))%N.

(** [s.encode('utf-8')] succeeds. *)
Definition encodable (s : str) : bool :=
  forallb (fun c => negb (is_surrogate c)) s.

(** Puts a character in front of the first piece of a split. *)
Definition cons_head (c : char) (l : list str) : list str :=
  match l with
  | m :: ms => (c :: m) :: ms
  | [] => [[c]]
  end.

(** [s.split('\n')] *)
Fixpoint split_nl (s : str) : list str :=
  match s with
  | [] => [[]]
  | c :: s' =>
      if N.eqb c LF then [] :: split_nl s'
      else cons_head c (split_nl s')
  end.

(** [s] starts with two line feeds. *)
Definition starts_nn (s : str) : bool :=
  match s with
  | c :: d :: _ => N.eqb c LF && N.eqb d LF
  | _ => false
  end.

(** ['\n\n' in s] *)
Fixpoint contains_nn (s : str) : bool :=
  match s with
  | [] => false
  | c :: s' => starts_nn (c :: s') || contains_nn s'
  end.

(** [s.split('\n\n')]: the separators are the occurrences found from left
    to right, each search starting after the previous separator. *)
Fixpoint split_nn (s : str) : list str :=
  match s with
  | [] => [[]]
  | c :: s' =>
      match s' with
      | d :: s'' =>
          if N.eqb c LF && N.eqb d LF then [] :: split_nn s''
          else cons_head c (split_nn s')
      | [] => [[c]]
      end
  end.

(** ['\n'.join(lines)] *)
Fixpoint join_nl (lines : list str) : str :=
  match lines with
  | [] => []
  | [l] => l
  | l :: rest => l ++ LF :: join_nl rest
  end.

End Str.
Import Str.

(** ** The frame decoder (main, lines 99-119), without the processing of
       the payloads *)

Module Decoder.

(** The literal prefix ['data: ']. *)
Definition data_prefix : str := lit "data: ".

(** Lines 112-117: [event_data] after the loop over the lines; [None] is
    Python's [None]. *)
Fixpoint first_data_line (lines : list str) : option str :=
  match lines with
  | [] => None
  | line :: rest =>
      if startswith line data_prefix then Some (skipn 6 line)
      else first_data_line rest
  end.

(** Lines 109-117: the value of [event_data] for one message; a message
    that is blank after [strip] is not looked at. *)
Definition event_data_of (message : str) : option str :=
  if truthy (strip message) then first_data_line (split_nl message)
  else None.

(** Line 119, [if event_data:]: the payload handed to the envelope
    processing, if any. *)
Definition payload_of (message : str) : option str :=
  match event_data_of message with
  | Some event_data => if truthy event_data then Some event_data else None
  | None => None
  end.

(** Lines 101-108 for one chunk: the new buffer and the complete
    messages, [messages[:-1]]. *)
Definition feed (buffer chunk : str) : str * list str :=
  if truthy chunk then
    let buffer := buffer ++ chunk in
    if contains_nn buffer then
      let messages := split_nn buffer in
      (last messages [], removelast messages)
    else (buffer, [])
  else (buffer, []).

(** The buffer after a sequence of chunks. *)
Fixpoint buffer_after (buffer : str) (chunks : list str) : str :=
  match chunks with
  | [] => buffer
  | chunk :: rest => buffer_after (fst (feed buffer chunk)) rest
  end.

(** The complete messages of a sequence of chunks, in order. *)
Fixpoint messages_of (buffer : str) (chunks : list str) : list str :=
  match chunks with
  | [] => []
  | chunk :: rest =>
      snd (feed buffer chunk) ++ messages_of (fst (feed buffer chunk)) rest
  end.

Definition payloads (messages : list str) : list str :=
  flat_map (fun m => match payload_of m with Some p => [p] | None => [] end)
           messages.

(** The payloads the loop extracts from a connection's chunks: the buffer
    starts empty (line 99). *)
Definition decode (chunks : list str) : list str :=
  payloads (messages_of [] chunks).

(** A frame on the wire: its text followed by the delimiter. *)
Definition frame_text (m : str) : str := m ++ [LF; LF].

(** The text [m] is ended by the first delimiter met from its start on:
    no delimiter lies in [m], nor across the end of [m]. *)
Definition ends_at_first_delimiter (m : str) : Prop :=
  contains_nn (m ++ [LF]) = false.

(** A line of a frame holds no line feed. *)
Definition is_line (l : str) : Prop := ~ In LF l.

Definition no_data_prefix (l : str) : Prop :=
  startswith l data_prefix = false.

End Decoder.
Import Decoder.

(** ** Python values, exceptions and built-in operations *)

Module Py.

(** The exception classes that occur. [KeyboardInterrupt] is the only one
    that is not an [Exception]; [SinkError] stands for the exceptions of
    the InfluxDB client and [RequestError] for those of the HTTP client,
    none of which is a [JSONDecodeError]. *)
Inductive exn : Type :=
| JSONDecodeError
| TypeError
| KeyError
| ValueError
| OverflowError
| UnicodeEncodeError
| SinkError
| RequestError
| KeyboardInterrupt.

(** [isinstance(e, Exception)] *)
Definition is_Exception (e : exn) : bool :=
  match e with KeyboardInterrupt => false | _ => true end.

Inductive result (A : Type) : Type :=
| Ok (a : A)
| Raise (e : exn).
Arguments Ok {A} a.
Arguments Raise {A} e.

(** The values [json.loads] returns. A [dict] is the list of its items,
    each key once. *)
Inductive json : Type :=
| JNull
| JBool (b : bool)
| JInt (z : Z)
| JFloat (f : spec_float)
| JStr (s : str)
| JList (l : list json)
| JDict (d : list (str * json)).

(** [d.get(k)] as an option. *)
Fixpoint dict_get (d : list (str * json)) (k : str) : option json :=
  match d with
  | [] => None
  | (k', v) :: d' => if Str.eqb k' k then Some v else dict_get d' k
  end.

(** [d[k] = v] *)
Fixpoint dict_set (d : list (str * json)) (k : str) (v : json)
  : list (str * json) :=
  match d with
  | [] => [(k, v)]
  | (k', v') :: d' =>
      if Str.eqb k' k then (k', v) :: d' else (k', v') :: dict_set d' k v
  end.

(** [k in v] for a string [k]: a key of a dict, an element of a list, a
    substring of a string; any other value is not iterable. *)
Definition py_contains (k : str) (v : json) : result bool :=
  match v with
  | JDict d => Ok (match dict_get d k with Some _ => true | None => false end)
  | JList l =>
      Ok (existsb (fun x => match x with
                            | JStr s => Str.eqb s k
                            | _ => false
                            end) l)
  | JStr s => Ok (Str.contains s k)
  | _ => Raise TypeError
  end.

(** [v[k]] for a string [k]. *)
Definition py_getitem (v : json) (k : str) : result json :=
  match v with
  | JDict d =>
      match dict_get d k with
      | Some x => Ok x
      | None => Raise KeyError
      end
  | _ => Raise TypeError
  end.

(** [v[:100]]: a dict cannot be sliced (the exception is a [TypeError]
    up to Python 3.11 and a [KeyError] from 3.12 on; both are handled
    alike everywhere in this program). *)
Definition py_slice100 (v : json) : result json :=
  match v with
  | JStr s => Ok (JStr (firstn 100 s))
  | JList l => Ok (JList (firstn 100 l))
  | _ => Raise TypeError
  end.

(** *** Floats *)

Definition prec : Z := 53.
Definition emax : Z := 1024.

(** The binary64 nearest to [m * 10^e] (ties to even), with the sign
    [neg]: the value of a decimal literal. *)
Definition float_of_decimal (neg : bool) (m : Z) (e : Z) : spec_float :=
  match m with
  | Zpos p =>
      if (0 <=? e)%Z then binary_round prec emax neg (Z.to_pos (m * 10 ^ e)) 0
      else
        let q := (10 ^ (- e))%Z in
        let k := Z.max 0 (66 + Z.log2 q - Z.log2 m) in
        let n := (m * 2 ^ k / q)%Z in
        let sticky := if ((m * 2 ^ k) mod q =? 0)%Z then 0%Z else 1%Z in
        binary_round prec emax neg (Z.to_pos (2 * n + sticky)) (- k - 1)
  | _ => S754_zero neg
  end.

(** [float(z)] for an int. *)
Definition float_of_int (z : Z) : result spec_float :=
  match binary_normalize prec emax z 0 false with
  | S754_infinity _ => Raise OverflowError
  | f => Ok f
  end.

(** [int(f)] for a float: truncation towards zero. *)
Definition int_of_float (f : spec_float) : result Z :=
  match f with
  | S754_zero _ => Ok 0%Z
  | S754_infinity _ => Raise OverflowError
  | S754_nan => Raise ValueError
  | S754_finite s m e =>
      let a := if (0 <=? e)%Z then (Zpos m * 2 ^ e)%Z
               else (Zpos m / 2 ^ (- e))%Z in
      Ok (if s then (- a)%Z else a)
  end.

Section Conversions.

(** Python's conversions of a string to a number, [float(s)] and
    [int(s)], with [None] for a [ValueError]. *)
Variable str_to_float : str -> option spec_float.
Variable str_to_int : str -> option Z.

(** [float(v)] *)
Definition py_float (v : json) : result spec_float :=
  match v with
  | JFloat f => Ok f
  | JInt z => float_of_int z
  | JBool b => Ok (binary_normalize prec emax (if b then 1 else 0) 0 false)
  | JStr s =>
      match str_to_float s with
      | Some f => Ok f
      | None => Raise ValueError
      end
  | _ => Raise TypeError
  end.

(** [int(v)] *)
Definition py_int (v : json) : result Z :=
  match v with
  | JInt z => Ok z
  | JBool b => Ok (if b then 1 else 0)%Z
  | JFloat f => int_of_float f
  | JStr s =>
      match str_to_int s with
      | Some z => Ok z
      | None => Raise ValueError
      end
  | _ => Raise TypeError
  end.

End Conversions.

End Py.
Import Py.

(** ** [json.loads]

    The decoder of the standard library (its default scanner), for a [str]
    argument: the grammar it accepts and the values it builds. *)

Module JsonDecoder.

Local Open Scope N_scope.

(** Outcome of scanning a prefix of the text. [NoFuel] would mean that the
    recursion bound of this model was too small; it never happens
    ([scan_once_fuel] below). *)
Inductive pres (A : Type) : Type :=
| Parsed (a : A) (rest : str)
| Bad
| NoFuel.
Arguments Parsed {A} a rest.
Arguments Bad {A}.
Arguments NoFuel {A}.

(** White space between tokens: space, tab, line feed, carriage return. *)
Definition is_ws (c : char) : bool :=
  (c =? 32) || (c =? 9) || (c =? 10) || (c =? 13).

Fixpoint skip_ws (s : str) : str :=
  match s with
  | c :: s' => if is_ws c then skip_ws s' else s
  | [] => []
  end.

Definition is_digit (c : char) : bool := (48 <=? c) && (c <=? 57).

Definition hex_digit (c : char) : option N :=
  if is_digit c then Some (c - 48)
  else if (97 <=? c) && (c <=? 102) then Some (c - 87)
  else if (65 <=? c) && (c <=? 70) then Some (c - 55)
  else None.

Definition hex4 (a b c d : char) : option N :=
  match hex_digit a, hex_digit b, hex_digit c, hex_digit d with
  | Some x, Some y, Some z, Some w => Some (((x * 16 + y) * 16 + z) * 16 + w)
  | _, _, _, _ => None
  end.

(** The character an escape letter stands for ([u] is handled apart). *)
Definition unescape (c : char) : option char :=
  if c =? 34 then Some 34            (* quotation mark *)
  else if c =? 92 then Some 92       (* reverse solidus *)
  else if c =? 47 then Some 47       (* solidus *)
  else if c =? 98 then Some 8        (* b *)
  else if c =? 102 then Some 12      (* f *)
  else if c =? 110 then Some 10      (* n *)
  else if c =? 114 then Some 13      (* r *)
  else if c =? 116 then Some 9       (* t *)
  else None.

Definition is_high_surrogate (u : N) : bool := (55296 <=? u) && (u <=? 56319).
Definition is_low_surrogate (u : N) : bool := (56320 <=? u) && (u <=? 57343).

(** The text after an opening quotation mark, up to the closing one
    (strict mode: no control character). *)
Fixpoint scanstring (s : str) (acc : str) : option (str * str) :=
  match s with
  | [] => None
  | c :: r =>
      if c =? 34 then Some (rev acc, r)
      else if c =? 92 then
        match r with
        | [] => None
        | e :: r1 =>
            if e =? 117 then
              match r1 with
              | h1 :: h2 :: h3 :: h4 :: r2 =>
                  match hex4 h1 h2 h3 h4 with
                  | None => None
                  | Some u =>
                      match r2 with
                      | b :: x :: l1 :: l2 :: l3 :: l4 :: r3 =>
                          if is_high_surrogate u && (b =? 92) && (x =? 117)
                          then
                            match hex4 l1 l2 l3 l4 with
                            | None => None
                            | Some u2 =>
                                if is_low_surrogate u2 then
                                  scanstring r3
                                    ((65536 + (u - 55296) * 1024
                                      + (u2 - 56320)) :: acc)
                                else scanstring r2 (u :: acc)
                            end
                          else scanstring r2 (u :: acc)
                      | _ => scanstring r2 (u :: acc)
                      end
                  end
              | _ => None
              end
            else
              match unescape e with
              | Some ch => scanstring r1 (ch :: acc)
              | None => None
              end
        end
      else if c <? 32 then None
      else scanstring r (c :: acc)
  end.

Fixpoint span_digits (s : str) : str * str :=
  match s with
  | c :: r =>
      if is_digit c then
        let (ds, r') := span_digits r in (c :: ds, r')
      else ([], s)
  | [] => ([], [])
  end.

Definition digits_value (ds : str) : Z :=
  fold_left (fun acc c => (acc * 10 + (Z.of_N c - 48))%Z) ds 0%Z.

(** The integer part of a number: one zero, or digits not starting with
    zero. *)
Definition int_part (s : str) : option (str * str) :=
  match s with
  | c :: r =>
      if (49 <=? c) && (c <=? 57) then
        let (ds, r') := span_digits r in Some (c :: ds, r')
      else if c =? 48 then Some ([c], r)
      else None
  | [] => None
  end.

(** The fraction: a full stop followed by at least one digit. *)
Definition frac_part (s : str) : str * str :=
  match s with
  | dot :: d :: r =>
      if (dot =? 46) && is_digit d then span_digits (d :: r) else ([], s)
  | _ => ([], s)
  end.

(** The exponent: [e] or [E], an optional sign and at least one digit. *)
Definition exp_part (s : str) : option Z * str :=
  match s with
  | e :: r =>
      if (e =? 101) || (e =? 69) then
        let '(neg, r1) :=
          match r with
          | sg :: r' =>
              if sg =? 45 then (true, r')
              else if sg =? 43 then (false, r')
              else (false, r)
          | [] => (false, r)
          end in
        let (ds, r2) := span_digits r1 in
        match ds with
        | [] => (None, s)
        | _ :: _ =>
            (Some (if neg then (- digits_value ds)%Z else digits_value ds),
             r2)
        end
      else (None, s)
  | [] => (None, s)
  end.

(** A number: an int when it has neither fraction nor exponent, a float
    otherwise. *)
Definition match_number (s : str) : pres json :=
  let '(neg, s1) :=
    match s with
    | c :: r => if c =? 45 then (true, r) else (false, s)
    | [] => (false, s)
    end in
  match int_part s1 with
  | None => Bad
  | Some (ids, s2) =>
      let '(fds, s3) := frac_part s2 in
      let '(ex, s4) := exp_part s3 in
      match fds, ex with
      | [], None =>
          Parsed (JInt (if neg then (- digits_value ids)%Z
                        else digits_value ids)) s4
      | _, _ =>
          let e := match ex with Some e => e | None => 0%Z end in
          Parsed (JFloat (float_of_decimal neg (digits_value (ids ++ fds))
                                           (e - Z.of_nat (length fds)))) s4
      end
  end.

(** The array elements after the first white space following the opening
    bracket of a non-empty array. *)
Fixpoint parse_elements (scan : str -> pres json) (n : nat) (s : str)
         (acc : list json) : pres json :=
  match n with
  | O => NoFuel
  | S n' =>
      match scan s with
      | Parsed v r =>
          match skip_ws r with
          | c :: r' =>
              if c =? 93 then Parsed (JList (rev (v :: acc))) r'
              else if c =? 44 then
                parse_elements scan n' (skip_ws r') (v :: acc)
              else Bad
          | [] => Bad
          end
      | Bad => Bad
      | NoFuel => NoFuel
      end
  end.

(** The members of a non-empty object, from the quotation mark of the
    first key on. *)
Fixpoint parse_members (scan : str -> pres json) (n : nat) (s : str)
         (acc : list (str * json)) : pres json :=
  match n with
  | O => NoFuel
  | S n' =>
      match s with
      | q :: r =>
          if q =? 34 then
            match scanstring r [] with
            | Some (key, r1) =>
                match skip_ws r1 with
                | colon :: r2 =>
                    if colon =? 58 then
                      match scan (skip_ws r2) with
                      | Parsed v r3 =>
                          let acc' := dict_set acc key v in
                          match skip_ws r3 with
                          | c :: r4 =>
                              if c =? 125 then Parsed (JDict acc') r4
                              else if c =? 44 then
                                parse_members scan n' (skip_ws r4) acc'
                              else Bad
                          | [] => Bad
                          end
                      | Bad => Bad
                      | NoFuel => NoFuel
                      end
                    else Bad
                | [] => Bad
                end
            | None => Bad
            end
          else Bad
      | [] => Bad
      end
  end.

(** One JSON value at the start of the text. *)
Fixpoint scan_once (fuel : nat) (s : str) : pres json :=
  match fuel with
  | O => NoFuel
  | S fuel' =>
      match s with
      | [] => Bad
      | c :: r =>
          if c =? 34 then
            match scanstring r [] with
            | Some (x, r') => Parsed (JStr x) r'
            | None => Bad
            end
          else if c =? 123 then
            match skip_ws r with
            | c' :: r' =>
                if c' =? 125 then Parsed (JDict []) r'
                else parse_members (scan_once fuel') (length r)
                                   (skip_ws r) []
            | [] => Bad
            end
          else if c =? 91 then
            match skip_ws r with
            | c' :: r' =>
                if c' =? 93 then Parsed (JList []) r'
                else parse_elements (scan_once fuel') (length r)
                                    (skip_ws r) []
            | [] => Bad
            end
          else if startswith s (lit "null") then Parsed JNull (skipn 4 s)
          else if startswith s (lit "true") then
            Parsed (JBool true) (skipn 4 s)
          else if startswith s (lit "false") then
            Parsed (JBool false) (skipn 5 s)
          else if startswith s (lit "NaN") then
            Parsed (JFloat S754_nan) (skipn 3 s)
          else if startswith s (lit "Infinity") then
            Parsed (JFloat (S754_infinity false)) (skipn 8 s)
          else if startswith s (lit "-Infinity") then
            Parsed (JFloat (S754_infinity true)) (skipn 9 s)
          else match_number s
      end
  end.

(** [json.loads(s)] for a [str]; [None] is a [JSONDecodeError]. The whole
    text is one value between optional white space. *)
Definition json_loads (s : str) : option json :=
  match scan_once (S (length s)) (skip_ws s) with
  | Parsed v r =>
      match skip_ws r with
      | [] => Some v
      | _ :: _ => None
      end
  | _ => None
  end.

End JsonDecoder.
Import JsonDecoder.

(** ** The bridge: effects, envelope processing, supervisor *)

Module Bridge.

(** The point handed to [write_api.write]: the arguments of [Point],
    [tag], [field] and [time] (lines 57-62). *)
Record point : Type := {
  measurement : json;
  tag_location : json;
  tag_device : json;
  field_temperature : spec_float;
  field_humidity : spec_float;
  time : Z
}.

(** The lines the program prints, each named after what it says, with the
    source line of its [print]. *)
Inductive log : Type :=
| LogProcessing                        (* 47 *)
| LogMeasurement (v : json)            (* 48 *)
| LogTags (v : json)                   (* 49 *)
| LogFields (v : json)                 (* 50 *)
| LogTimestamp (v : json)              (* 51 *)
| LogWriting                           (* 64 *)
| LogPoint (p : point)                 (* 65 *)
| LogWritten (temperature humidity : json)   (* 70 *)
| LogJSONDecodeError                   (* 74 *)
| LogErrorProcessing (e : exn)         (* 77-79, with the traceback *)
| LogConnecting                        (* 88 *)
| LogUrl                               (* 89 *)
| LogConnected                         (* 95 *)
| LogEventReceived (v : json)          (* 128 *)
| LogValidReading                      (* 135 *)
| LogNotSensorFormat                   (* 138 *)
| LogNotJSON (v : json)                (* 141 *)
| LogNoDataField                       (* 144 *)
| LogWrapperParseFailed                (* 147 *)
| LogShutdown                          (* 151 *)
| LogConnectionError (e : exn)         (* 155 *)
| LogRetrying (d : Z).                 (* 156 *)

(** What the program does to the outside, in order. [SinkWrite p ok] is a
    call of [write_api.write] with the point [p], which returned
    ([ok = true]) or raised. *)
Inductive effect : Type :=
| Print (l : log)
| SinkWrite (p : point) (ok : bool)
| Sleep (d : Z).

Definition trace : Type := list effect.

(** Computations: they read and extend the trace and return or raise. *)
Definition M (A : Type) : Type := trace -> result A * trace.

Definition ret {A : Type} (a : A) : M A := fun t => (Ok a, t).

Definition bind {A B : Type} (m : M A) (k : A -> M B) : M B :=
  fun t =>
    match m t with
    | (Ok a, t') => k a t'
    | (Raise e, t') => (Raise e, t')
    end.

(** A pure operation that may raise. *)
Definition lift {A : Type} (r : result A) : M A := fun t => (r, t).

Definition emit (x : effect) : M unit := fun t => (Ok tt, t ++ [x]).

(** The text [str] gives for a value put into an f-string can be encoded
    unless the value is a string that holds a surrogate: in the text of a
    list or of a dict the strings stand as [repr] gives them, with every
    surrogate escaped. *)
Definition printable_value (v : json) : bool :=
  match v with
  | JStr s => encodable s
  | _ => true
  end.

(** Whether the line can be written to the standard output. The lines
    without a value of the event are plain text, and so are the messages
    of the exceptions, which quote strings by [repr]. The line protocol of
    a point (line 65) holds the measurement and the two tag values as [str]
    gives them. *)
Definition printable (l : log) : bool :=
  match l with
  | LogMeasurement v | LogTags v | LogFields v | LogTimestamp v
  | LogEventReceived v | LogNotJSON v => printable_value v
  | LogPoint p =>
      printable_value (measurement p) && printable_value (tag_location p)
      && printable_value (tag_device p)
  | LogWritten temperature humidity =>
      printable_value temperature && printable_value humidity
  | _ => true
  end.

(** [print(f"...")]: the line is written, or the encoder of the standard
    output raises and nothing is written. *)
Definition print (l : log) : M unit :=
  if printable l then emit (Print l) else lift (Raise UnicodeEncodeError).
Arguments print : simpl never.

(** [try: body except ...]: the handler says which exceptions it catches
    ([None]: not caught, the exception goes on). *)
Definition try_except {A : Type} (body : M A)
           (handler : exn -> option (M A)) : M A :=
  fun t =>
    match body t with
    | (Ok a, t') => (Ok a, t')
    | (Raise e, t') =>
        match handler e with
        | Some h => h t'
        | None => (Raise e, t')
        end
    end.

Declare Scope bridge_scope.
Delimit Scope bridge_scope with bridge.
Notation "x <- m ;; k" := (bind m (fun x => k))
  (at level 61, m at next level, right associativity) : bridge_scope.
Notation "m ;; k" := (bind m (fun _ => k))
  (at level 61, right associativity) : bridge_scope.
Local Open Scope bridge_scope.

(** The classes of log lines of the error-handling design: the skip of an
    inner payload that is no sensor reading is informational, the others
    report an error. *)
Definition is_skip_log (l : log) : bool :=
  match l with
  | LogNotSensorFormat | LogNotJSON _ => true
  | _ => false
  end.

Definition is_error_log (l : log) : bool :=
  match l with
  | LogJSONDecodeError | LogErrorProcessing _ | LogNoDataField
  | LogWrapperParseFailed | LogConnectionError _ => true
  | _ => false
  end.

Definition skip_logs (t : trace) : list log :=
  flat_map (fun x => match x with
                     | Print l => if is_skip_log l then [l] else []
                     | _ => []
                     end) t.

Definition error_logs (t : trace) : list log :=
  flat_map (fun x => match x with
                     | Print l => if is_error_log l then [l] else []
                     | _ => []
                     end) t.

(** The calls of the sink in a trace. *)
Definition sink_writes (t : trace) : list (point * bool) :=
  flat_map (fun x => match x with
                     | SinkWrite p ok => [(p, ok)]
                     | _ => []
                     end) t.

(** The waits in a trace. *)
Definition sleeps (t : trace) : list Z :=
  flat_map (fun x => match x with Sleep d => [d] | _ => [] end) t.

Section Program.

(** The Time-Series Sink: whether a call of [write_api.write] succeeds,
    which may depend on everything that happened before. *)
Variable sink : trace -> point -> bool.

(** [float(s)] and [int(s)] for a string. *)
Variable str_to_float : str -> option spec_float.
Variable str_to_int : str -> option Z.

(** [json.loads(v)]: only a string is decoded. The limits of the
    interpreter are left out: see [within_limits]. *)
Definition py_json_loads (v : json) : result json :=
  match v with
  | JStr s =>
      match json_loads s with
      | Some x => Ok x
      | None => Raise JSONDecodeError
      end
  | _ => Raise TypeError
  end.

(** Line 68. *)
Definition write (p : point) : M unit :=
  fun t =>
    if sink t p then (Ok tt, t ++ [SinkWrite p true])
    else (Raise SinkError, t ++ [SinkWrite p false]).

(** Lines 41-79. *)
Definition process_event (event_data : json) : M unit :=
  try_except
    (data <- lift (py_json_loads event_data) ;;
     print LogProcessing ;;
     m <- lift (py_getitem data (lit "measurement")) ;;
     print (LogMeasurement m) ;;
     tg <- lift (py_getitem data (lit "tags")) ;;
     print (LogTags tg) ;;
     fs <- lift (py_getitem data (lit "fields")) ;;
     print (LogFields fs) ;;
     ts <- lift (py_getitem data (lit "timestamp")) ;;
     print (LogTimestamp ts) ;;
     ts <- lift (py_getitem data (lit "timestamp")) ;;
     seconds <- lift (py_int str_to_int ts) ;;
     let timestamp_ns := (seconds * 1000000000)%Z in
     m <- lift (py_getitem data (lit "measurement")) ;;
     tg <- lift (py_getitem data (lit "tags")) ;;
     location <- lift (py_getitem tg (lit "location")) ;;
     tg <- lift (py_getitem data (lit "tags")) ;;
     device <- lift (py_getitem tg (lit "device")) ;;
     fs <- lift (py_getitem data (lit "fields")) ;;
     temperature <- lift (py_getitem fs (lit "temperature")) ;;
     temperature_f <- lift (py_float str_to_float temperature) ;;
     fs <- lift (py_getitem data (lit "fields")) ;;
     humidity <- lift (py_getitem fs (lit "humidity")) ;;
     humidity_f <- lift (py_float str_to_float humidity) ;;
     let point :=
       {| measurement := m;
          tag_location := location;
          tag_device := device;
          field_temperature := temperature_f;
          field_humidity := humidity_f;
          time := timestamp_ns |} in
     print LogWriting ;;
     print (LogPoint point) ;;
     write point ;;
     print (LogWritten temperature humidity))
    (fun e =>
       match e with
       | JSONDecodeError => Some (print LogJSONDecodeError)
       | _ =>
           if is_Exception e then Some (print (LogErrorProcessing e))
           else None
       end).

(** Lines 120-148: the processing of one payload. *)
Definition handle_payload (event_data : str) : M unit :=
  try_except
    (wrapper <- lift (py_json_loads (JStr event_data)) ;;
     has_data <- lift (py_contains (lit "data") wrapper) ;;
     if has_data : bool then
       d <- lift (py_getitem wrapper (lit "data")) ;;
       shown <- lift (py_slice100 d) ;;
       print (LogEventReceived shown) ;;
       try_except
         (d <- lift (py_getitem wrapper (lit "data")) ;;
          sensor_data <- lift (py_json_loads d) ;;
          has_m <- lift (py_contains (lit "measurement") sensor_data) ;;
          has_f <- (if has_m : bool
                    then lift (py_contains (lit "fields") sensor_data)
                    else ret false) ;;
          if has_f : bool then
            print LogValidReading ;;
            d <- lift (py_getitem wrapper (lit "data")) ;;
            process_event d
          else print LogNotSensorFormat)
         (fun e =>
            match e with
            | JSONDecodeError | TypeError =>
                Some (d <- lift (py_getitem wrapper (lit "data")) ;;
                      print (LogNotJSON d))
            | _ => None
            end)
     else print LogNoDataField)
    (fun e =>
       match e with
       | JSONDecodeError => Some (print LogWrapperParseFailed)
       | _ => None
       end).

(** Lines 109-148: one complete message. *)
Definition process_message (message : str) : M unit :=
  if truthy (strip message) then
    let lines := split_nl message in
    let event_data := first_data_line lines in
    match event_data with
    | Some event_data =>
        if truthy event_data then handle_payload event_data else ret tt
    | None => ret tt
    end
  else ret tt.

(** Line 108: the loop over [messages[:-1]]. *)
Fixpoint for_messages (messages : list str) : M unit :=
  match messages with
  | [] => ret tt
  | message :: rest => process_message message ;; for_messages rest
  end.

(** Lines 100-148: the loop over the chunks of one connection; it
    returns the buffer left when the stream ends. *)
Fixpoint stream_loop (chunks : list str) (buffer : str) : M str :=
  match chunks with
  | [] => ret buffer
  | chunk :: rest =>
      if truthy chunk then
        let buffer := buffer ++ chunk in
        if contains_nn buffer then
          let messages := split_nn buffer in
          let buffer := last messages [] in
          for_messages (removelast messages) ;;
          stream_loop rest buffer
        else stream_loop rest buffer
      else stream_loop rest buffer
  end.

(** The processing of payloads one after the other. *)
Fixpoint for_payloads (ps : list str) : M unit :=
  match ps with
  | [] => ret tt
  | event_data :: rest => handle_payload event_data ;; for_payloads rest
  end.

(** How the stream of a connection ends: the server closes it, a read
    fails, or the user interrupts the program. *)
Inductive ending : Type := EndOfStream | ReadError | Interrupted.

(** What the outside does at one connection attempt: the request fails
    (lines 92-93 raise), the user interrupts it, or it succeeds and
    delivers chunks until the stream ends. *)
Inductive attempt : Type :=
| ConnectFails
| ConnectInterrupted
| Connects (chunks : list str) (e : ending).

Definition max_retry_delay : Z := 60.

(** Lines 87-148: the body of the [try] of one iteration; it returns
    the value of [retry_delay] at its end as well. *)
Definition iteration (a : attempt) (retry_delay : Z)
  : trace -> result unit * Z * trace :=
  fun t =>
    let t := t ++ [Print LogConnecting; Print LogUrl] in
    match a with
    | ConnectFails => (Raise RequestError, retry_delay, t)
    | ConnectInterrupted => (Raise KeyboardInterrupt, retry_delay, t)
    | Connects chunks e =>
        let t := t ++ [Print LogConnected] in
        let retry_delay := 5%Z in
        match stream_loop chunks [] t with
        | (Raise x, t') => (Raise x, retry_delay, t')
        | (Ok _, t') =>
            match e with
            | EndOfStream => (Ok tt, retry_delay, t')
            | ReadError => (Raise RequestError, retry_delay, t')
            | Interrupted => (Raise KeyboardInterrupt, retry_delay, t')
            end
        end
    end.

(** Whether the loop of [main] is still running, and with which
    [retry_delay], or has left by [break]. *)
Inductive status : Type :=
| Running (retry_delay : Z)
| Stopped.

(** Lines 86-160: the [while True] loop, run against the connection
    attempts the outside offers. *)
Fixpoint main_loop (attempts : list attempt) (retry_delay : Z) (t : trace)
  : status * trace :=
  match attempts with
  | [] => (Running retry_delay, t)
  | a :: rest =>
      match iteration a retry_delay t with
      | (Ok _, retry_delay, t') => main_loop rest retry_delay t'
      | (Raise e, retry_delay, t') =>
          if is_Exception e then
            let t' := t' ++ [Print (LogConnectionError e);
                             Print (LogRetrying retry_delay);
                             Sleep retry_delay] in
            main_loop rest (Z.min (retry_delay * 2) max_retry_delay) t'
          else (Stopped, t' ++ [Print LogShutdown])
      end
  end.

(** Lines 82-160. *)
Definition main (attempts : list attempt) : status * trace :=
  let retry_delay := 5%Z in
  main_loop attempts retry_delay [].

End Program.

(** *** Specifications *)

(** The computation [m] only adds to the trace, the effects it adds all
    satisfy [P], and an exception it raises satisfies [S]. *)
Definition appends {A : Type} (P : effect -> Prop) (S : exn -> Prop)
           (m : M A) : Prop :=
  forall t, exists new,
    snd (m t) = t ++ new /\ Forall P new
    /\ (forall e, fst (m t) = Raise e -> S e).

(** An exception of the program's own operations: an [Exception] that is
    no [JSONDecodeError]. *)
Definition plain (e : exn) : Prop :=
  e <> JSONDecodeError /\ is_Exception e = true.

(** The waits and the successful connections of a trace, in order:
    [Some d] for a wait of [d], [None] for a connection. *)
Definition backoff_events (t : trace) : list (option Z) :=
  flat_map (fun x => match x with
                     | Sleep d => [Some d]
                     | Print LogConnected => [None]
                     | _ => []
                     end) t.

(** The backoff rule: the next wait is [expected]; after a wait of [d] the
    next one is [min (d * 2) 60]; after a successful connection the next
    one is 5. *)
Fixpoint follows_backoff (expected : Z) (l : list (option Z)) : Prop :=
  match l with
  | [] => True
  | Some d :: l' => d = expected /\ follows_backoff (Z.min (d * 2) 60) l'
  | None :: l' => follows_backoff 5 l'
  end.

(** The inner values the test of line 134 turns away or cannot test: an
    object without one of the two keys, an array or a string that does not
    hold both names, and every number, boolean and null. *)
Definition not_a_reading (v : json) : bool :=
  match v with
  | JDict _ | JList _ | JStr _ =>
      match py_contains (lit "measurement") v,
            py_contains (lit "fields") v with
      | Ok true, Ok true => false
      | _, _ => true
      end
  | _ => true
  end.

(** The lines [main] prints about a payload that it does not hand to
    [process_event]. *)
Definition is_turned_away_log (x : effect) : Prop :=
  match x with
  | Print (LogEventReceived _) | Print LogNotSensorFormat
  | Print (LogNotJSON _) | Print LogNoDataField
  | Print LogWrapperParseFailed => True
  | _ => False
  end.

(** The first end-to-end scenario: the text of the sensor reading, the
    envelope that carries it as its [data] string, the frame on the wire,
    and the point expected from it. *)
Definition scenario1_reading : str :=
  lit "{'measurement':'env','tags':{'location':'lab','device':'d1'},'fields':{'temperature':21.5,'humidity':40.2},'timestamp':1700000000}".

Definition scenario1_payload : str :=
  lit "{'data':'{\'measurement\':\'env\',\'tags\':{\'location\':\'lab\',\'device\':\'d1\'},\'fields\':{\'temperature\':21.5,\'humidity\':40.2},\'timestamp\':1700000000}'}".

Definition scenario1_frame : str :=
  data_prefix ++ scenario1_payload ++ [LF; LF].

(** The value of the reading once decoded. *)
Definition scenario1_data : json :=
  JDict [(lit "measurement", JStr (lit "env"));
         (lit "tags",
          JDict [(lit "location", JStr (lit "lab"));
                 (lit "device", JStr (lit "d1"))]);
         (lit "fields",
          JDict [(lit "temperature",
                  JFloat (float_of_decimal false 215 (-1)));
                 (lit "humidity",
                  JFloat (float_of_decimal false 402 (-1)))]);
         (lit "timestamp", JInt 1700000000)].

Definition scenario1_point : point :=
  {| measurement := JStr (lit "env");
     tag_location := JStr (lit "lab");
     tag_device := JStr (lit "d1");
     field_temperature := float_of_decimal false 215 (-1);
     field_humidity := float_of_decimal false 402 (-1);
     time := 1700000000000000000 |}.

(** The line printed for an inner value that is no reading: line 138
    when the test of line 134 is false, line 141 when it raises. *)
Definition skip_line (d : str) (v : json) : log :=
  match v with
  | JDict _ | JList _ | JStr _ => LogNotSensorFormat
  | _ => LogNotJSON (JStr d)
  end.

(** The line [process_event] prints after the call of the sink: line 70
    when the write returned, the error line of line 77 when it raised, or
    when line 70 itself cannot be printed. *)
Definition closing_line (ok : bool) (temperature humidity : json) : log :=
  if ok then
    if printable (LogWritten temperature humidity)
    then LogWritten temperature humidity
    else LogErrorProcessing UnicodeEncodeError
  else LogErrorProcessing SinkError.

(** [v] is an object with the key [k]. *)
Definition has_key (k : str) (v : json) : bool :=
  match v with
  | JDict d => match dict_get d k with Some _ => true | None => false end
  | _ => false
  end.

End Bridge.
Import Bridge.

(** ** The reading without the effects, and the shapes of envelopes *)

Module Reading.

Definition rbind {A B : Type} (r : result A) (k : A -> result B) : result B :=
  match r with
  | Ok a => k a
  | Raise e => Raise e
  end.

Section Extraction.

Variable str_to_float : str -> option spec_float.
Variable str_to_int : str -> option Z.

(** What lines 44-62 compute, in their order of evaluation: the decoded
    reading, the four parts printed by lines 48-51, [int] of the timestamp
    (line 55), then the measurement, the two tags and the two fields
    converted by [float] (lines 57-61). The result is the point, or the
    first exception. *)
Definition reading_point (event_data : json) : result point :=
  rbind (py_json_loads event_data) (fun data =>
  rbind (py_getitem data (lit "measurement")) (fun m =>
  rbind (py_getitem data (lit "tags")) (fun tags =>
  rbind (py_getitem data (lit "fields")) (fun fields =>
  rbind (py_getitem data (lit "timestamp")) (fun ts =>
  rbind (py_int str_to_int ts) (fun seconds =>
  rbind (py_getitem tags (lit "location")) (fun location =>
  rbind (py_getitem tags (lit "device")) (fun device =>
  rbind (py_getitem fields (lit "temperature")) (fun temperature =>
  rbind (py_float str_to_float temperature) (fun temperature_f =>
  rbind (py_getitem fields (lit "humidity")) (fun humidity =>
  rbind (py_float str_to_float humidity) (fun humidity_f =>
  Ok {| measurement := m;
        tag_location := location;
        tag_device := device;
        field_temperature := temperature_f;
        field_humidity := humidity_f;
        time := seconds * 1000000000 |})))))))))))).

End Extraction.

(** No string of the value, key or not, holds a surrogate. *)
Fixpoint strings_encodable (v : json) : bool :=
  match v with
  | JStr s => encodable s
  | JList l => forallb strings_encodable l
  | JDict d =>
      forallb (fun kv => match kv with
                         | (k, x) => encodable k && strings_encodable x
                         end) d
  | _ => true
  end.

(** [x] is the string [k]. *)
Definition is_str (k : str) (x : json) : bool :=
  match x with
  | JStr s => Str.eqb s k
  | _ => false
  end.

(** The decoded envelopes on which lines 127-141 raise an exception that
    no handler of the stream loop catches.
    - A value that is no container: line 127 cannot test it.
    - A string or an array in which ['data'] occurs: line 128 cannot index
      it by a string.
    - An object whose [data] value is neither a string nor an array:
      line 128 cannot slice it.
    - An object whose [data] string holds a surrogate among its first 100
      characters: line 128 cannot print them.
    - An object whose [data] string holds a surrogate anywhere and does not
      decode to a container: line 141 cannot print it. *)
Definition ends_connection (wrapper : json) : bool :=
  match wrapper with
  | JDict w =>
      match dict_get w (lit "data") with
      | None => false
      | Some (JStr d) =>
          negb (encodable (firstn 100 d))
          || match json_loads d with
             | Some (JDict _) | Some (JList _) | Some (JStr _) => false
             | _ => negb (encodable d)
             end
      | Some (JList _) => false
      | Some _ => true
      end
  | JList l => existsb (is_str (lit "data")) l
  | JStr s => Str.contains s (lit "data")
  | _ => true
  end.

(** The longest run of decimal digits of a text, [run] digits having just
    been read. *)
Fixpoint longest_digit_run (s : str) (run : nat) : nat :=
  match s with
  | [] => run
  | c :: s' =>
      if is_digit c then longest_digit_run s' (S run)
      else Nat.max run (longest_digit_run s' 0)
  end.

(** The number of opening brackets and braces of a text. *)
Definition opening_brackets (s : str) : nat :=
  length (filter (fun c => (c =? 91)%N || (c =? 123)%N) s).

(** Texts that [json.loads] decodes without reaching a limit of the
    interpreter: no integer literal has more than 640 digits, below which
    no setting puts the digit limit of [int] (4300 by default), and the
    nesting is at most 100 deep, far from the default recursion limit. *)
Definition within_limits (s : str) : bool :=
  (longest_digit_run s 0 <=? 640)%nat && (opening_brackets s <=? 100)%nat.

(** The payload, decoded by line 124, and its [data] string, decoded by
    lines 132 and 44, are within the limits. *)
Definition decoded_within_limits (event_data : str) : bool :=
  within_limits event_data
  && match json_loads event_data with
     | Some (JDict w) =>
         match dict_get w (lit "data") with
         | Some (JStr d) => within_limits d
         | _ => true
         end
     | _ => true
     end.

(** A payload within the limits that is no JSON, or whose envelope does
    not end the connection. *)
Definition harmless (event_data : str) : bool :=
  decoded_within_limits event_data
  && match json_loads event_data with
     | Some wrapper => negb (ends_connection wrapper)
     | None => true
     end.

(** The wait before the retry after [k] failures in a row. *)
Definition nth_wait (k : nat) : Z := Z.min (5 * 2 ^ Z.of_nat k) 60.

End Reading.
Import Reading.

(** ** The configuration and the URL (lines 9-15, 34-39 and 89) *)

Module Config.

(** The two settings the URL is built from; [None] is an unset variable of
    the environment. The value of a variable that is set is taken to be
    text that the standard output encodes. *)
Record config : Type := {
  PARTICLE_TOKEN : option str;
  DEVICE_ID : option str
}.

(** A string or [None] inside an f-string. *)
Definition py_format (v : option str) : str :=
  match v with
  | Some s => s
  | None => lit "None"
  end.

(** Lines 34-39. *)
Definition url (cfg : config) : str :=
  match DEVICE_ID cfg with
  | Some (c :: device) =>
      lit "https://api.particle.io/v1/devices/" ++ (c :: device)
        ++ lit "/events?access_token=" ++ py_format (PARTICLE_TOKEN cfg)
  | _ =>
      lit "https://api.particle.io/v1/events?access_token="
        ++ py_format (PARTICLE_TOKEN cfg)
  end.

(** The scan of [s.replace(old, new)] for a non-empty [old]: [skip] counts
    the characters still to drop of an occurrence just replaced. *)
Fixpoint replace_from (old new : str) (skip : nat) (s : str) : str :=
  match s with
  | [] => []
  | c :: s' =>
      match skip with
      | S k => replace_from old new k s'
      | O =>
          if startswith s old
          then new ++ replace_from old new (length old - 1) s'
          else c :: replace_from old new 0 s'
      end
  end.

(** [s.replace(old, new)]: the occurrences of [old] found from left to
    right without overlap are replaced; an empty [old] occurs before every
    character and at the end. *)
Definition py_replace (s old new : str) : str :=
  match old with
  | [] => new ++ flat_map (fun c => c :: new) s
  | _ :: _ => replace_from old new 0 s
  end.

Definition REDACTED : str := lit "REDACTED".

(** Line 89: the URL as it is printed; the replacement raises when the
    token is unset. *)
Definition logged_url (cfg : config) : result str :=
  match PARTICLE_TOKEN cfg with
  | Some token => Ok (py_replace (url cfg) token REDACTED)
  | None => Raise TypeError
  end.

Section Supervisor.

Variable sink : trace -> point -> bool.
Variable str_to_float : str -> option spec_float.
Variable str_to_int : str -> option Z.
Variable cfg : config.

(** Lines 87-148 with the evaluation of line 89: when it raises, line 92 is
    not reached and the attempt is not made. *)
Definition iteration_cfg (a : attempt) (retry_delay : Z)
  : trace -> result unit * Z * trace :=
  fun t =>
    match logged_url cfg with
    | Ok _ => iteration sink str_to_float str_to_int a retry_delay t
    | Raise e => (Raise e, retry_delay, t ++ [Print LogConnecting])
    end.

(** Lines 86-160 over [iteration_cfg]. *)
Fixpoint main_loop_cfg (attempts : list attempt) (retry_delay : Z) (t : trace)
  : status * trace :=
  match attempts with
  | [] => (Running retry_delay, t)
  | a :: rest =>
      match iteration_cfg a retry_delay t with
      | (Ok _, retry_delay, t') => main_loop_cfg rest retry_delay t'
      | (Raise e, retry_delay, t') =>
          if is_Exception e then
            let t' := t' ++ [Print (LogConnectionError e);
                             Print (LogRetrying retry_delay);
                             Sleep retry_delay] in
            main_loop_cfg rest (Z.min (retry_delay * 2) max_retry_delay) t'
          else (Stopped, t' ++ [Print LogShutdown])
      end
  end.

Definition main_cfg (attempts : list attempt) : status * trace :=
  let retry_delay := 5%Z in
  main_loop_cfg attempts retry_delay [].

End Supervisor.

End Config.
Import Config.

(* ================================================================== *)
(** * Part II: properties *)
(* ================================================================== *)

Section SplitFacts.

(** Induction following the two-character look-ahead of the search. *)
Lemma str_ind2 (P : str -> Prop) :
  P [] -> (forall c, P [c]) ->
  (forall c d s, P s -> P (d :: s) -> P (c :: d :: s)) ->
  forall s, P s.
Proof.
  intros H0 H1 H2 s.
  assert (G : P s /\ forall c, P (c :: s)).
  { induction s as [|d s [IH1 IH2]]; split; auto. }
  apply G.
Qed.

Lemma cons_head_nonempty (c : char) (l : list str) : cons_head c l <> [].
Proof. destruct l; discriminate. Qed.

Lemma split_nn_cons (c : char) (s : str) :
  split_nn (c :: s) =
  if starts_nn (c :: s) then [] :: split_nn (tl s)
  else cons_head c (split_nn s).
Proof. destruct s as [|d s]; reflexivity. Qed.

Lemma split_nn_nonempty (s : str) : split_nn s <> [].
Proof.
  destruct s as [|c s]; [discriminate|].
  rewrite split_nn_cons. destruct (starts_nn (c :: s)); [discriminate|].
  apply cons_head_nonempty.
Qed.

Lemma removelast_cons_head (c : char) (l : list str) :
  removelast (cons_head c l) =
  match removelast l with
  | [] => []
  | m :: ms => (c :: m) :: ms
  end.
Proof. destruct l as [|m [|m' l]]; reflexivity. Qed.

Lemma last_cons_head (c : char) (l : list str) :
  last (cons_head c l) [] =
  match removelast l with
  | [] => c :: last l []
  | _ :: _ => last l []
  end.
Proof. destruct l as [|m [|m' l]]; reflexivity. Qed.

Lemma removelast_nil_single (l : list str) :
  l <> [] -> removelast l = [] -> l = [last l []].
Proof.
  intros Hne R. pose proof (app_removelast_last [] Hne) as H.
  rewrite R in H. exact H.
Qed.

(** A string without separator is its own single piece. *)
Lemma split_nn_no_sep (s : str) :
  contains_nn s = false -> split_nn s = [s].
Proof.
  induction s as [|c s IH]; [reflexivity|].
  intros H. rewrite split_nn_cons.
  cbn [contains_nn] in H. apply orb_false_iff in H as [H1 H2].
  rewrite H1, (IH H2). reflexivity.
Qed.

(** Conversely a single piece is the whole string, which then has no
    separator. *)
Lemma split_nn_single (s m : str) :
  split_nn s = [m] -> m = s /\ contains_nn s = false.
Proof.
  revert m. induction s as [|c s IH]; intros m Hm.
  - simpl in Hm. injection Hm as <-. auto.
  - rewrite split_nn_cons in Hm. cbn [contains_nn].
    destruct (starts_nn (c :: s)) eqn:E.
    + injection Hm as _ Hm. exfalso. exact (split_nn_nonempty _ Hm).
    + destruct (split_nn s) as [|m1 [|m2 ms]] eqn:S; simpl in Hm.
      * exfalso. exact (split_nn_nonempty _ S).
      * injection Hm as <-. destruct (IH m1 eq_refl) as [-> ->]. auto.
      * discriminate.
Qed.

Lemma starts_nn_app (s t : str) :
  starts_nn s = true -> starts_nn (s ++ t) = true.
Proof. destruct s as [|c [|d s]]; simpl; congruence. Qed.

(** The piece after the last separator contains no separator. *)
Lemma last_split_nn_no_sep (s : str) :
  contains_nn (last (split_nn s) []) = false.
Proof.
  induction s as [|c|c d s IH1 IH2] using str_ind2; try reflexivity.
  rewrite split_nn_cons. destruct (starts_nn (c :: d :: s)) eqn:E.
  - cbn [tl]. pose proof (split_nn_nonempty s) as Hne.
    destruct (split_nn s) as [|m ms]; [congruence|exact IH1].
  - rewrite last_cons_head.
    destruct (removelast (split_nn (d :: s))) eqn:R; [|exact IH2].
    pose proof (removelast_nil_single _ (split_nn_nonempty _) R) as Hs.
    apply split_nn_single in Hs as [Hl Hc]. rewrite Hl.
    cbn [contains_nn]. cbn [contains_nn] in Hc. rewrite E.
    exact Hc.
Qed.

(** Splitting a concatenation: the complete pieces of the first part
    stay, and the search goes on from its last piece. *)
Lemma split_nn_app (a b : str) :
  split_nn (a ++ b) =
  removelast (split_nn a) ++ split_nn (last (split_nn a) [] ++ b).
Proof.
  induction a as [|c|c d a IH1 IH2] using str_ind2; try reflexivity.
  rewrite (split_nn_cons c (d :: a)).
  change ((c :: d :: a) ++ b) with (c :: (d :: a) ++ b).
  rewrite (split_nn_cons c ((d :: a) ++ b)).
  destruct (starts_nn (c :: d :: a)) eqn:E.
  - change (c :: (d :: a) ++ b) with ((c :: d :: a) ++ b).
    rewrite (starts_nn_app _ b E). cbn [app tl].
    rewrite IH1. pose proof (split_nn_nonempty a) as Hne.
    destruct (split_nn a) as [|m ms]; [congruence|reflexivity].
  - assert (Es : starts_nn (c :: (d :: a) ++ b) = false) by exact E.
    rewrite Es, removelast_cons_head, last_cons_head, IH2.
    destruct (removelast (split_nn (d :: a))) as [|m ms] eqn:R;
      [|reflexivity].
    pose proof (removelast_nil_single _ (split_nn_nonempty _) R) as Hs.
    apply split_nn_single in Hs as [Hl Hc]. rewrite Hl.
    cbn [app]. rewrite (split_nn_cons c (d :: a ++ b)).
    change (c :: d :: a ++ b) with (c :: (d :: a) ++ b).
    rewrite Es. reflexivity.
Qed.

End SplitFacts.

(** ** The decoder consumes its input and needs no more recursion than the
       text is long *)

Section JsonFacts.

Lemma skip_ws_length (s : str) : (length (skip_ws s) <= length s)%nat.
Proof.
  induction s as [|c s IH]; [apply le_n|].
  cbn [skip_ws]. destruct (is_ws c); cbn [length]; lia.
Qed.

Lemma scanstring_consumes (s : str) :
  forall acc x r, scanstring s acc = Some (x, r) ->
                  (length r < length s)%nat.
Proof.
  assert (G : forall n s, (length s <= n)%nat ->
              forall acc x r, scanstring s acc = Some (x, r) ->
                              (length r < length s)%nat).
  { clear s. induction n as [|n IH]; intros s Hn acc x r H.
    - destruct s; [discriminate H|cbn in Hn; lia].
    - destruct s as [|c s]; [discriminate H|].
      cbn [scanstring] in H. cbn [length] in *.
      destruct (N.eqb c 34).
      { injection H as _ <-. lia. }
      destruct (N.eqb c 92).
      + destruct s as [|e s1]; [discriminate H|]. cbn [length] in *.
        destruct (N.eqb e 117).
        * destruct s1 as [|h1 [|h2 [|h3 [|h4 s2]]]]; try discriminate H.
          cbn [length] in *.
          destruct (hex4 h1 h2 h3 h4) as [u|]; [|discriminate H].
          assert (K : forall acc', scanstring s2 acc' = Some (x, r) ->
                                   (length r < length s2)%nat).
          { intros acc'. apply IH. lia. }
          destruct s2 as [|b [|y [|l1 [|l2 [|l3 [|l4 s3]]]]]];
            try (apply K in H; cbn [length] in *; lia).
          destruct (is_high_surrogate u && N.eqb b 92 && N.eqb y 117);
            [|apply K in H; cbn [length] in *; lia].
          destruct (hex4 l1 l2 l3 l4) as [u2|]; [|discriminate H].
          destruct (is_low_surrogate u2);
            [|apply K in H; cbn [length] in *; lia].
          apply IH in H; cbn [length] in *; lia.
        * destruct (unescape e); [|discriminate H].
          apply IH in H; lia.
      + destruct (N.ltb c 32); [discriminate H|].
        apply IH in H; lia. }
  intros acc x r. apply (G (length s) s (le_n _)).
Qed.

Lemma span_digits_length (s : str) :
  (length (snd (span_digits s)) <= length s)%nat.
Proof.
  induction s as [|c s IH]; [apply le_n|].
  cbn [span_digits]. destruct (is_digit c); [|apply le_n].
  destruct (span_digits s) as [ds r]. cbn [snd length] in *. lia.
Qed.

Lemma int_part_consumes (s ds r : str) :
  int_part s = Some (ds, r) -> (length r < length s)%nat.
Proof.
  unfold int_part. destruct s as [|c s]; [discriminate|].
  destruct ((49 <=? c)%N && (c <=? 57)%N).
  - pose proof (span_digits_length s) as H.
    destruct (span_digits s) as [ds' r']. intros [= _ <-].
    cbn [snd length] in *. lia.
  - destruct (N.eqb c 48); [|discriminate].
    intros [= _ <-]. cbn [length]. lia.
Qed.

Lemma frac_part_length (s : str) :
  (length (snd (frac_part s)) <= length s)%nat.
Proof.
  unfold frac_part. destruct s as [|dot [|d r]]; try apply le_n.
  destruct (N.eqb dot 46 && is_digit d); [|apply le_n].
  pose proof (span_digits_length (d :: r)). cbn [length] in *. lia.
Qed.

Lemma exp_part_length (s : str) :
  (length (snd (exp_part s)) <= length s)%nat.
Proof.
  unfold exp_part. destruct s as [|e r]; [apply le_n|].
  destruct (N.eqb e 101 || N.eqb e 69); [|apply le_n].
  assert (H : forall r1 : str, (length r1 <= length r)%nat ->
                (length (snd (let (ds, r2) := span_digits r1 in
                              match ds with
                              | [] => (@None Z, e :: r)
                              | _ :: _ => (Some 0%Z, r2)
                              end)) <= length (e :: r))%nat).
  { intros r1 Hr1. pose proof (span_digits_length r1) as Hs.
    destruct (span_digits r1) as [[|d ds] r2]; cbn [snd length] in *; lia. }
  destruct r as [|sg r']; cbn [length] in *.
  - cbn. lia.
  - destruct (N.eqb sg 45); [|destruct (N.eqb sg 43)].
    + pose proof (span_digits_length r') as Hs.
      destruct (span_digits r') as [[|d ds] r2]; cbn [snd length] in *; lia.
    + pose proof (span_digits_length r') as Hs.
      destruct (span_digits r') as [[|d ds] r2]; cbn [snd length] in *; lia.
    + pose proof (span_digits_length (sg :: r')) as Hs.
      destruct (span_digits (sg :: r')) as [[|d ds] r2];
        cbn [snd length] in *; lia.
Qed.

Lemma match_number_fuel (s : str) : match_number s <> NoFuel.
Proof.
  unfold match_number.
  destruct (match s with
            | [] => (false, s)
            | c :: r => if N.eqb c 45 then (true, r) else (false, s)
            end) as [neg s1].
  destruct (int_part s1) as [[ids s2]|]; [|discriminate].
  destruct (frac_part s2) as [fds s3].
  destruct (exp_part s3) as [ex s4].
  destruct fds, ex; discriminate.
Qed.

Lemma match_number_consumes (s : str) (v : json) (r : str) :
  match_number s = Parsed v r -> (length r < length s)%nat.
Proof.
  unfold match_number.
  assert (H1 : (length (snd (match s with
                             | [] => (false, s)
                             | c :: r => if N.eqb c 45 then (true, r)
                                         else (false, s)
                             end)) <= length s)%nat).
  { destruct s as [|c s']; [apply le_n|].
    destruct (N.eqb c 45); cbn [snd length]; lia. }
  destruct (match s with
            | [] => (false, s)
            | c :: r => if N.eqb c 45 then (true, r) else (false, s)
            end) as [neg s1].
  cbn [snd] in H1.
  destruct (int_part s1) as [[ids s2]|] eqn:E; [|discriminate].
  apply int_part_consumes in E.
  pose proof (frac_part_length s2) as H2.
  destruct (frac_part s2) as [fds s3]. cbn [snd] in H2.
  pose proof (exp_part_length s3) as H3.
  destruct (exp_part s3) as [ex s4]. cbn [snd] in H3.
  destruct fds, ex; intros [= _ <-]; lia.
Qed.

Section Loops.

Variable scan : str -> pres json.
Hypothesis scan_consumes :
  forall s v r, scan s = Parsed v r -> (length r < length s)%nat.

Lemma parse_elements_consumes (n : nat) :
  forall s acc v r,
    parse_elements scan n s acc = Parsed v r -> (length r < length s)%nat.
Proof.
  induction n as [|n IH]; intros s acc v r H; [discriminate H|].
  cbn [parse_elements] in H.
  destruct (scan s) as [x r1| |] eqn:E; try discriminate H.
  apply scan_consumes in E. pose proof (skip_ws_length r1) as W.
  destruct (skip_ws r1) as [|c r2]; [discriminate H|]. cbn [length] in W.
  destruct (N.eqb c 93); [injection H as _ <-; lia|].
  destruct (N.eqb c 44); [|discriminate H].
  apply IH in H. pose proof (skip_ws_length r2). lia.
Qed.

Lemma parse_members_consumes (n : nat) :
  forall s acc v r,
    parse_members scan n s acc = Parsed v r -> (length r < length s)%nat.
Proof.
  induction n as [|n IH]; intros s acc v r H; [discriminate H|].
  cbn [parse_members] in H.
  destruct s as [|q s1]; [discriminate H|]. cbn [length].
  destruct (N.eqb q 34); [|discriminate H].
  destruct (scanstring s1 []) as [[key r1]|] eqn:Ek; [|discriminate H].
  apply scanstring_consumes in Ek. pose proof (skip_ws_length r1) as W1.
  destruct (skip_ws r1) as [|colon r2]; [discriminate H|].
  cbn [length] in W1.
  destruct (N.eqb colon 58); [|discriminate H].
  pose proof (skip_ws_length r2) as W2.
  destruct (scan (skip_ws r2)) as [x r3| |] eqn:E; try discriminate H.
  apply scan_consumes in E. pose proof (skip_ws_length r3) as W3.
  destruct (skip_ws r3) as [|c r4]; [discriminate H|]. cbn [length] in W3.
  destruct (N.eqb c 125); [injection H as _ <-; lia|].
  destruct (N.eqb c 44); [|discriminate H].
  apply IH in H. pose proof (skip_ws_length r4). lia.
Qed.

Variable bound : nat.
Hypothesis scan_fuel :
  forall s, (length s < bound)%nat -> scan s <> NoFuel.

Lemma parse_elements_fuel (n : nat) :
  forall s acc,
    (length s < bound)%nat -> (length s <= n)%nat -> (1 <= n)%nat ->
    parse_elements scan n s acc <> NoFuel.
Proof.
  induction n as [|n IH]; intros s acc Hb Hn H1; [lia|].
  cbn [parse_elements].
  pose proof (scan_fuel s Hb) as F.
  destruct (scan s) as [x r1| |] eqn:E; try discriminate; [|congruence].
  apply scan_consumes in E. pose proof (skip_ws_length r1) as W.
  destruct (skip_ws r1) as [|c r2]; [discriminate|]. cbn [length] in W.
  destruct (N.eqb c 93); [discriminate|].
  destruct (N.eqb c 44); [|discriminate].
  pose proof (skip_ws_length r2). apply IH; lia.
Qed.

Lemma parse_members_fuel (n : nat) :
  forall s acc,
    (length s < bound)%nat -> (length s <= n)%nat -> (1 <= n)%nat ->
    parse_members scan n s acc <> NoFuel.
Proof.
  induction n as [|n IH]; intros s acc Hb Hn H1; [lia|].
  cbn [parse_members].
  destruct s as [|q s1]; [discriminate|]. cbn [length] in *.
  destruct (N.eqb q 34); [|discriminate].
  destruct (scanstring s1 []) as [[key r1]|] eqn:Ek; [|discriminate].
  apply scanstring_consumes in Ek. pose proof (skip_ws_length r1) as W1.
  destruct (skip_ws r1) as [|colon r2]; [discriminate|].
  cbn [length] in W1.
  destruct (N.eqb colon 58); [|discriminate].
  pose proof (skip_ws_length r2) as W2.
  pose proof (scan_fuel (skip_ws r2) ltac:(lia)) as F.
  destruct (scan (skip_ws r2)) as [x r3| |] eqn:E; try discriminate;
    [|congruence].
  apply scan_consumes in E. pose proof (skip_ws_length r3) as W3.
  destruct (skip_ws r3) as [|c r4]; [discriminate|]. cbn [length] in W3.
  destruct (N.eqb c 125); [discriminate|].
  destruct (N.eqb c 44); [|discriminate].
  pose proof (skip_ws_length r4). apply IH; lia.
Qed.

End Loops.

Lemma skipn_cons_shorter (n : nat) (c : N) (s : str) :
  (length (skipn (S n) (c :: s)) < length (c :: s))%nat.
Proof. cbn [skipn length]. rewrite length_skipn. lia. Qed.

Lemma scan_once_consumes (fuel : nat) :
  forall s v r, scan_once fuel s = Parsed v r -> (length r < length s)%nat.
Proof.
  induction fuel as [|fuel IH]; intros s v r H; [discriminate H|].
  cbn [scan_once] in H. destruct s as [|c s1]; [discriminate H|].
  destruct (N.eqb c 34).
  { destruct (scanstring s1 []) as [[x r']|] eqn:E; [|discriminate H].
    injection H as _ <-. apply scanstring_consumes in E. cbn [length]. lia. }
  destruct (N.eqb c 123).
  { pose proof (skip_ws_length s1) as W.
    destruct (skip_ws s1) as [|c' r'] eqn:Es; [discriminate H|].
    destruct (N.eqb c' 125).
    - injection H as _ <-. cbn [length] in *. lia.
    - apply (parse_members_consumes _ IH) in H. cbn [length] in *. lia. }
  destruct (N.eqb c 91).
  { pose proof (skip_ws_length s1) as W.
    destruct (skip_ws s1) as [|c' r'] eqn:Es; [discriminate H|].
    destruct (N.eqb c' 93).
    - injection H as _ <-. cbn [length] in *. lia.
    - apply (parse_elements_consumes _ IH) in H. cbn [length] in *. lia. }
  repeat lazymatch type of H with
         | (if startswith ?a ?b then _ else _) = _ =>
             destruct (startswith a b);
             [injection H as _ <-;
              first [exact (skipn_cons_shorter 3 c s1)
                    |exact (skipn_cons_shorter 4 c s1)
                    |exact (skipn_cons_shorter 2 c s1)
                    |exact (skipn_cons_shorter 7 c s1)
                    |exact (skipn_cons_shorter 8 c s1)]|]
         end.
  apply match_number_consumes in H. exact H.
Qed.

(** The recursion bound is never met on a text shorter than it. *)
Lemma scan_once_fuel (fuel : nat) :
  forall s, (length s < fuel)%nat -> scan_once fuel s <> NoFuel.
Proof.
  induction fuel as [|fuel IH]; intros s Hs; [lia|].
  cbn [scan_once]. destruct s as [|c s1]; [discriminate|].
  cbn [length] in Hs.
  destruct (N.eqb c 34).
  { destruct (scanstring s1 []) as [[x r']|]; discriminate. }
  destruct (N.eqb c 123).
  { pose proof (skip_ws_length s1) as W.
    destruct (skip_ws s1) as [|c' r'] eqn:Es; [discriminate|].
    destruct (N.eqb c' 125); [discriminate|].
    apply (parse_members_fuel _ (scan_once_consumes fuel) fuel IH);
      cbn [length] in *; lia. }
  destruct (N.eqb c 91).
  { pose proof (skip_ws_length s1) as W.
    destruct (skip_ws s1) as [|c' r'] eqn:Es; [discriminate|].
    destruct (N.eqb c' 93); [discriminate|].
    apply (parse_elements_fuel _ (scan_once_consumes fuel) fuel IH);
      cbn [length] in *; lia. }
  repeat lazymatch goal with
         | |- (if startswith ?a ?b then _ else _) <> _ =>
             destruct (startswith a b); [discriminate|]
         end.
  apply match_number_fuel.
Qed.

(** [json_loads] never fails for want of recursion: it returns a value
    exactly when the text is one JSON value between white space. *)
Lemma json_loads_fuel (s : str) :
  scan_once (S (length s)) (skip_ws s) <> NoFuel.
Proof.
  apply scan_once_fuel. pose proof (skip_ws_length s). lia.
Qed.

End JsonFacts.

(** ** The frame decoder *)

Section DecoderFacts.

Lemma last_app_nonempty (A : Type) (l1 l2 : list A) (d : A) :
  l2 <> [] -> last (l1 ++ l2) d = last l2 d.
Proof.
  intros H. induction l1 as [|a l1 IH]; [reflexivity|].
  cbn [app]. destruct (l1 ++ l2) eqn:E.
  - apply app_eq_nil in E as [_ E]. contradiction.
  - rewrite <- IH. reflexivity.
Qed.

(** One chunk: the loop keeps the last piece of the split of the extended
    buffer and hands over the pieces before it. *)
Lemma feed_split (buffer chunk : str) :
  contains_nn buffer = false ->
  feed buffer chunk =
  (last (split_nn (buffer ++ chunk)) [],
   removelast (split_nn (buffer ++ chunk))).
Proof.
  intros Hb. unfold feed. destruct chunk as [|c chunk]; cbn [truthy].
  - rewrite app_nil_r, (split_nn_no_sep _ Hb). reflexivity.
  - destruct (contains_nn (buffer ++ c :: chunk)) eqn:E; [reflexivity|].
    rewrite (split_nn_no_sep _ E). reflexivity.
Qed.

Lemma feed_buffer_no_sep (buffer chunk : str) :
  contains_nn buffer = false ->
  contains_nn (fst (feed buffer chunk)) = false.
Proof.
  intros Hb. rewrite (feed_split _ chunk Hb). apply last_split_nn_no_sep.
Qed.

(** The messages and the buffer after any chunks are those of one split
    of everything received. *)
Lemma decoder_split (chunks : list str) :
  forall buffer, contains_nn buffer = false ->
    messages_of buffer chunks =
      removelast (split_nn (buffer ++ concat chunks))
    /\ buffer_after buffer chunks =
      last (split_nn (buffer ++ concat chunks)) [].
Proof.
  induction chunks as [|chunk rest IH]; intros buffer Hb.
  - cbn [messages_of buffer_after concat]. rewrite app_nil_r.
    rewrite (split_nn_no_sep _ Hb). split; reflexivity.
  - cbn [messages_of buffer_after concat].
    destruct (IH _ (feed_buffer_no_sep _ chunk Hb)) as [IHm IHb].
    rewrite IHm, IHb, (feed_split _ chunk Hb). cbn [fst snd].
    rewrite app_assoc, (split_nn_app (buffer ++ chunk) (concat rest)).
    split.
    + rewrite removelast_app by apply split_nn_nonempty. reflexivity.
    + rewrite last_app_nonempty by apply split_nn_nonempty. reflexivity.
Qed.

Lemma messages_of_concat (chunks : list str) :
  messages_of [] chunks = removelast (split_nn (concat chunks)).
Proof. apply (decoder_split chunks []). reflexivity. Qed.

Lemma buffer_after_concat (chunks : list str) :
  buffer_after [] chunks = last (split_nn (concat chunks)) [].
Proof. apply (decoder_split chunks []). reflexivity. Qed.

(** Every text is the frames of its split, each with its delimiter,
    followed by the last piece. *)
Lemma split_nn_frames (s : str) :
  s = concat (map frame_text (removelast (split_nn s)))
        ++ last (split_nn s) []
  /\ Forall ends_at_first_delimiter (removelast (split_nn s)).
Proof.
  induction s as [|c|c d s [IH1 F1] [IH2 F2]] using str_ind2.
  - split; [reflexivity|constructor].
  - split; [reflexivity|constructor].
  - rewrite split_nn_cons. destruct (starts_nn (c :: d :: s)) eqn:E.
    + cbn [tl]. pose proof (split_nn_nonempty s) as Hne.
      cbn [starts_nn] in E. apply andb_true_iff in E as [Ec Ed].
      apply N.eqb_eq in Ec, Ed. subst c d.
      destruct (split_nn s) as [|m ms] eqn:S; [congruence|].
      change (removelast ([] :: m :: ms))
        with ([] :: removelast (m :: ms)).
      change (last ([] :: m :: ms) []) with (last (m :: ms) []).
      split.
      * cbn [map concat frame_text app]. rewrite <- IH1. reflexivity.
      * constructor; [reflexivity|exact F1].
    + rewrite removelast_cons_head, last_cons_head.
      destruct (removelast (split_nn (d :: s))) as [|m ms] eqn:R.
      * split; [|constructor]. cbn [map concat app].
        cbn [map concat app] in IH2. rewrite <- IH2. reflexivity.
      * split.
        -- cbn [map concat frame_text app].
           cbn [map concat frame_text app] in IH2.
           rewrite <- app_assoc in *. cbn [app].
           f_equal. exact IH2.
        -- inversion F2 as [|? ? Fm Fms]; subst.
           constructor; [|exact Fms].
           unfold ends_at_first_delimiter in *.
           cbn [app contains_nn]. rewrite Fm, orb_false_r.
           (* the frame starts where [d :: s] starts *)
           cbn [map concat frame_text] in IH2.
           destruct m as [|x m].
           ++ cbn [app] in IH2. injection IH2 as Hd _. subst d.
              cbn [starts_nn] in E. cbn [app starts_nn].
              rewrite N.eqb_refl, andb_true_r in E.
              rewrite E. reflexivity.
           ++ cbn [app] in IH2. injection IH2 as Hd _. subst x.
              destruct s; exact E.
Qed.

End DecoderFacts.

(** ** Lines of a message *)

Section LineFacts.

Lemma split_nl_nonempty (s : str) : split_nl s <> [].
Proof.
  destruct s as [|c s]; cbn [split_nl]; [discriminate|].
  destruct (N.eqb c LF); [discriminate|apply cons_head_nonempty].
Qed.

Lemma split_nl_line (l : str) : is_line l -> split_nl l = [l].
Proof.
  unfold is_line. induction l as [|c l IH]; intros H; [reflexivity|].
  cbn [split_nl]. destruct (N.eqb_spec c LF) as [->|Hc].
  - exfalso. apply H. left. reflexivity.
  - rewrite IH; [reflexivity|]. intros Hin. apply H. right. exact Hin.
Qed.

Lemma split_nl_line_app (l s : str) :
  is_line l -> split_nl (l ++ LF :: s) = l :: split_nl s.
Proof.
  unfold is_line. induction l as [|c l IH]; intros H.
  - reflexivity.
  - cbn [app split_nl]. destruct (N.eqb_spec c LF) as [->|Hc].
    + exfalso. apply H. left. reflexivity.
    + rewrite IH; [reflexivity|]. intros Hin. apply H. right. exact Hin.
Qed.

(** Splitting the lines of a message gives its lines back. *)
Lemma split_nl_join_nl (lines : list str) :
  lines <> [] -> Forall is_line lines -> split_nl (join_nl lines) = lines.
Proof.
  induction lines as [|l lines IH]; intros Hne Hl; [congruence|].
  inversion Hl as [|? ? Hl1 Hl2]; subst.
  destruct lines as [|l2 lines].
  - apply split_nl_line. exact Hl1.
  - change (join_nl (l :: l2 :: lines))
      with (l ++ LF :: join_nl (l2 :: lines)).
    rewrite (split_nl_line_app _ _ Hl1), IH; [reflexivity|discriminate|].
    exact Hl2.
Qed.

Lemma lstrip_keeps (s : str) (c : char) :
  In c s -> isspace c = false ->
  exists c' r, lstrip s = c' :: r /\ isspace c' = false.
Proof.
  induction s as [|a s IH]; intros Hin Hc; [contradiction|].
  cbn [lstrip]. destruct (isspace a) eqn:Ea.
  - destruct Hin as [->|Hin]; [congruence|]. apply IH; assumption.
  - exists a, s. split; [reflexivity|exact Ea].
Qed.

(** A message with a character that is no white space is not blank. *)
Lemma strip_truthy (s : str) (c : char) :
  In c s -> isspace c = false -> truthy (strip s) = true.
Proof.
  intros Hin Hc. unfold strip, rstrip.
  destruct (lstrip_keeps s c Hin Hc) as (c1 & r1 & E1 & H1).
  rewrite E1.
  assert (Hin' : In c1 (rev (c1 :: r1))).
  { apply in_rev. rewrite rev_involutive. left. reflexivity. }
  destruct (lstrip_keeps _ c1 Hin' H1) as (c2 & r2 & E2 & _).
  rewrite E2. cbn [rev]. destruct (rev r2); reflexivity.
Qed.

Lemma in_join_nl (lines : list str) (l : str) (c : char) :
  In l lines -> In c l -> In c (join_nl lines).
Proof.
  induction lines as [|l1 lines IH]; intros Hl Hc; [contradiction|].
  destruct lines as [|l2 lines].
  - destruct Hl as [->|[]]. exact Hc.
  - change (join_nl (l1 :: l2 :: lines))
      with (l1 ++ LF :: join_nl (l2 :: lines)).
    apply in_or_app. destruct Hl as [->|Hl]; [left; exact Hc|].
    right. right. apply IH; assumption.
Qed.

Lemma startswith_data_prefix (rest : str) :
  startswith (data_prefix ++ rest) data_prefix = true
  /\ skipn 6 (data_prefix ++ rest) = rest.
Proof. split; vm_compute; reflexivity. Qed.

(** The loop of lines 114-117 stops at the first line with the prefix. *)
Lemma first_data_line_first (before after : list str) (rest : str) :
  Forall no_data_prefix before ->
  first_data_line (before ++ (data_prefix ++ rest) :: after) = Some rest.
Proof.
  induction before as [|l before IH]; intros H.
  - cbn [app first_data_line].
    destruct (startswith_data_prefix rest) as [-> ->]. reflexivity.
  - inversion H as [|? ? H1 H2]; subst. cbn [app first_data_line].
    unfold no_data_prefix in H1. rewrite H1. apply IH. exact H2.
Qed.

Lemma first_data_line_none (lines : list str) :
  Forall no_data_prefix lines -> first_data_line lines = None.
Proof.
  induction 1 as [|l lines H1 _ IH]; [reflexivity|].
  cbn [first_data_line]. unfold no_data_prefix in H1. rewrite H1. exact IH.
Qed.

(** A frame with a data line is not blank. *)
Lemma data_frame_not_blank (before after : list str) (rest : str) :
  truthy (strip (join_nl (before ++ (data_prefix ++ rest) :: after))) = true.
Proof.
  apply (strip_truthy _ 100%N); [|reflexivity].
  apply (in_join_nl _ (data_prefix ++ rest)).
  - apply in_or_app. right. left. reflexivity.
  - apply in_or_app. left. vm_compute. left. reflexivity.
Qed.

Lemma event_data_of_join (lines : list str) :
  Forall is_line lines ->
  event_data_of (join_nl lines) =
  if truthy (strip (join_nl lines)) then first_data_line lines else None.
Proof.
  intros Hl. unfold event_data_of. destruct lines as [|l lines].
  - reflexivity.
  - rewrite split_nl_join_nl; [reflexivity|discriminate|exact Hl].
Qed.

Lemma event_data_of_first_data_line (before after : list str) (rest : str) :
  Forall is_line (before ++ (data_prefix ++ rest) :: after) ->
  Forall no_data_prefix before ->
  event_data_of (join_nl (before ++ (data_prefix ++ rest) :: after))
  = Some rest.
Proof.
  intros Hl Hb.
  rewrite (event_data_of_join _ Hl), data_frame_not_blank.
  apply first_data_line_first. exact Hb.
Qed.

Lemma event_data_of_no_data_line (lines : list str) :
  Forall is_line lines -> Forall no_data_prefix lines ->
  event_data_of (join_nl lines) = None /\ payload_of (join_nl lines) = None.
Proof.
  intros Hl Hn.
  assert (E : event_data_of (join_nl lines) = None).
  { rewrite (event_data_of_join _ Hl), (first_data_line_none _ Hn).
    destruct (truthy _); reflexivity. }
  split; [exact E|]. unfold payload_of. rewrite E. reflexivity.
Qed.

Lemma data_prefix_is_line : is_line data_prefix.
Proof.
  unfold is_line. vm_compute. intros H.
  repeat (destruct H as [H|H]; [discriminate H|]). exact H.
Qed.

End LineFacts.

(** C6. For every frame, given by its lines: when some line begins with
    the literal prefix [data: ], the payload extracted from the frame
    ([event_data] after the loop of lines 114-117) is what follows the prefix
    in the first such line, whatever the other lines are; when that
    remainder is not empty, it is the payload the frame yields, and the
    processing of the frame is the envelope processing of that remainder;
    when no line begins with the prefix, the frame yields no payload. *)
Theorem frame_payload_is_first_data_line (lines : list str) :
  Forall is_line lines ->
  (forall before rest after,
      lines = before ++ (data_prefix ++ rest) :: after ->
      Forall no_data_prefix before ->
      event_data_of (join_nl lines) = Some rest
      /\ payload_of (join_nl lines) = (if truthy rest then Some rest else None)
      /\ (rest <> [] ->
          payload_of (join_nl lines) = Some rest
          /\ forall sink str_to_float str_to_int t,
              process_message sink str_to_float str_to_int (join_nl lines) t
              = handle_payload sink str_to_float str_to_int rest t))
  /\ (Forall no_data_prefix lines ->
      event_data_of (join_nl lines) = None
      /\ payload_of (join_nl lines) = None).
Proof.
  intros Hl. split.
  - intros before rest after -> Hb.
    assert (E : event_data_of
                  (join_nl (before ++ (data_prefix ++ rest) :: after))
                = Some rest)
      by (apply event_data_of_first_data_line; assumption).
    split; [exact E|]. split.
    + unfold payload_of. rewrite E. reflexivity.
    + intros Hr. destruct rest as [|c rest]; [congruence|]. split.
      * unfold payload_of. rewrite E. reflexivity.
      * intros sink sf si t. unfold process_message.
        unfold event_data_of in E.
        destruct (truthy (strip _)); [|discriminate E].
        cbv zeta. rewrite E. reflexivity.
  - intros Hn. apply event_data_of_no_data_line; assumption.
Qed.

Lemma frame_payload_is_first_data_line_witness :
  event_data_of (lit "event: sensor$data: first$data: second")
  = Some (lit "first")
  /\ payload_of (lit "event: sensor$data: first$data: second")
     = Some (lit "first")
  /\ process_message (fun _ _ => true) (fun _ => None) (fun _ => None)
                     (lit "event: sensor$data: first$data: second") []
     = handle_payload (fun _ _ => true) (fun _ => None) (fun _ => None)
                      (lit "first") []
  /\ event_data_of (lit ": keep-alive$id: 7") = None
  /\ payload_of (lit ": keep-alive$id: 7") = None.
Proof.
  assert (L : forall l : str,
             forallb (fun c => negb (N.eqb c LF)) l = true -> is_line l).
  { intros l H Hin. rewrite forallb_forall in H. specialize (H _ Hin).
    rewrite N.eqb_refl in H. discriminate H. }
  destruct (frame_payload_is_first_data_line
              [lit "event: sensor"; lit "data: first"; lit "data: second"])
    as [H _].
  { repeat constructor; apply L; reflexivity. }
  destruct (H [lit "event: sensor"] (lit "first") [lit "data: second"]
              eq_refl) as (E & _ & Hp).
  { repeat constructor. }
  destruct Hp as [Hp Hm]; [discriminate|].
  destruct (frame_payload_is_first_data_line
              [lit ": keep-alive"; lit "id: 7"]) as [_ Hnone].
  { repeat constructor; apply L; reflexivity. }
  destruct Hnone as [En Pn].
  { repeat constructor. }
  split; [exact E|]. split; [exact Hp|]. split; [apply Hm|].
  split; [exact En|exact Pn].
Defined.

(** ** Reasoning about computations *)

Section Logic.

Context {A B : Type}.
Variables (P : effect -> Prop) (S : exn -> Prop).

Lemma appends_ret (a : A) : appends P S (ret a).
Proof.
  intros t. exists []. cbn. rewrite app_nil_r.
  repeat split; [constructor|discriminate].
Qed.

Lemma appends_lift (r : result A) :
  (forall e, r = Raise e -> S e) -> appends P S (lift r).
Proof.
  intros H t. exists []. cbn. rewrite app_nil_r.
  repeat split; [constructor|exact H].
Qed.

Lemma appends_bind (m : M A) (k : A -> M B) :
  appends P S m -> (forall a, appends P S (k a)) ->
  appends P S (bind m k).
Proof.
  intros Hm Hk t. unfold bind. destruct (Hm t) as (n1 & E1 & F1 & R1).
  destruct (m t) as [[a|e] t1]; cbn [fst snd] in *; subst t1.
  - destruct (Hk a (t ++ n1)) as (n2 & E2 & F2 & R2).
    exists (n1 ++ n2). rewrite E2, app_assoc.
    repeat split; [apply Forall_app; split; assumption|exact R2].
  - exists n1. repeat split; [assumption|].
    intros e' [= <-]. apply R1. reflexivity.
Qed.

Lemma appends_bind_lift (r : result A) (k : A -> M B) :
  (forall e, r = Raise e -> S e) ->
  (forall a, r = Ok a -> appends P S (k a)) ->
  appends P S (bind (lift r) k).
Proof.
  intros Hr Hk t. unfold bind, lift. destruct r as [a|e].
  - apply Hk. reflexivity.
  - exists []. cbn. rewrite app_nil_r.
    repeat split; [constructor|]. intros e' [= <-]. apply Hr. reflexivity.
Qed.

Lemma appends_try (S0 : exn -> Prop) (body : M A)
      (handler : exn -> option (M A)) :
  appends P S0 body ->
  (forall e, S0 e -> match handler e with
                     | Some h => appends P S h
                     | None => S e
                     end) ->
  appends P S (try_except body handler).
Proof.
  intros Hb Hh t. unfold try_except.
  destruct (Hb t) as (n1 & E1 & F1 & R1).
  destruct (body t) as [[a|e] t1]; cbn [fst snd] in *; subst t1.
  - exists n1. repeat split; [assumption|discriminate].
  - specialize (Hh e (R1 e eq_refl)). destruct (handler e) as [h|].
    + destruct (Hh (t ++ n1)) as (n2 & E2 & F2 & R2).
      exists (n1 ++ n2). rewrite E2, app_assoc.
      repeat split; [apply Forall_app; split; assumption|exact R2].
    + exists n1. repeat split; [assumption|].
      intros e' [= <-]. exact Hh.
Qed.

Lemma appends_weaken (P' : effect -> Prop) (S' : exn -> Prop) (m : M A) :
  appends P' S' m -> (forall x, P' x -> P x) -> (forall e, S' e -> S e) ->
  appends P S m.
Proof.
  intros Hm HP HS t. destruct (Hm t) as (n & E & F & R).
  exists n. repeat split; [exact E| |].
  - eapply Forall_impl; [exact HP|exact F].
  - intros e He. apply HS, R, He.
Qed.

End Logic.

Section EffectFacts.

Variables (P : effect -> Prop) (S : exn -> Prop).

(** A line is printed, or the encoder raises. *)
Lemma appends_print (l : log) :
  P (Print l) -> S UnicodeEncodeError -> appends P S (print l).
Proof.
  intros H HS t. unfold print. destruct (printable l).
  - exists [Print l]. cbn.
    repeat split; [repeat constructor; exact H|discriminate].
  - exists []. cbn. rewrite app_nil_r.
    repeat split; [constructor|]. intros e [= <-]. exact HS.
Qed.

(** A line without a value of the event is always printed. *)
Lemma appends_print_plain (l : log) :
  printable l = true -> P (Print l) -> appends P S (print l).
Proof.
  intros Hl H t. unfold print. rewrite Hl. exists [Print l]. cbn.
  repeat split; [repeat constructor; exact H|discriminate].
Qed.

Lemma appends_write (sink : trace -> point -> bool) (p : point) :
  (forall ok, P (SinkWrite p ok)) -> S SinkError ->
  appends P S (write sink p).
Proof.
  intros H HS t. unfold write. destruct (sink t p); cbn.
  - exists [SinkWrite p true].
    repeat split; [repeat constructor; apply H|discriminate].
  - exists [SinkWrite p false].
    repeat split; [repeat constructor; apply H|].
    intros e [= <-]. exact HS.
Qed.

End EffectFacts.

(** ** The exceptions of the built-in operations *)

Section BuiltinFacts.

Variable str_to_float : str -> option spec_float.
Variable str_to_int : str -> option Z.

Lemma py_getitem_raises (v : json) (k : str) (e : exn) :
  py_getitem v k = Raise e -> plain e.
Proof.
  unfold py_getitem, plain.
  destruct v; try (intros [= <-]; split; [discriminate|reflexivity]).
  destruct (dict_get d k); intros [= <-]; split;
    [discriminate|reflexivity].
Qed.

Lemma py_contains_raises (k : str) (v : json) (e : exn) :
  py_contains k v = Raise e -> e = TypeError.
Proof. destruct v; cbn; congruence. Qed.

Lemma py_slice100_raises (v : json) (e : exn) :
  py_slice100 v = Raise e -> e = TypeError.
Proof. destruct v; cbn; congruence. Qed.

Lemma py_json_loads_raises (v : json) (e : exn) :
  py_json_loads v = Raise e -> e = JSONDecodeError \/ e = TypeError.
Proof.
  destruct v; cbn; try (intros [= <-]; auto).
  destruct (json_loads s); intros [= <-]; auto.
Qed.

(** Only a string can be decoded. *)
Lemma py_json_loads_ok (v x : json) :
  py_json_loads v = Ok x -> exists s, v = JStr s /\ json_loads s = Some x.
Proof.
  destruct v; cbn; try discriminate.
  destruct (json_loads s) eqn:E; intros [= <-]. eauto.
Qed.

Lemma float_of_int_raises (z : Z) (e : exn) :
  float_of_int z = Raise e -> plain e.
Proof.
  unfold float_of_int, plain.
  destruct (binary_normalize prec emax z 0 false);
    intros [= <-]; split; [discriminate|reflexivity].
Qed.

Lemma py_float_raises (v : json) (e : exn) :
  py_float str_to_float v = Raise e -> plain e.
Proof.
  destruct v; cbn; try discriminate;
    try (intros [= <-]; split; [discriminate|reflexivity]).
  - apply float_of_int_raises.
  - destruct (str_to_float s); intros [= <-]; split;
      [discriminate|reflexivity].
Qed.

Lemma py_int_raises (v : json) (e : exn) :
  py_int str_to_int v = Raise e -> plain e.
Proof.
  destruct v; cbn; try discriminate;
    try (intros [= <-]; split; [discriminate|reflexivity]).
  - destruct f; cbn; try discriminate; intros [= <-]; split; (discriminate || reflexivity).
  - destruct (str_to_int s); intros [= <-]; split;
      [discriminate|reflexivity].
Qed.

End BuiltinFacts.

(** ** The envelope processing *)

Ltac appends_step :=
  lazymatch goal with
  | |- appends _ _ (bind (lift _) _) =>
      apply appends_bind_lift; [intros ? ?|intros ? ?]
  | |- appends _ _ (bind _ _) => apply appends_bind; [|intros ?]
  | |- appends _ _ (print _) => apply appends_print
  | |- appends _ _ (ret _) => apply appends_ret
  | |- appends _ _ (write _ _) => apply appends_write
  end.

Ltac plain_exn :=
  lazymatch goal with
  | H : py_getitem _ _ = Raise ?e |- _ => apply (py_getitem_raises _ _ _ H)
  | H : py_int _ _ = Raise ?e |- _ => apply (py_int_raises _ _ _ H)
  | H : py_float _ _ = Raise ?e |- _ => apply (py_float_raises _ _ _ H)
  end.

Section ProgramFacts.

Variable sink : trace -> point -> bool.
Variable str_to_float : str -> option spec_float.
Variable str_to_int : str -> option Z.

Local Abbreviation process_event := (process_event sink str_to_float str_to_int).
Local Abbreviation handle_payload :=
  (handle_payload sink str_to_float str_to_int).
Local Abbreviation process_message :=
  (process_message sink str_to_float str_to_int).
Local Abbreviation for_messages := (for_messages sink str_to_float str_to_int).
Local Abbreviation for_payloads := (for_payloads sink str_to_float str_to_int).
Local Abbreviation stream_loop := (stream_loop sink str_to_float str_to_int).

Section Appends.

(** A class of effects that holds every call of the sink and every
    printed line, except possibly the two lines named. *)
Variable P : effect -> Prop.
Hypothesis P_write : forall p ok, P (SinkWrite p ok).
Hypothesis P_print :
  forall l, l <> LogConnected -> l <> LogJSONDecodeError -> P (Print l).

Ltac printed :=
  first
    [ apply appends_print_plain; [reflexivity|apply P_print; discriminate]
    | apply appends_print;
      [apply P_print; discriminate
      |first [reflexivity|split; [discriminate|reflexivity]]] ].

(** When its argument decodes, [process_event] does not reach its
    handler of decode errors, and it raises nothing. *)
Lemma process_event_decoded (event_data data : json) :
  py_json_loads event_data = Ok data ->
  appends P (fun _ => False) (process_event event_data).
Proof.
  intros Hd. unfold Bridge.process_event.
  apply appends_try with (S0 := plain).
  - rewrite Hd.
    apply appends_bind_lift; [discriminate|intros ? [= <-]].
    repeat (appends_step;
            try plain_exn;
            try (apply P_print; discriminate);
            try apply P_write;
            try (split; [discriminate|reflexivity])).
  - intros e [He1 He2]. destruct e; try congruence; cbn;
      try printed.
    discriminate He2.
Qed.

(** The processing of a payload adds only such effects, and what it
    raises is an exception of a built-in operation. *)
Lemma handle_payload_appends (event_data : str) :
  appends P plain (handle_payload event_data).
Proof.
  unfold Bridge.handle_payload.
  apply appends_try with (S0 := fun e => is_Exception e = true).
  - apply appends_bind_lift;
      [intros e He; apply py_json_loads_raises in He as [->| ->];
       reflexivity|intros wrapper Hw].
    apply appends_bind_lift;
      [intros e He; apply py_contains_raises in He as ->;
       reflexivity|intros has_data Hhas].
    destruct has_data;
      [|printed].
    apply appends_bind_lift;
      [intros e He; apply (py_getitem_raises _ _ _ He)|intros d Hd].
    apply appends_bind_lift;
      [intros e He; apply py_slice100_raises in He as ->;
       reflexivity|intros shown Hshown].
    apply appends_bind; [printed|].
    intros _.
    apply appends_try with (S0 := fun e => is_Exception e = true).
    + apply appends_bind_lift;
        [intros e He; apply (py_getitem_raises _ _ _ He)|intros d1 Hd1].
      apply appends_bind_lift;
        [intros e He; apply py_json_loads_raises in He as [->| ->];
         reflexivity|intros sensor_data Hs].
      apply appends_bind_lift;
        [intros e He; apply py_contains_raises in He as ->;
         reflexivity|intros has_m Hm].
      apply appends_bind.
      { destruct has_m; [|apply appends_ret].
        apply appends_lift. intros e He.
        apply py_contains_raises in He as ->. reflexivity. }
      intros [|]; [|printed].
      apply appends_bind; [printed|].
      intros _.
      apply appends_bind_lift;
        [intros e He; apply (py_getitem_raises _ _ _ He)|intros d3 Hd3].
      assert (d3 = d1) by congruence. subst d3.
      eapply appends_weaken;
        [exact (process_event_decoded _ _ Hs)|auto|contradiction].
    + intros e He. destruct e; cbn; try exact He;
        (apply appends_bind_lift;
         [intros e' He'; apply (py_getitem_raises _ _ _ He')
         |intros d1 Hd1; printed]).
  - intros e He. destruct e; cbn;
      try (split; [discriminate|exact He]).
    printed.
Qed.

End Appends.

(** *** The loops over messages and chunks *)

Lemma process_message_payload (message : str) :
  process_message message =
  match payload_of message with
  | Some event_data => handle_payload event_data
  | None => ret tt
  end.
Proof.
  unfold Bridge.process_message, payload_of, event_data_of.
  destruct (truthy (strip message)); [|reflexivity].
  destruct (first_data_line (split_nl message)) as [d|]; [|reflexivity].
  destruct (truthy d); reflexivity.
Qed.

Lemma bind_ret_l (m : M unit) (t : trace) :
  bind (ret tt) (fun _ => m) t = m t.
Proof. reflexivity. Qed.

Lemma bind_assoc (X Y Z : Type) (m : M X) (k : X -> M Y) (h : Y -> M Z)
      (t : trace) :
  bind (bind m k) h t = bind m (fun x => bind (k x) h) t.
Proof.
  unfold bind. destruct (m t) as [[x|e] t1]; reflexivity.
Qed.

Lemma bind_ext (X Y : Type) (m : M X) (k k' : X -> M Y) (t : trace) :
  (forall x t', k x t' = k' x t') -> bind m k t = bind m k' t.
Proof.
  intros H. unfold bind. destruct (m t) as [[x|e] t1]; [apply H|reflexivity].
Qed.

Lemma for_messages_app (X : Type) (ms1 ms2 : list str) (k : M X)
      (t : trace) :
  bind (for_messages (ms1 ++ ms2)) (fun _ => k) t =
  bind (for_messages ms1) (fun _ => bind (for_messages ms2) (fun _ => k)) t.
Proof.
  revert t. induction ms1 as [|m ms1 IH]; intros t; [reflexivity|].
  cbn [app Bridge.for_messages]. rewrite !bind_assoc.
  apply bind_ext. intros _ t'. apply IH.
Qed.

(** The loop over the messages handles their payloads in order. *)
Lemma for_messages_payloads (X : Type) (ms : list str) (k : M X)
      (t : trace) :
  bind (for_messages ms) (fun _ => k) t =
  bind (for_payloads (payloads ms)) (fun _ => k) t.
Proof.
  revert t. induction ms as [|m ms IH]; intros t; [reflexivity|].
  cbn [Bridge.for_messages payloads flat_map].
  fold (payloads ms). rewrite bind_assoc, process_message_payload.
  destruct (payload_of m) as [p|].
  - cbn [app Bridge.for_payloads]. rewrite bind_assoc.
    apply bind_ext. intros _ t'. apply IH.
  - cbn [app]. unfold bind at 1, ret. apply IH.
Qed.

(** The loop over the chunks handles the complete messages in order and
    leaves the buffer of the decoder. *)
Lemma stream_loop_messages (chunks : list str) :
  forall buffer t,
    stream_loop chunks buffer t =
    bind (for_messages (messages_of buffer chunks))
         (fun _ => ret (buffer_after buffer chunks)) t.
Proof.
  induction chunks as [|chunk rest IH]; intros buffer t; [reflexivity|].
  cbn [Bridge.stream_loop messages_of buffer_after]. unfold feed.
  destruct (truthy chunk); [|cbn [fst snd app]; apply IH].
  destruct (contains_nn (buffer ++ chunk)); [|cbn [fst snd app]; apply IH].
  cbn [fst snd]. rewrite for_messages_app.
  apply bind_ext. intros _ t'. apply IH.
Qed.

(** So the loop depends on the chunks only through the payloads decoded
    from them and the buffer left. *)
Lemma stream_loop_decode (chunks : list str) (t : trace) :
  stream_loop chunks [] t =
  bind (for_payloads (decode chunks))
       (fun _ => ret (buffer_after [] chunks)) t.
Proof.
  rewrite stream_loop_messages. apply for_messages_payloads.
Qed.

Lemma for_payloads_appends (P : effect -> Prop) (ps : list str) :
  (forall p ok, P (SinkWrite p ok)) ->
  (forall l, l <> LogConnected -> l <> LogJSONDecodeError -> P (Print l)) ->
  appends P plain (for_payloads ps).
Proof.
  intros Hw Hp. induction ps as [|p ps IH]; cbn [Bridge.for_payloads].
  - apply appends_ret.
  - apply appends_bind; [|intros _; exact IH].
    apply handle_payload_appends; assumption.
Qed.

Lemma stream_loop_appends (P : effect -> Prop) (chunks : list str) :
  (forall p ok, P (SinkWrite p ok)) ->
  (forall l, l <> LogConnected -> l <> LogJSONDecodeError -> P (Print l)) ->
  appends P plain (stream_loop chunks []).
Proof.
  intros Hw Hp t. 
  destruct (for_payloads_appends P (decode chunks) Hw Hp t)
    as (new & E & F & R).
  exists new. rewrite stream_loop_decode. unfold bind, ret.
  destruct (for_payloads (decode chunks) t) as [[[]|e] t1];
    cbn [fst snd] in *.
  - split; [exact E|split; [exact F|discriminate]].
  - split; [exact E|split; [exact F|]].
    intros e' [= <-]. apply R. reflexivity.
Qed.

(** One iteration of the supervisor depends on the chunks only through
    their complete messages. *)
Lemma iteration_messages (chunks1 chunks2 : list str) (e : ending)
      (retry_delay : Z) (t : trace) :
  messages_of [] chunks1 = messages_of [] chunks2 ->
  iteration sink str_to_float str_to_int (Connects chunks1 e) retry_delay t =
  iteration sink str_to_float str_to_int (Connects chunks2 e) retry_delay t.
Proof.
  intros H. unfold iteration. rewrite !stream_loop_messages, H.
  unfold bind, ret.
  destruct (for_messages (messages_of [] chunks2) _) as [[[]|x] t1];
    reflexivity.
Qed.

(** *** The supervisor *)

Local Abbreviation iteration := (iteration sink str_to_float str_to_int).
Local Abbreviation main_loop := (main_loop sink str_to_float str_to_int).

(** One iteration: either the connection is not established and nothing
    but the two opening lines is printed, or it is, [retry_delay] is 5
    again, and the rest is the effects of the stream loop. *)
Lemma iteration_shape (P : effect -> Prop) (a : attempt) (retry_delay : Z)
      (t : trace) :
  (forall p ok, P (SinkWrite p ok)) ->
  (forall l, l <> LogConnected -> l <> LogJSONDecodeError -> P (Print l)) ->
  (exists e,
      iteration a retry_delay t =
      (Raise e, retry_delay, t ++ [Print LogConnecting; Print LogUrl]))
  \/ (exists r inner,
         iteration a retry_delay t =
         (r, 5%Z, t ++ [Print LogConnecting; Print LogUrl;
                        Print LogConnected] ++ inner)
         /\ Forall P inner).
Proof.
  intros Hw Hp. destruct a as [| |chunks e]; cbn [Bridge.iteration].
  - left. eexists. reflexivity.
  - left. eexists. reflexivity.
  - right.
    destruct (stream_loop_appends P chunks Hw Hp
                ((t ++ [Print LogConnecting; Print LogUrl])
                   ++ [Print LogConnected])) as (inner & E & F & _).
    destruct (stream_loop chunks [] _) as [[b|x] t1]; cbn [snd] in E;
      subst t1; rewrite <- !app_assoc; cbn [app].
    + destruct e; eexists; exists inner; (split; [reflexivity|exact F]).
    + eexists; exists inner; (split; [reflexivity|exact F]).
Qed.

Lemma backoff_events_app (t1 t2 : trace) :
  backoff_events (t1 ++ t2) = backoff_events t1 ++ backoff_events t2.
Proof. apply flat_map_app. Qed.

Lemma backoff_events_quiet (t : trace) :
  Forall (fun x => backoff_events [x] = []) t -> backoff_events t = [].
Proof.
  induction 1 as [|x t Hx _ IH]; [reflexivity|].
  change (x :: t) with ([x] ++ t). rewrite backoff_events_app, Hx, IH.
  reflexivity.
Qed.

(** Every wait of the supervisor is the one the backoff rule expects. *)
Lemma main_loop_backoff (attempts : list attempt) :
  forall retry_delay t,
  exists new,
    snd (main_loop attempts retry_delay t) = t ++ new
    /\ follows_backoff retry_delay (backoff_events new).
Proof.
  induction attempts as [|a rest IH]; intros d t.
  - exists []. cbn. rewrite app_nil_r. auto.
  - cbn [Bridge.main_loop].
    destruct (iteration_shape (fun x => backoff_events [x] = []) a d t)
      as [(e & E)|(r & inner & E & F)].
    + reflexivity.
    + intros l H1 H2. destruct l; try reflexivity. congruence.
    + rewrite E. destruct (is_Exception e).
      * destruct (IH (Z.min (d * 2) max_retry_delay)
                     ((t ++ [Print LogConnecting; Print LogUrl])
                        ++ [Print (LogConnectionError e);
                            Print (LogRetrying d); Sleep d]))
          as (new & En & Fn).
        eexists. rewrite En, <- !app_assoc. split; [reflexivity|].
        cbn. split; [reflexivity|exact Fn].
      * eexists. cbn [snd]. rewrite <- !app_assoc.
        split; [reflexivity|]. cbn. exact I.
    + rewrite E.
      assert (Q : backoff_events
                    ([Print LogConnecting; Print LogUrl;
                      Print LogConnected] ++ inner) = [None]).
      { rewrite backoff_events_app, (backoff_events_quiet inner F).
        reflexivity. }
      destruct r as [[]|e].
      * destruct (IH 5%Z (t ++ [Print LogConnecting; Print LogUrl;
                                Print LogConnected] ++ inner))
          as (new & En & Fn).
        exists (([Print LogConnecting; Print LogUrl;
                  Print LogConnected] ++ inner) ++ new).
        rewrite En, <- !app_assoc. split; [reflexivity|].
        rewrite app_assoc, backoff_events_app, Q. exact Fn.
      * destruct (is_Exception e).
        -- destruct (IH (Z.min (5 * 2) max_retry_delay)
                       ((t ++ [Print LogConnecting; Print LogUrl;
                               Print LogConnected] ++ inner)
                          ++ [Print (LogConnectionError e);
                              Print (LogRetrying 5); Sleep 5]))
             as (new & En & Fn).
           exists (([Print LogConnecting; Print LogUrl;
                     Print LogConnected] ++ inner)
                     ++ [Print (LogConnectionError e);
                         Print (LogRetrying 5); Sleep 5] ++ new).
           rewrite En, <- !app_assoc. split; [reflexivity|].
           rewrite app_assoc, backoff_events_app, Q.
           cbn. split; [reflexivity|exact Fn].
        -- exists (([Print LogConnecting; Print LogUrl;
                     Print LogConnected] ++ inner) ++ [Print LogShutdown]).
           cbn [snd]. rewrite <- !app_assoc. split; [reflexivity|].
           rewrite app_assoc, backoff_events_app, Q. cbn. exact I.
Qed.

(** The supervisor never prints the decode-error line of
    [process_event]. *)
Lemma main_loop_no_decode_error (attempts : list attempt) :
  forall retry_delay t,
  exists new,
    snd (main_loop attempts retry_delay t) = t ++ new
    /\ Forall (fun x => x <> Print LogJSONDecodeError) new.
Proof.
  induction attempts as [|a rest IH]; intros d t.
  - exists []. cbn. rewrite app_nil_r. auto.
  - cbn [Bridge.main_loop].
    destruct (iteration_shape (fun x => x <> Print LogJSONDecodeError)
                              a d t)
      as [(e & E)|(r & inner & E & F)].
    + discriminate.
    + intros l H1 H2. congruence.
    + rewrite E. destruct (is_Exception e).
      * destruct (IH (Z.min (d * 2) max_retry_delay)
                     ((t ++ [Print LogConnecting; Print LogUrl])
                        ++ [Print (LogConnectionError e);
                            Print (LogRetrying d); Sleep d]))
          as (new & En & Fn).
        eexists. rewrite En, <- !app_assoc. split; [reflexivity|].
        repeat (apply Forall_cons; [discriminate|]). exact Fn.
      * eexists. cbn [snd]. rewrite <- !app_assoc.
        split; [reflexivity|].
        repeat (apply Forall_cons; [discriminate|]). constructor.
    + rewrite E.
      assert (Q : Forall (fun x => x <> Print LogJSONDecodeError)
                    ([Print LogConnecting; Print LogUrl;
                      Print LogConnected] ++ inner)).
      { repeat (apply Forall_cons; [discriminate|]). exact F. }
      destruct r as [[]|e].
      * destruct (IH 5%Z (t ++ [Print LogConnecting; Print LogUrl;
                                Print LogConnected] ++ inner))
          as (new & En & Fn).
        exists (([Print LogConnecting; Print LogUrl;
                  Print LogConnected] ++ inner) ++ new).
        split; [rewrite En, <- !app_assoc; reflexivity|].
        apply Forall_app. split; assumption.
      * destruct (is_Exception e).
        -- destruct (IH (Z.min (5 * 2) max_retry_delay)
                       ((t ++ [Print LogConnecting; Print LogUrl;
                               Print LogConnected] ++ inner)
                          ++ [Print (LogConnectionError e);
                              Print (LogRetrying 5); Sleep 5]))
             as (new & En & Fn).
           exists (([Print LogConnecting; Print LogUrl;
                     Print LogConnected] ++ inner)
                     ++ [Print (LogConnectionError e);
                         Print (LogRetrying 5); Sleep 5] ++ new).
           split; [rewrite En, <- !app_assoc; reflexivity|].
           apply Forall_app. split; [exact Q|].
           repeat (apply Forall_cons; [discriminate|]). exact Fn.
        -- exists (([Print LogConnecting; Print LogUrl;
                     Print LogConnected] ++ inner) ++ [Print LogShutdown]).
           split; [cbn [snd]; rewrite <- !app_assoc; reflexivity|].
           apply Forall_app. split; [exact Q|].
           repeat constructor. discriminate.
Qed.

End ProgramFacts.

(** C2. Chunk-size invariance of the frame decoder: two ways of cutting the
    same character sequence into chunks of at least one character yield the
    same payloads in the same order; the loop over the chunks then does the
    same with either. *)
Theorem decode_chunk_size_invariant (chunks1 chunks2 : list str) :
  Forall (fun chunk => chunk <> []) chunks1 ->
  Forall (fun chunk => chunk <> []) chunks2 ->
  concat chunks1 = concat chunks2 ->
  decode chunks1 = decode chunks2
  /\ forall sink str_to_float str_to_int t,
      stream_loop sink str_to_float str_to_int chunks1 [] t =
      stream_loop sink str_to_float str_to_int chunks2 [] t.
Proof.
  intros _ _ E.
  assert (D : decode chunks1 = decode chunks2).
  { unfold decode. rewrite !messages_of_concat, E. reflexivity. }
  split; [exact D|]. intros sink sf si t.
  rewrite !stream_loop_decode, D, !buffer_after_concat, E. reflexivity.
Qed.

Lemma decode_chunk_size_invariant_witness :
  decode [lit "da"; lit "ta: x$"; lit "$data"; lit ": y$$d"]
  = decode (map (fun c => [c]) (lit "data: x$$data: y$$d"))
  /\ decode [lit "da"; lit "ta: x$"; lit "$data"; lit ": y$$d"]
     = [lit "x"; lit "y"].
Proof.
  split; [|reflexivity].
  refine (proj1 (decode_chunk_size_invariant
                   [lit "da"; lit "ta: x$"; lit "$data"; lit ": y$$d"]
                   (map (fun c => [c]) (lit "data: x$$data: y$$d")) _ _ _)).
  - repeat constructor; discriminate.
  - cbn. repeat constructor; discriminate.
  - reflexivity.
Defined.

(** ** The backoff of the supervisor *)

Lemma follows_backoff_steps (l : list (option Z)) :
  forall expected,
    (5 <= expected <= 60)%Z -> follows_backoff expected l ->
    (forall l1 a b l2, l = l1 ++ Some a :: Some b :: l2 ->
                       (a <= b)%Z /\ b = Z.min (a * 2) 60)
    /\ (forall l1 a l2, l = l1 ++ None :: Some a :: l2 -> a = 5%Z).
Proof.
  induction l as [|x l IH]; intros expected Hb Hf.
  - split; intros [|? ?]; intros; discriminate.
  - destruct x as [d|]; cbn [follows_backoff] in Hf.
    + destruct Hf as [-> Hf].
      destruct (IH (Z.min (expected * 2) 60) ltac:(lia) Hf) as [IH1 IH2].
      split.
      * intros [|y l1] a b l2 E; cbn [app] in E.
        -- injection E as -> ->. cbn [follows_backoff] in Hf.
           destruct Hf as [-> _]. split; lia.
        -- injection E as _ ->. eapply IH1. reflexivity.
      * intros [|y l1] a l2 E; cbn [app] in E; [discriminate|].
        injection E as _ ->. eapply IH2. reflexivity.
    + destruct (IH 5%Z ltac:(lia) Hf) as [IH1 IH2]. split.
      * intros [|y l1] a b l2 E; cbn [app] in E; [discriminate|].
        injection E as _ ->. eapply IH1. reflexivity.
      * intros [|y l1] a l2 E; cbn [app] in E.
        -- injection E as ->. cbn [follows_backoff] in Hf.
           destruct Hf as [-> _]. reflexivity.
        -- injection E as _ ->. eapply IH2. reflexivity.
Qed.

(** C3. In every run of the supervisor loop, whatever the sink and the
    connection attempts do: each wait is the one the backoff rule gives,
    5 at the start and after a successful connection, and [min (d * 2) 60]
    after a wait of [d]; hence two waits in a row, with no successful
    connection between them, do not decrease, and the first wait after a
    successful connection is 5. Three failed attempts from the start wait
    5, 10 and 20 before the fourth attempt, which finds [retry_delay] at
    40. *)
Theorem backoff_waits (sink : trace -> point -> bool)
        (str_to_float : str -> option spec_float)
        (str_to_int : str -> option Z) (attempts : list attempt) :
  let run := main sink str_to_float str_to_int in
  let events := backoff_events (snd (run attempts)) in
  follows_backoff 5 events
  /\ (forall l1 a b l2, events = l1 ++ Some a :: Some b :: l2 ->
                        (a <= b)%Z /\ b = Z.min (a * 2) 60)
  /\ (forall l1 a l2, events = l1 ++ None :: Some a :: l2 -> a = 5%Z)
  /\ run [ConnectFails; ConnectFails; ConnectFails]
     = (Running 40,
        [Print LogConnecting; Print LogUrl;
         Print (LogConnectionError RequestError); Print (LogRetrying 5);
         Sleep 5;
         Print LogConnecting; Print LogUrl;
         Print (LogConnectionError RequestError); Print (LogRetrying 10);
         Sleep 10;
         Print LogConnecting; Print LogUrl;
         Print (LogConnectionError RequestError); Print (LogRetrying 20);
         Sleep 20])
  /\ sleeps (snd (run [ConnectFails; ConnectFails; ConnectFails]))
     = [5; 10; 20]%Z
  /\ (forall rest, exists later,
         snd (run (ConnectFails :: ConnectFails :: ConnectFails :: rest))
         = snd (run [ConnectFails; ConnectFails; ConnectFails]) ++ later).
Proof.
  intros run events.
  destruct (main_loop_backoff sink str_to_float str_to_int attempts 5 [])
    as (new & E & F).
  assert (Hf : follows_backoff 5 events).
  { unfold events, run, main. rewrite E. exact F. }
  destruct (follows_backoff_steps events 5 ltac:(lia) Hf) as [H1 H2].
  repeat split; try reflexivity; try assumption.
  - eapply H1; eassumption.
  - eapply H1; eassumption.
  - intros rest. unfold run, main. cbn.
    destruct (main_loop_backoff sink str_to_float str_to_int rest 40
                [Print LogConnecting; Print LogUrl;
                 Print (LogConnectionError RequestError);
                 Print (LogRetrying 5); Sleep 5;
                 Print LogConnecting; Print LogUrl;
                 Print (LogConnectionError RequestError);
                 Print (LogRetrying 10); Sleep 10;
                 Print LogConnecting; Print LogUrl;
                 Print (LogConnectionError RequestError);
                 Print (LogRetrying 20); Sleep 20]) as (later & El & _).
    exists later. exact El.
Qed.

Lemma backoff_waits_witness :
  backoff_events
    (snd (main (fun _ _ => true) (fun _ => None) (fun _ => None)
               [ConnectFails; ConnectFails;
                Connects [lit "data: x$$"] ReadError; ConnectFails]))
  = [Some 5%Z; Some 10%Z; None; Some 5%Z; Some 10%Z]
  /\ (5 <= 10)%Z /\ 10%Z = Z.min (5 * 2) 60.
Proof.
  split; [reflexivity|].
  refine (proj1 (proj2 (backoff_waits
                          (fun _ _ => true) (fun _ => None) (fun _ => None)
                          [ConnectFails; ConnectFails;
                           Connects [lit "data: x$$"] ReadError;
                           ConnectFails]))
                [] 5%Z 10%Z [None; Some 5%Z; Some 10%Z] _).
  reflexivity.
Defined.

(** ** Runs of the envelope processing *)

Ltac exn_cases :=
  lazymatch goal with
  | H : py_getitem _ _ = Raise ?e |- _ =>
      destruct (py_getitem_raises _ _ _ H) as [? ?]
  | H : py_int _ _ = Raise ?e |- _ =>
      destruct (py_int_raises _ _ _ H) as [? ?]
  | H : py_float _ _ = Raise ?e |- _ =>
      destruct (py_float_raises _ _ _ H) as [? ?]
  | H : py_json_loads _ = Raise ?e |- _ =>
      destruct (py_json_loads_raises _ _ H) as [?|?]; subst e
  | H : py_contains _ _ = Raise ?e |- _ =>
      pose proof (py_contains_raises _ _ _ H); subst e
  | H : py_slice100 _ = Raise ?e |- _ =>
      pose proof (py_slice100_raises _ _ H); subst e
  end.

Ltac normalise_trace := repeat (rewrite <- app_assoc; cbn [app]).

(** *** The equations of one step *)

Section RunEquations.

Context {A B : Type}.

Lemma run_bind_lift (r : result A) (k : A -> M B) (t : trace) :
  bind (lift r) k t =
  match r with
  | Ok a => k a t
  | Raise e => (Raise e, t)
  end.
Proof. unfold bind, lift. destruct r; reflexivity. Qed.

Lemma run_bind_ret (a : A) (k : A -> M B) (t : trace) :
  bind (ret a) k t = k a t.
Proof. reflexivity. Qed.

Lemma run_print (l : log) (t : trace) :
  print l t =
  if printable l then (Ok tt, t ++ [Print l])
  else (Raise UnicodeEncodeError, t).
Proof. unfold print. destruct (printable l); reflexivity. Qed.

Lemma run_bind_print (l : log) (k : unit -> M B) (t : trace) :
  bind (print l) k t =
  if printable l then k tt (t ++ [Print l])
  else (Raise UnicodeEncodeError, t).
Proof. unfold bind. rewrite run_print. destruct (printable l); reflexivity. Qed.

Lemma run_bind_write (sink : trace -> point -> bool) (p : point)
      (k : unit -> M B) (t : trace) :
  bind (write sink p) k t =
  if sink t p then k tt (t ++ [SinkWrite p true])
  else (Raise SinkError, t ++ [SinkWrite p false]).
Proof. unfold bind, write. destruct (sink t p); reflexivity. Qed.

End RunEquations.

(** The end of a run of [process_event] in which an exception reached the
    handlers before the call of the sink. *)
Ltac not_written :=
  cbv beta iota;
  try exn_cases;
  try match goal with
      | e : exn |- _ => destruct e; try congruence; try discriminate
      end;
  cbn [is_Exception]; cbv beta iota;
  rewrite ?run_print; cbn [printable]; cbv beta iota;
  right; eexists;
  (split; [normalise_trace; reflexivity|]);
  (split; [reflexivity|first [left; reflexivity|right; eexists; reflexivity]]).

Section RunFacts.

Variable sink : trace -> point -> bool.
Variable str_to_float : str -> option spec_float.
Variable str_to_int : str -> option Z.

Local Abbreviation process_event := (process_event sink str_to_float str_to_int).
Local Abbreviation handle_payload :=
  (handle_payload sink str_to_float str_to_int).

(** The end of a run in which the sink was called. *)
Ltac written :=
  cbv beta iota; cbn [is_Exception]; cbv beta iota;
  rewrite ?run_print; cbn [printable]; cbv beta iota;
  left; do 12 eexists; repeat (split; [first [eassumption|reflexivity]|]);
  normalise_trace;
  repeat match goal with
         | H : _ = _ |- _ =>
             progress (rewrite <- app_assoc in H; cbn [app] in H)
         end;
  unfold closing_line;
  repeat match goal with
         | H : sink _ _ = _ |- _ => rewrite H
         | H : printable _ = _ |- _ => rewrite H
         end;
  reflexivity.

(** One step of a run of [process_event]. *)
Ltac process_event_step :=
  first
    [ rewrite run_bind_lift; cbv beta iota;
      try lazymatch goal with
          | |- context [match ?r with Ok _ => _ | Raise _ => _ end] =>
              destruct r eqn:?; [cbv beta iota|not_written]
          end
    | rewrite run_bind_print;
      lazymatch goal with
      | |- context [if printable ?l then _ else _] =>
          destruct (printable l) eqn:?;
          [cbv beta iota
          |first [match goal with
                  | H : printable _ = false |- _ =>
                      cbn in H; discriminate H
                  end
                 |not_written]]
      end ].


(** [process_event] returns. Either it calls the sink once, with the point
    built from a reading of which every part was found and converted,
    and then prints one more line; or it calls no sink and prints exactly
    one error line. *)
Lemma process_event_cases (event_data : json) (t : trace) :
  (exists data m tags fields ts seconds location device temperature
          temperature_f humidity humidity_f,
      py_json_loads event_data = Ok data
      /\ py_getitem data (lit "measurement") = Ok m
      /\ py_getitem data (lit "tags") = Ok tags
      /\ py_getitem data (lit "fields") = Ok fields
      /\ py_getitem data (lit "timestamp") = Ok ts
      /\ py_int str_to_int ts = Ok seconds
      /\ py_getitem tags (lit "location") = Ok location
      /\ py_getitem tags (lit "device") = Ok device
      /\ py_getitem fields (lit "temperature") = Ok temperature
      /\ py_float str_to_float temperature = Ok temperature_f
      /\ py_getitem fields (lit "humidity") = Ok humidity
      /\ py_float str_to_float humidity = Ok humidity_f
      /\ let p := {| measurement := m;
                     tag_location := location;
                     tag_device := device;
                     field_temperature := temperature_f;
                     field_humidity := humidity_f;
                     time := seconds * 1000000000 |} in
         let before := [Print LogProcessing; Print (LogMeasurement m);
                        Print (LogTags tags); Print (LogFields fields);
                        Print (LogTimestamp ts); Print LogWriting;
                        Print (LogPoint p)] in
         let ok := sink (t ++ before) p in
         process_event event_data t =
         (Ok tt,
          t ++ before
            ++ [SinkWrite p ok;
                Print (closing_line ok temperature humidity)]))
  \/ (exists new, process_event event_data t = (Ok tt, t ++ new)
                  /\ sink_writes new = []
                  /\ (error_logs new = [LogJSONDecodeError]
                      \/ exists e, error_logs new = [LogErrorProcessing e])).
Proof.
  unfold Bridge.process_event, try_except. cbv zeta.
  repeat process_event_step.
  rewrite run_bind_write.
  lazymatch goal with
  | |- context [if sink ?t1 ?p then _ else _] => destruct (sink t1 p) eqn:?
  end; [|written].
  cbv beta iota. rewrite run_print.
  lazymatch goal with
  | |- context [if printable ?l then _ else _] => destruct (printable l) eqn:?
  end; written.
Qed.

Lemma process_event_returns (event_data : json) (t : trace) :
  exists new, process_event event_data t = (Ok tt, t ++ new).
Proof.
  destruct (process_event_cases event_data t)
    as [(data & m & tags & fields & ts & seconds & location & device
         & temperature & temperature_f & humidity & humidity_f & _ & _ & _
         & _ & _ & _ & _ & _ & _ & _ & _ & _ & E)|(new & E & _)].
  - cbv zeta in E. rewrite E. eexists. reflexivity.
  - exists new. exact E.
Qed.

(** A value that can be indexed by a string is a dict, which can always
    be printed. *)
Lemma py_getitem_printable (v x : json) (k : str) :
  py_getitem v k = Ok x -> printable_value v = true.
Proof. destruct v; cbn; try discriminate. reflexivity. Qed.

(** A reading of which every part is found and converted, and of which
    the measurement, the timestamp and the two tags can be printed, is
    written. *)
Lemma process_event_accepts (event_data data m tags fields ts : json)
      (seconds : Z) (location device temperature humidity : json)
      (temperature_f humidity_f : spec_float) (t : trace) :
  py_json_loads event_data = Ok data ->
  py_getitem data (lit "measurement") = Ok m ->
  py_getitem data (lit "tags") = Ok tags ->
  py_getitem data (lit "fields") = Ok fields ->
  py_getitem data (lit "timestamp") = Ok ts ->
  py_int str_to_int ts = Ok seconds ->
  py_getitem tags (lit "location") = Ok location ->
  py_getitem tags (lit "device") = Ok device ->
  py_getitem fields (lit "temperature") = Ok temperature ->
  py_float str_to_float temperature = Ok temperature_f ->
  py_getitem fields (lit "humidity") = Ok humidity ->
  py_float str_to_float humidity = Ok humidity_f ->
  printable_value m = true ->
  printable_value ts = true ->
  printable_value location = true ->
  printable_value device = true ->
  let p := {| measurement := m;
              tag_location := location;
              tag_device := device;
              field_temperature := temperature_f;
              field_humidity := humidity_f;
              time := seconds * 1000000000 |} in
  let before := [Print LogProcessing; Print (LogMeasurement m);
                 Print (LogTags tags); Print (LogFields fields);
                 Print (LogTimestamp ts); Print LogWriting;
                 Print (LogPoint p)] in
  let ok := sink (t ++ before) p in
  process_event event_data t =
  (Ok tt,
   t ++ before
     ++ [SinkWrite p ok; Print (closing_line ok temperature humidity)]).
Proof.
  intros H1 H2 H3 H4 H5 H6 H7 H8 H9 H10 H11 H12 Pm Pts Pl Pd p before ok.
  pose proof (py_getitem_printable _ _ _ H7) as Ptags.
  pose proof (py_getitem_printable _ _ _ H9) as Pfields.
  unfold Bridge.process_event, try_except. cbv zeta.
  repeat (first [rewrite run_bind_lift|rewrite run_bind_print];
          rewrite ?H1, ?H2, ?H3, ?H4, ?H5, ?H6, ?H7, ?H8, ?H9, ?H10, ?H11,
            ?H12;
          cbn [printable measurement tag_location tag_device];
          rewrite ?Pm, ?Pts, ?Pl, ?Pd, ?Ptags, ?Pfields;
          cbn [andb]; cbv beta iota).
  rewrite run_bind_write, run_print. fold p.
  normalise_trace. fold before. fold ok. unfold closing_line.
  destruct ok; [destruct (printable (LogWritten temperature humidity))|];
    cbv beta iota; cbn [is_Exception]; cbv beta iota;
    rewrite ?run_print; cbn [printable]; cbv beta iota;
    normalise_trace; reflexivity.
Qed.

(** The end of the processing of a [data] string that decodes to a
    container, once the outcome of the test of line 134 is known. *)
Ltac container_case :=
  rewrite ?run_bind_lift, ?run_bind_ret; cbv beta iota;
  rewrite ?run_bind_print, ?run_print; cbn [printable]; cbv beta iota;
  rewrite ?run_bind_lift; cbv beta iota;
  try match goal with
      | |- context [process_event ?x ?t1] =>
          destruct (process_event_returns x t1) as [? ->]
      end;
  reflexivity.

(** The processing of an envelope that is an object with a [data] string:
    line 128 prints the first 100 characters; then the string is handed to
    [process_event] if it decodes to a value that passes the test of line
    134, and is skipped otherwise, with line 138 or line 141. *)
Lemma handle_payload_data_string (event_data : str)
      (wrapper : list (str * json)) (d : str) (t : trace) :
  json_loads event_data = Some (JDict wrapper) ->
  dict_get wrapper (lit "data") = Some (JStr d) ->
  handle_payload event_data t =
  bind (print (LogEventReceived (JStr (firstn 100 d))))
       (fun _ =>
          match json_loads d with
          | Some v =>
              if not_a_reading v then print (skip_line d v)
              else bind (print LogValidReading)
                        (fun _ => process_event (JStr d))
          | None => print (LogNotJSON (JStr d))
          end) t.
Proof.
  intros Hw Hd. unfold Bridge.handle_payload, try_except.
  rewrite run_bind_lift. cbn [py_json_loads]. rewrite Hw. cbv beta iota.
  rewrite run_bind_lift. cbn [py_contains]. rewrite Hd. cbv beta iota.
  rewrite run_bind_lift. cbn [py_getitem]. rewrite Hd. cbv beta iota.
  rewrite run_bind_lift. cbn [py_slice100]. cbv beta iota.
  rewrite !run_bind_print.
  destruct (printable (LogEventReceived (JStr (firstn 100 d))));
    [|reflexivity].
  rewrite run_bind_lift. cbv beta iota.
  rewrite run_bind_lift. cbn [py_json_loads].
  destruct (json_loads d) as [v|]; cbv beta iota.
  2: { rewrite run_bind_lift. cbv beta iota. rewrite run_print.
       destruct (printable (LogNotJSON (JStr d))); reflexivity. }
  rewrite run_bind_lift. unfold not_a_reading, skip_line.
  destruct v as [|b|z|f|s|l|o]; cbn [py_contains]; cbv beta iota;
    try (rewrite run_bind_lift; cbv beta iota; rewrite run_print;
         destruct (printable (LogNotJSON (JStr d))); reflexivity).
  - destruct (Str.contains s (lit "measurement"));
      [destruct (Str.contains s (lit "fields"))|]; container_case.
  - destruct (existsb _ l); [destruct (existsb _ l)|]; container_case.
  - destruct (dict_get o (lit "measurement"));
      [destruct (dict_get o (lit "fields"))|]; container_case.
Qed.

(** The processing of every other payload: it prints the line of its
    case, or raises the [TypeError] of line 127 or 128. *)
Lemma handle_payload_other (event_data : str) (t : trace) :
  match json_loads event_data with
  | None =>
      handle_payload event_data t
      = (Ok tt, t ++ [Print LogWrapperParseFailed])
  | Some (JDict w) =>
      match dict_get w (lit "data") with
      | None => handle_payload event_data t
                = (Ok tt, t ++ [Print LogNoDataField])
      | Some (JStr d) => True
      | Some (JList l) =>
          handle_payload event_data t
          = (Ok tt, t ++ [Print (LogEventReceived (JList (firstn 100 l)));
                          Print (LogNotJSON (JList l))])
      | Some _ => handle_payload event_data t = (Raise TypeError, t)
      end
  | Some (JList l) =>
      handle_payload event_data t
      = if existsb (is_str (lit "data")) l then (Raise TypeError, t)
        else (Ok tt, t ++ [Print LogNoDataField])
  | Some (JStr s) =>
      handle_payload event_data t
      = if Str.contains s (lit "data") then (Raise TypeError, t)
        else (Ok tt, t ++ [Print LogNoDataField])
  | Some _ => handle_payload event_data t = (Raise TypeError, t)
  end.
Proof.
  unfold Bridge.handle_payload, try_except.
  rewrite run_bind_lift. cbn [py_json_loads].
  destruct (json_loads event_data) as [wrapper|]; cbv beta iota.
  2: { rewrite run_print. reflexivity. }
  destruct wrapper as [|b|z|f|s|l|w];
    rewrite run_bind_lift; cbn [py_contains]; cbv beta iota;
    try reflexivity.
  - destruct (Str.contains s (lit "data")); cbv beta iota.
    + rewrite run_bind_lift. reflexivity.
    + rewrite run_print. reflexivity.
  - change (existsb _ l) with (existsb (is_str (lit "data")) l).
    destruct (existsb (is_str (lit "data")) l); cbv beta iota.
    + rewrite run_bind_lift. reflexivity.
    + rewrite run_print. reflexivity.
  - destruct (dict_get w (lit "data")) as [d|] eqn:Hd; cbv beta iota.
    2: { rewrite run_print. reflexivity. }
    rewrite run_bind_lift. cbn [py_getitem]. rewrite Hd. cbv beta iota.
    rewrite run_bind_lift.
    destruct d as [|b|z|f|s|l|o]; cbn [py_slice100]; cbv beta iota;
      try reflexivity; try exact I.
    rewrite run_bind_print. cbn [printable printable_value].
    cbv beta iota. rewrite run_bind_lift. cbv beta iota.
    rewrite run_bind_lift. cbn [py_json_loads]. cbv beta iota.
    rewrite run_bind_lift. cbv beta iota. rewrite run_print.
    cbn [printable printable_value]. cbv beta iota.
    normalise_trace. reflexivity.
Qed.

Lemma encodable_firstn (n : nat) (s : str) :
  encodable s = true -> encodable (firstn n s) = true.
Proof.
  unfold encodable. revert n.
  induction s as [|c s IH]; intros [|n] H; try reflexivity.
  cbn [firstn forallb] in *. apply andb_true_iff in H as [H1 H2].
  rewrite H1. apply IH. exact H2.
Qed.

(** The processing of a payload either hands its data string to
    [process_event], after having decoded that very string, or prints
    only lines of [main] about a payload turned away. *)
Lemma handle_payload_call_site (event_data : str) (t : trace) :
  (exists d data shown,
      py_json_loads d = Ok data
      /\ handle_payload event_data t =
         process_event d (t ++ [Print (LogEventReceived shown);
                                Print LogValidReading]))
  \/ (exists r new, handle_payload event_data t = (r, t ++ new)
                    /\ Forall is_turned_away_log new).
Proof.
  assert (Q0 : forall r, exists r' new,
               (r, t) = (r' : result unit, t ++ new)
               /\ Forall is_turned_away_log new).
  { intros r. exists r, []. rewrite app_nil_r. split; [reflexivity|].
    constructor. }
  pose proof (handle_payload_other event_data t) as O.
  destruct (json_loads event_data) as [wrapper|] eqn:Hw.
  2: { right. rewrite O. eexists. eexists. split; [reflexivity|].
       repeat constructor. }
  destruct wrapper as [|b|z|f|s|l|w]; try (right; rewrite O; apply Q0).
  - right. rewrite O. destruct (Str.contains s (lit "data")); [apply Q0|].
    eexists. eexists. split; [reflexivity|]. repeat constructor.
  - right. rewrite O.
    destruct (existsb (is_str (lit "data")) l); [apply Q0|].
    eexists. eexists. split; [reflexivity|]. repeat constructor.
  - destruct (dict_get w (lit "data")) as [d|] eqn:Hd.
    2: { right. rewrite O. eexists. eexists. split; [reflexivity|].
         repeat constructor. }
    destruct d as [|b|z|f|s|l|o]; try (right; rewrite O; apply Q0).
    2: { right. rewrite O. eexists. eexists. split; [reflexivity|].
         repeat constructor. }
    rewrite (handle_payload_data_string _ _ _ _ Hw Hd), run_bind_print.
    destruct (printable (LogEventReceived (JStr (firstn 100 s))));
      [|right; apply Q0].
    destruct (json_loads s) as [v|] eqn:Hv.
    + destruct (not_a_reading v).
      * right. rewrite run_print.
        destruct (printable (skip_line s v)); normalise_trace.
        -- eexists. eexists. split; [reflexivity|].
           unfold skip_line. destruct v; repeat constructor.
        -- eexists. eexists. split; [reflexivity|]. repeat constructor.
      * left. exists (JStr s), v, (JStr (firstn 100 s)).
        split; [cbn [py_json_loads]; rewrite Hv; reflexivity|].
        rewrite run_bind_print. cbn [printable]. cbv beta iota.
        normalise_trace. reflexivity.
    + right. rewrite run_print.
      destruct (printable (LogNotJSON (JStr s))); normalise_trace;
        eexists; eexists; (split; [reflexivity|]); repeat constructor.
Qed.

(** An envelope whose data string decodes to a value that passes the test
    of line 134 is handed to [process_event]. *)
Lemma handle_payload_reading (event_data : str)
      (wrapper : list (str * json)) (d : str) (v : json) (t : trace) :
  json_loads event_data = Some (JDict wrapper) ->
  dict_get wrapper (lit "data") = Some (JStr d) ->
  json_loads d = Some v ->
  py_contains (lit "measurement") v = Ok true ->
  py_contains (lit "fields") v = Ok true ->
  encodable (firstn 100 d) = true ->
  handle_payload event_data t =
  process_event (JStr d)
                (t ++ [Print (LogEventReceived (JStr (firstn 100 d)));
                       Print LogValidReading]).
Proof.
  intros Hw Hd Hv Hm Hf He.
  rewrite (handle_payload_data_string _ _ _ _ Hw Hd), run_bind_print.
  cbn [printable printable_value]. rewrite He, Hv.
  assert (Hn : not_a_reading v = false).
  { unfold not_a_reading. rewrite Hm, Hf.
    destruct v; try reflexivity; discriminate Hm. }
  rewrite Hn, run_bind_print. cbn [printable]. cbv beta iota.
  normalise_trace. reflexivity.
Qed.

(** An inner value that is no reading is skipped with one informational
    line. *)
Lemma handle_payload_no_reading (event_data : str)
      (wrapper : list (str * json)) (d : str) (v : json) (t : trace) :
  json_loads event_data = Some (JDict wrapper) ->
  dict_get wrapper (lit "data") = Some (JStr d) ->
  json_loads d = Some v ->
  not_a_reading v = true ->
  encodable d = true ->
  handle_payload event_data t
  = (Ok tt, t ++ [Print (LogEventReceived (JStr (firstn 100 d)));
                  Print (skip_line d v)]).
Proof.
  intros Hw Hd Hv Hn He.
  rewrite (handle_payload_data_string _ _ _ _ Hw Hd), run_bind_print.
  cbn [printable printable_value]. rewrite (encodable_firstn _ _ He), Hv, Hn.
  rewrite run_print.
  assert (Hp : printable (skip_line d v) = true).
  { unfold skip_line. destruct v; try reflexivity; exact He. }
  rewrite Hp. normalise_trace. reflexivity.
Qed.

(** An envelope of the data model, an object whose [data] value, if any,
    is a string, here one without surrogates, never makes the processing
    raise: the payload is processed or discarded and the stream loop goes
    on; so does a payload that is no JSON. *)
Lemma handle_payload_envelope_returns (event_data : str) (t : trace) :
  json_loads event_data = None
  \/ (exists wrapper,
         json_loads event_data = Some (JDict wrapper)
         /\ (dict_get wrapper (lit "data") = None
             \/ exists d, dict_get wrapper (lit "data") = Some (JStr d)
                          /\ encodable d = true)) ->
  exists new, handle_payload event_data t = (Ok tt, t ++ new).
Proof.
  pose proof (handle_payload_other event_data t) as O.
  intros [Hn|(wrapper & Hw & [Hd|(d & Hd & He)])].
  - rewrite Hn in O. rewrite O. eexists. reflexivity.
  - rewrite Hw, Hd in O. rewrite O. eexists. reflexivity.
  - rewrite (handle_payload_data_string _ _ _ _ Hw Hd), run_bind_print.
    cbn [printable printable_value]. rewrite (encodable_firstn _ _ He).
    destruct (json_loads d) as [v|].
    + destruct (not_a_reading v) eqn:Hr.
      * rewrite run_print.
        assert (Hp : printable (skip_line d v) = true).
        { unfold skip_line. destruct v; try reflexivity; exact He. }
        rewrite Hp. normalise_trace. eexists. reflexivity.
      * rewrite run_bind_print. cbn [printable]. cbv beta iota.
        match goal with
        | |- context [process_event ?x ?t1] =>
            destruct (process_event_returns x t1) as [new ->]
        end.
        normalise_trace. eexists. reflexivity.
    + rewrite run_print. cbn [printable printable_value]. rewrite He.
      normalise_trace. eexists. reflexivity.
Qed.

End RunFacts.
(** ** Properties of the envelope processing *)

(** C10. The handler of decode errors of [process_event] (line 72) is not
    reached on a call from the stream loop. The processing of a payload
    either calls [process_event] with the data string [d] it has just
    decoded, or it prints only lines of [main] and does not call it; on a
    string that decodes, [process_event] returns without printing the
    decode-error line; so neither the processing of a payload nor a whole
    run of [main] prints it. Called on a text that is no JSON, as the
    loop never does, [process_event] does reach that handler. *)
Theorem decode_error_handler_unreachable
        (sink : trace -> point -> bool)
        (str_to_float : str -> option spec_float)
        (str_to_int : str -> option Z) :
  let process_event := process_event sink str_to_float str_to_int in
  let handle_payload := handle_payload sink str_to_float str_to_int in
  (forall event_data t,
      (exists d data shown,
          py_json_loads d = Ok data
          /\ handle_payload event_data t =
             process_event d (t ++ [Print (LogEventReceived shown);
                                    Print LogValidReading]))
      \/ (exists r new, handle_payload event_data t = (r, t ++ new)
                        /\ Forall is_turned_away_log new))
  /\ (forall d data t,
         py_json_loads d = Ok data ->
         exists new, process_event d t = (Ok tt, t ++ new)
                     /\ ~ In (Print LogJSONDecodeError) new)
  /\ (forall event_data t,
         exists new, snd (handle_payload event_data t) = t ++ new
                     /\ ~ In (Print LogJSONDecodeError) new)
  /\ (forall attempts,
         ~ In (Print LogJSONDecodeError)
              (snd (main sink str_to_float str_to_int attempts)))
  /\ process_event (JStr (lit "not-json")) []
     = (Ok tt, [Print LogJSONDecodeError]).
Proof.
  intros pe hp. unfold pe, hp. repeat split.
  - apply handle_payload_call_site.
  - intros d data t Hd.
    destruct (process_event_returns sink str_to_float str_to_int d t)
      as [new E].
    exists new. split; [exact E|].
    destruct (process_event_decoded sink str_to_float str_to_int
                (fun x => x <> Print LogJSONDecodeError)
                ltac:(discriminate) ltac:(congruence) d data Hd t)
      as (new' & E' & F & _).
    rewrite E in E'. cbn [snd] in E'. apply app_inv_head in E'. subst new'.
    intros Hin. rewrite Forall_forall in F. exact (F _ Hin eq_refl).
  - intros event_data t.
    destruct (handle_payload_appends sink str_to_float str_to_int
                (fun x => x <> Print LogJSONDecodeError)
                ltac:(discriminate) ltac:(congruence) event_data t)
      as (new & E & F & _).
    exists new. split; [exact E|].
    intros Hin. rewrite Forall_forall in F. exact (F _ Hin eq_refl).
  - intros attempts.
    destruct (main_loop_no_decode_error sink str_to_float str_to_int
                attempts 5 []) as (new & E & F).
    unfold main. rewrite E. cbn [app].
    intros Hin. rewrite Forall_forall in F. exact (F _ Hin eq_refl).
Qed.

Lemma decode_error_handler_unreachable_witness :
  exists new,
    process_event (fun _ _ => true) (fun _ => None) (fun _ => None)
                  (JStr (lit "{'measurement':'env','fields':{}}")) []
    = (Ok tt, [] ++ new)
    /\ ~ In (Print LogJSONDecodeError) new.
Proof.
  refine (proj1 (proj2 (decode_error_handler_unreachable
                          (fun _ _ => true) (fun _ => None) (fun _ => None)))
                (JStr (lit "{'measurement':'env','fields':{}}"))
                (JDict [(lit "measurement", JStr (lit "env"));
                        (lit "fields", JDict [])])
                [] _).
  reflexivity.
Defined.

(** C7 fails on the code. The data string of the claim's own example,
    an object without the two keys, is skipped as the claim says, with the
    informational line of line 138. But the test of line 134 is Python's
    [in]: an array that holds the two names as elements lacks both keys and
    passes it, as does a string in which the two names occur; such a value
    is handed to [process_event], which reports an error by line 77 and
    prints no skip line. And a data string that holds a surrogate lacks
    both keys as well, yet line 128 cannot print it: the exception leaves
    the stream loop, the connection ends, the supervisor waits, and the
    frame that follows is never processed. *)
Theorem value_lacking_keys_is_not_always_skipped
        (sink : trace -> point -> bool)
        (str_to_float : str -> option spec_float)
        (str_to_int : str -> option Z) :
  let handle_payload := handle_payload sink str_to_float str_to_int in
  let main := main sink str_to_float str_to_int in
  let object_run :=
    handle_payload (lit "{'data':'{\'other\':true}'}") [] in
  let array_run :=
    handle_payload (lit "{'data':'[\'measurement\',\'fields\']'}") [] in
  let string_run :=
    handle_payload (lit "{'data':'\'measurement fields\''}") [] in
  let surrogate_run :=
    handle_payload (lit "{'data':'{\'other\':\'\ud800\'}'}") [] in
  object_run
  = (Ok tt, [Print (LogEventReceived (JStr (lit "{'other':true}")));
             Print LogNotSensorFormat])
  /\ json_loads (lit "['measurement','fields']")
     = Some (JList [JStr (lit "measurement"); JStr (lit "fields")])
  /\ has_key (lit "measurement")
             (JList [JStr (lit "measurement"); JStr (lit "fields")]) = false
  /\ has_key (lit "fields")
             (JList [JStr (lit "measurement"); JStr (lit "fields")]) = false
  /\ array_run
     = (Ok tt,
        [Print (LogEventReceived (JStr (lit "['measurement','fields']")));
         Print LogValidReading; Print LogProcessing;
         Print (LogErrorProcessing TypeError)])
  /\ skip_logs (snd array_run) = []
  /\ error_logs (snd array_run) = [LogErrorProcessing TypeError]
  /\ string_run
     = (Ok tt,
        [Print (LogEventReceived (JStr (lit "'measurement fields'")));
         Print LogValidReading; Print LogProcessing;
         Print (LogErrorProcessing TypeError)])
  /\ skip_logs (snd string_run) = []
  /\ json_loads (lit "{'data':'{\'other\':\'\ud800\'}'}")
     = Some (JDict [(lit "data",
                     JStr (lit "{'other':'" ++ [55296%N] ++ lit "'}"))])
  /\ json_loads (lit "{'other':'" ++ [55296%N] ++ lit "'}")
     = Some (JDict [(lit "other", JStr [55296%N])])
  /\ surrogate_run = (Raise UnicodeEncodeError, [])
  /\ main [Connects [lit "data: {'data':'{\'other\':\'\ud800\'}'}$$";
                     scenario1_frame] EndOfStream]
     = (Running 10,
        [Print LogConnecting; Print LogUrl; Print LogConnected;
         Print (LogConnectionError UnicodeEncodeError);
         Print (LogRetrying 5); Sleep 5]).
Proof.
  intros hp m r1 r2 r3 r4. unfold r1, r2, r3, r4, hp, m.
  repeat split; vm_compute; reflexivity.
Qed.

Lemma sink_writes_nil_not_in (new : trace) (p : point) (ok : bool) :
  sink_writes new = [] -> ~ In (SinkWrite p ok) new.
Proof.
  induction new as [|x new IH]; intros Hw Hin; [contradiction|].
  destruct Hin as [->|Hin]; [discriminate Hw|].
  apply IH; [|exact Hin].
  destruct x; cbn in Hw; try exact Hw. discriminate Hw.
Qed.

(** C5. For every reading that [process_event] accepts, that is, for which
    it calls the sink: the timestamp of the point is the reading's
    [timestamp], converted by [int], times 1,000,000,000, in unbounded
    integer arithmetic; for an integer timestamp of [z] seconds it is
    [z * 1000000000], and for 1700000000 it is 1700000000000000000. *)
Theorem point_timestamp_is_seconds_times_1e9
        (sink : trace -> point -> bool)
        (str_to_float : str -> option spec_float)
        (str_to_int : str -> option Z)
        (event_data : json) (t new : trace) (p : point) (ok : bool) :
  snd (process_event sink str_to_float str_to_int event_data t) = t ++ new ->
  In (SinkWrite p ok) new ->
  exists data ts seconds,
    py_json_loads event_data = Ok data
    /\ py_getitem data (lit "timestamp") = Ok ts
    /\ py_int str_to_int ts = Ok seconds
    /\ time p = (seconds * 1000000000)%Z
    /\ (forall z, ts = JInt z -> time p = (z * 1000000000)%Z)
    /\ (ts = JInt 1700000000 -> time p = 1700000000000000000%Z).
Proof.
  intros E Hin.
  destruct (process_event_cases sink str_to_float str_to_int event_data t)
    as [(data & m & tags & fields & ts & seconds & location & device
         & temperature & temperature_f & humidity & humidity_f & Hd & _ & _
         & _ & Hts & Hs & _ & _ & _ & _ & _ & _ & R)|(new' & R & Hw & _)].
  - cbv zeta in R. rewrite R in E. cbn [snd] in E.
    apply app_inv_head in E. subst new.
    assert (Hp : time p = (seconds * 1000000000)%Z).
    { cbn [app In] in Hin.
      repeat (destruct Hin as [Hin|Hin]; [try discriminate Hin|]);
        [|contradiction].
      injection Hin as <- _. reflexivity. }
    exists data, ts, seconds. repeat split; try assumption.
    + intros z ->. cbn in Hs. injection Hs as <-. exact Hp.
    + intros ->. cbn in Hs. injection Hs as <-. rewrite Hp. reflexivity.
  - rewrite R in E. cbn [snd] in E. apply app_inv_head in E. subst new'.
    exfalso. exact (sink_writes_nil_not_in new p ok Hw Hin).
Qed.

Lemma point_timestamp_is_seconds_times_1e9_witness :
  exists data ts seconds,
    py_json_loads
      (JStr scenario1_reading)
    = Ok data
    /\ py_getitem data (lit "timestamp") = Ok ts
    /\ py_int (fun _ => None) ts = Ok seconds
    /\ time scenario1_point = (seconds * 1000000000)%Z
    /\ (forall z, ts = JInt z -> time scenario1_point = (z * 1000000000)%Z)
    /\ (ts = JInt 1700000000 ->
        time scenario1_point = 1700000000000000000%Z).
Proof.
  refine (point_timestamp_is_seconds_times_1e9
            (fun _ _ => true) (fun _ => None) (fun _ => None)
            (JStr scenario1_reading)
            []
            [Print LogProcessing;
             Print (LogMeasurement (JStr (lit "env")));
             Print (LogTags (JDict [(lit "location", JStr (lit "lab"));
                                    (lit "device", JStr (lit "d1"))]));
             Print (LogFields
                      (JDict [(lit "temperature",
                               JFloat (float_of_decimal false 215 (-1)));
                              (lit "humidity",
                               JFloat (float_of_decimal false 402 (-1)))]));
             Print (LogTimestamp (JInt 1700000000));
             Print LogWriting;
             Print (LogPoint scenario1_point);
             SinkWrite scenario1_point true;
             Print (LogWritten (JFloat (float_of_decimal false 215 (-1)))
                               (JFloat (float_of_decimal false 402 (-1))))]
            scenario1_point true _ _).
  - vm_compute. reflexivity.
  - cbn. tauto.
Defined.

(** C4. The frame of the first scenario, however it is cut into chunks,
    makes the stream loop call the sink exactly once, with the point of
    measurement [env], tags [location = lab] and [device = d1], fields
    [temperature] and [humidity] the binary64 values of 21.5 and 40.2, and
    timestamp 1700000000000000000; this holds whatever the sink answers
    and whatever happened before. *)
Theorem scenario1_one_sink_write
        (sink : trace -> point -> bool)
        (str_to_float : str -> option spec_float)
        (str_to_int : str -> option Z)
        (chunks : list str) (t : trace) :
  concat chunks = scenario1_frame ->
  (exists new ok,
      stream_loop sink str_to_float str_to_int chunks [] t = (Ok [], t ++ new)
      /\ sink_writes new = [(scenario1_point, ok)])
  /\ measurement scenario1_point = JStr (lit "env")
  /\ tag_location scenario1_point = JStr (lit "lab")
  /\ tag_device scenario1_point = JStr (lit "d1")
  /\ field_temperature scenario1_point
     = S754_finite false 6051711999279104 (-48)
  /\ field_humidity scenario1_point
     = S754_finite false 5657647031884186 (-47)
  /\ time scenario1_point = 1700000000000000000%Z.
Proof.
  intros E. split; [|repeat split].
  rewrite stream_loop_decode. unfold decode.
  rewrite messages_of_concat, buffer_after_concat, E.
  replace (payloads (removelast (split_nn scenario1_frame)))
    with [scenario1_payload] by (vm_compute; reflexivity).
  replace (last (split_nn scenario1_frame) [])
    with (@nil N) by (vm_compute; reflexivity).
  cbn [for_payloads]. unfold bind, ret.
  rewrite (handle_payload_reading sink str_to_float str_to_int
             scenario1_payload
             [(lit "data", JStr scenario1_reading)]
             scenario1_reading scenario1_data t);
    try (vm_compute; reflexivity).
  rewrite (process_event_accepts sink str_to_float str_to_int
             (JStr scenario1_reading) scenario1_data (JStr (lit "env"))
             (JDict [(lit "location", JStr (lit "lab"));
                     (lit "device", JStr (lit "d1"))])
             (JDict [(lit "temperature",
                      JFloat (float_of_decimal false 215 (-1)));
                     (lit "humidity",
                      JFloat (float_of_decimal false 402 (-1)))])
             (JInt 1700000000) 1700000000
             (JStr (lit "lab")) (JStr (lit "d1"))
             (JFloat (float_of_decimal false 215 (-1)))
             (JFloat (float_of_decimal false 402 (-1)))
             (float_of_decimal false 215 (-1))
             (float_of_decimal false 402 (-1)));
    try (vm_compute; reflexivity).
  cbv zeta. rewrite <- app_assoc.
  eexists. eexists. split; [reflexivity|].
  cbn [sink_writes flat_map app]. reflexivity.
Qed.

Lemma scenario1_one_sink_write_witness :
  exists new ok,
    stream_loop (fun _ _ => true) (fun _ => None) (fun _ => None)
                (map (fun c => [c]) scenario1_frame) [] []
    = (Ok [], [] ++ new)
    /\ sink_writes new = [(scenario1_point, ok)].
Proof.
  refine (proj1 (scenario1_one_sink_write
                   (fun _ _ => true) (fun _ => None) (fun _ => None)
                   (map (fun c => [c]) scenario1_frame) [] _)).
  vm_compute. reflexivity.
Defined.

(** C1 fails on the code: a payload whose envelope decodes to a value that
    is no object, or whose [data] value is no string, makes line 127 or
    line 128 raise a [TypeError] outside the two local handlers. The
    exception leaves the stream loop, the supervisor reports a connection
    error, waits and doubles [retry_delay]; a frame that follows in the same
    connection is never processed. A payload that is no JSON, by contrast,
    is discarded and the loop goes on. *)
Theorem non_string_data_ends_the_connection
        (sink : trace -> point -> bool)
        (str_to_float : str -> option spec_float)
        (str_to_int : str -> option Z) :
  let handle_payload := handle_payload sink str_to_float str_to_int in
  let main := main sink str_to_float str_to_int in
  handle_payload (lit "{'data':5}") [] = (Raise TypeError, [])
  /\ handle_payload (lit "{'data':null}") [] = (Raise TypeError, [])
  /\ handle_payload (lit "5") [] = (Raise TypeError, [])
  /\ handle_payload (lit "null") [] = (Raise TypeError, [])
  /\ main [Connects [lit "data: {'data':5}$$"] EndOfStream]
     = (Running 10,
        [Print LogConnecting; Print LogUrl; Print LogConnected;
         Print (LogConnectionError TypeError); Print (LogRetrying 5);
         Sleep 5])
  /\ main [Connects [lit "data: {'data':5}$$"; scenario1_frame] EndOfStream]
     = (Running 10,
        [Print LogConnecting; Print LogUrl; Print LogConnected;
         Print (LogConnectionError TypeError); Print (LogRetrying 5);
         Sleep 5])
  /\ main [Connects [lit "data: not-json$$"] EndOfStream]
     = (Running 5,
        [Print LogConnecting; Print LogUrl; Print LogConnected;
         Print LogWrapperParseFailed]).
Proof.
  intros hp m. unfold hp, m. repeat split; vm_compute; reflexivity.
Qed.

(** Three line feeds in a row: the first two are the delimiter, the third
    stays in the buffer. *)
Example buffer_after_three_line_feeds :
  messages_of [] [lit "a$$$"] = [lit "a"]
  /\ buffer_after [] [lit "a$$$"] = [LF].
Proof. split; reflexivity. Qed.

(** C8. After every sequence of chunks of a connection, the text received
    is the complete frames handed over so far, each followed by its
    delimiter, followed by the buffer: nothing is lost and nothing is kept
    twice. Each frame ends at the first delimiter met from its start, the
    delimiters being found from left to right without overlap, as [split]
    finds them, and the buffer holds no delimiter: it is the text after the
    last delimiter, and the whole text when there is none. The stream loop
    returns that buffer when the stream ends; the supervisor does not look at
    it, and what follows in a run depends on the chunks only through their
    complete frames: the trailing partial frame is dropped without trace and
    is not replayed. *)
Theorem buffer_holds_text_after_last_delimiter (chunks : list str) :
  let received := concat chunks in
  let buffer := buffer_after [] chunks in
  received = concat (map frame_text (messages_of [] chunks)) ++ buffer
  /\ Forall ends_at_first_delimiter (messages_of [] chunks)
  /\ contains_nn buffer = false
  /\ buffer = last (split_nn received) []
  /\ (contains_nn received = false -> buffer = received)
  /\ (forall sink str_to_float str_to_int t b t',
         stream_loop sink str_to_float str_to_int chunks [] t = (Ok b, t') ->
         b = buffer)
  /\ (forall sink str_to_float str_to_int chunks' e rest retry_delay t,
         messages_of [] chunks' = messages_of [] chunks ->
         main_loop sink str_to_float str_to_int
                   (Connects chunks' e :: rest) retry_delay t
         = main_loop sink str_to_float str_to_int
                     (Connects chunks e :: rest) retry_delay t).
Proof.
  intros received buffer. unfold buffer, received.
  rewrite messages_of_concat, buffer_after_concat.
  destruct (split_nn_frames (concat chunks)) as [Hs Hf].
  split; [exact Hs|]. split; [exact Hf|].
  split; [apply last_split_nn_no_sep|]. split; [reflexivity|].
  split; [|split].
  - intros Hn. rewrite (split_nn_no_sep _ Hn). reflexivity.
  - intros sink sf si t b t' E.
    rewrite stream_loop_messages in E. unfold bind, ret in E.
    destruct (for_messages sink sf si (messages_of [] chunks) t)
      as [[[]|e] t1]; [|discriminate].
    injection E as <- _. apply buffer_after_concat.
  - intros sink sf si chunks' e rest d t Hm.
    cbn [main_loop].
    rewrite (iteration_messages sink sf si chunks' chunks e d t);
      [reflexivity|].
    rewrite Hm. symmetry. apply messages_of_concat.
Qed.

Lemma buffer_holds_text_after_last_delimiter_witness :
  buffer_after [] [lit "data: a$"; lit "$par"; lit "tial"] = lit "partial"
  /\ buffer_after [] [lit "par"; lit "tial"] = lit "partial"
  /\ main_loop (fun _ _ => true) (fun _ => None) (fun _ => None)
               [Connects [lit "data: a$$"] EndOfStream] 5 []
     = main_loop (fun _ _ => true) (fun _ => None) (fun _ => None)
                 [Connects [lit "data: a$"; lit "$par"; lit "tial"]
                           EndOfStream] 5 [].
Proof.
  split; [reflexivity|]. split.
  - refine (proj1 (proj2 (proj2 (proj2 (proj2
             (buffer_holds_text_after_last_delimiter
                [lit "par"; lit "tial"]))))) _).
    reflexivity.
  - refine (proj2 (proj2 (proj2 (proj2 (proj2 (proj2
             (buffer_holds_text_after_last_delimiter
                [lit "data: a$"; lit "$par"; lit "tial"]))))))
             (fun _ _ => true) (fun _ => None) (fun _ => None)
             [lit "data: a$$"] EndOfStream [] 5%Z [] _).
    reflexivity.
Defined.

(** C9. A frame whose first data line is exactly the prefix, with nothing
    after it, yields the empty string as [event_data]; the test of line 119
    takes it for false, so the frame yields no payload and its processing
    does nothing at all, as for a frame without any data line. *)
Theorem empty_data_line_yields_no_payload
        (sink : trace -> point -> bool)
        (str_to_float : str -> option spec_float)
        (str_to_int : str -> option Z)
        (before after : list str) (t : trace) :
  Forall is_line before -> Forall is_line after ->
  Forall no_data_prefix before ->
  let message := join_nl (before ++ data_prefix :: after) in
  event_data_of message = Some []
  /\ payload_of message = None
  /\ process_message sink str_to_float str_to_int message t = (Ok tt, t)
  /\ (forall lines,
         Forall is_line lines -> Forall no_data_prefix lines ->
         payload_of (join_nl lines) = None
         /\ process_message sink str_to_float str_to_int (join_nl lines) t
            = (Ok tt, t)).
Proof.
  intros Hb Ha Hn message.
  assert (Hl : Forall is_line (before ++ (data_prefix ++ []) :: after)).
  { apply Forall_app. split; [exact Hb|]. constructor; [|exact Ha].
    rewrite app_nil_r. exact data_prefix_is_line. }
  assert (E : event_data_of message = Some []).
  { unfold message. rewrite <- (app_nil_r data_prefix).
    apply event_data_of_first_data_line; assumption. }
  assert (Ep : payload_of message = None).
  { unfold payload_of. rewrite E. reflexivity. }
  split; [exact E|]. split; [exact Ep|]. split.
  - rewrite process_message_payload, Ep. reflexivity.
  - intros lines Hl' Hn'.
    destruct (event_data_of_no_data_line lines Hl' Hn') as [_ Ep'].
    split; [exact Ep'|]. rewrite process_message_payload, Ep'. reflexivity.
Qed.

Lemma empty_data_line_yields_no_payload_witness :
  payload_of (lit "event: sensor$data: $data: late") = None
  /\ process_message (fun _ _ => true) (fun _ => None) (fun _ => None)
                     (lit "event: sensor$data: $data: late") []
     = (Ok tt, []).
Proof.
  assert (L : forall l : str,
             forallb (fun c => negb (N.eqb c LF)) l = true -> is_line l).
  { intros l H Hin. rewrite forallb_forall in H. specialize (H _ Hin).
    rewrite N.eqb_refl in H. discriminate H. }
  destruct (empty_data_line_yields_no_payload
              (fun _ _ => true) (fun _ => None) (fun _ => None)
              [lit "event: sensor"] [lit "data: late"] [])
    as (_ & Hp & Hm & _).
  - repeat constructor. apply L. reflexivity.
  - repeat constructor. apply L. reflexivity.
  - repeat constructor.
  - split; [exact Hp|exact Hm].
Defined.

(* ================================================================== *)
(** * Part III: further properties of the code *)
(* ================================================================== *)

Lemma sink_writes_app (t1 t2 : trace) :
  sink_writes (t1 ++ t2) = sink_writes t1 ++ sink_writes t2.
Proof. apply flat_map_app. Qed.

Lemma error_logs_app (t1 t2 : trace) :
  error_logs (t1 ++ t2) = error_logs t1 ++ error_logs t2.
Proof. apply flat_map_app. Qed.

(** The parts of a value without surrogates are without surrogates. *)
Lemma strings_encodable_getitem (v x : json) (k : str) :
  py_getitem v k = Ok x ->
  strings_encodable v = true -> strings_encodable x = true.
Proof.
  destruct v as [| | | | |l|d]; cbn [py_getitem]; try discriminate.
  intros H. cbn [strings_encodable].
  induction d as [|[k' x'] d IH]; cbn [dict_get forallb] in *;
    [discriminate H|].
  intros E. apply andb_true_iff in E as [E1 E2].
  apply andb_true_iff in E1 as [_ E1].
  destruct (Str.eqb k' k).
  - injection H as <-. exact E1.
  - apply IH; assumption.
Qed.

Lemma strings_encodable_printable (v : json) :
  strings_encodable v = true -> printable_value v = true.
Proof. destruct v; cbn; auto. Qed.

Section PayloadFacts.

Variable sink : trace -> point -> bool.
Variable str_to_float : str -> option spec_float.
Variable str_to_int : str -> option Z.

Local Abbreviation process_event :=
  (process_event sink str_to_float str_to_int).
Local Abbreviation handle_payload :=
  (handle_payload sink str_to_float str_to_int).
Local Abbreviation for_payloads := (for_payloads sink str_to_float str_to_int).
Local Abbreviation stream_loop := (stream_loop sink str_to_float str_to_int).
Local Abbreviation reading_point := (reading_point str_to_float str_to_int).

Lemma process_event_outcome (event_data : json) (t : trace) :
  exists new,
    process_event event_data t = (Ok tt, t ++ new)
    /\ (length (sink_writes new) <= 1)%nat
    /\ (forall p ok,
           In (p, ok) (sink_writes new) ->
           reading_point event_data = Ok p
           /\ sink_writes new = [(p, ok)]
           /\ (length (error_logs new) <= 1)%nat
           /\ (ok = false -> error_logs new = [LogErrorProcessing SinkError]))
    /\ (sink_writes new = [] ->
        error_logs new = [LogJSONDecodeError]
        \/ exists e, error_logs new = [LogErrorProcessing e])
    /\ (forall e, reading_point event_data = Raise e -> sink_writes new = []).
Proof.
  destruct (process_event_cases sink str_to_float str_to_int event_data t)
    as [(data & m & tags & fields & ts & seconds & location & device
         & temperature & temperature_f & humidity & humidity_f & H1 & H2
         & H3 & H4 & H5 & H6 & H7 & H8 & H9 & H10 & H11 & H12 & E)
       |(new & E & W & L)].
  - cbv zeta in E. rewrite E. eexists. split; [reflexivity|].
    assert (R : reading_point event_data
                = Ok {| measurement := m;
                        tag_location := location;
                        tag_device := device;
                        field_temperature := temperature_f;
                        field_humidity := humidity_f;
                        time := seconds * 1000000000 |}).
    { unfold Reading.reading_point, rbind.
      rewrite H1, H2, H3, H4, H5, H6, H7, H8, H9, H10, H11, H12.
      reflexivity. }
    cbn [app sink_writes error_logs flat_map is_error_log length].
    split; [apply le_n|]. split; [|split; [discriminate|]].
    + intros p ok [[= <- <-]|[]]. split; [exact R|].
      split; [reflexivity|]. unfold closing_line.
      match goal with
      | |- context [sink ?t1 ?p] => destruct (sink t1 p)
      end.
      * destruct (printable (LogWritten temperature humidity));
          cbn; split; (lia || discriminate).
      * cbn. split; [lia|reflexivity].
    + intros e He. rewrite R in He. discriminate He.
  - exists new. split; [exact E|]. rewrite W.
    split; [cbn; lia|]. split; [intros p ok []|].
    split; [intros _; exact L|reflexivity].
Qed.

Lemma process_event_at_most_one_write (event_data : json) (t : trace) :
  exists new,
    process_event event_data t = (Ok tt, t ++ new)
    /\ (length (sink_writes new) <= 1)%nat.
Proof.
  destruct (process_event_outcome event_data t) as (new & E & L & _).
  exists new. split; assumption.
Qed.

(** The outcome of the processing of a payload, by the shape of its
    envelope. *)
Lemma handle_payload_outcome (event_data : str) (t : trace) :
  match json_loads event_data with
  | None =>
      handle_payload event_data t
      = (Ok tt, t ++ [Print LogWrapperParseFailed])
  | Some wrapper =>
      if ends_connection wrapper
      then exists e new,
          handle_payload event_data t = (Raise e, t ++ new)
          /\ (e = TypeError \/ e = KeyError \/ e = UnicodeEncodeError)
          /\ sink_writes new = []
      else exists new,
          handle_payload event_data t = (Ok tt, t ++ new)
          /\ (length (sink_writes new) <= 1)%nat
  end.
Proof.
  assert (T : exists e new,
             (Raise TypeError, t) = (Raise e : result unit, t ++ new)
             /\ (e = TypeError \/ e = KeyError \/ e = UnicodeEncodeError)
             /\ sink_writes new = []).
  { exists TypeError, []. rewrite app_nil_r. auto. }
  assert (U : forall new,
             sink_writes new = [] ->
             exists e new',
               (Raise UnicodeEncodeError, t ++ new)
               = (Raise e : result unit, t ++ new')
               /\ (e = TypeError \/ e = KeyError \/ e = UnicodeEncodeError)
               /\ sink_writes new' = []).
  { intros new Hn. exists UnicodeEncodeError, new. auto. }
  pose proof (handle_payload_other sink str_to_float str_to_int
                                   event_data t) as O.
  destruct (json_loads event_data) as [wrapper|] eqn:Hw; [|exact O].
  destruct wrapper as [|b|z|f|s|l|w]; cbn [ends_connection];
    try (rewrite O; exact T).
  - rewrite O. destruct (Str.contains s (lit "data")); [exact T|].
    eexists. split; [reflexivity|]. cbn. lia.
  - rewrite O. destruct (existsb (is_str (lit "data")) l); [exact T|].
    eexists. split; [reflexivity|]. cbn. lia.
  - destruct (dict_get w (lit "data")) as [d|] eqn:Hd.
    2: { rewrite O. eexists. split; [reflexivity|]. cbn. lia. }
    destruct d as [|b|z|f|s|l|o]; try (rewrite O; exact T).
    2: { rewrite O. eexists. split; [reflexivity|]. cbn. lia. }
    rewrite (handle_payload_data_string _ _ _ _ _ _ _ Hw Hd), run_bind_print.
    cbn [printable printable_value].
    destruct (encodable (firstn 100 s)); cbn [negb orb].
    2: { exists UnicodeEncodeError, []. rewrite app_nil_r. auto. }
    assert (N : if negb (encodable s)
                then exists e new,
                    print (LogNotJSON (JStr s))
                          (t ++ [Print (LogEventReceived
                                          (JStr (firstn 100 s)))])
                    = (Raise e, t ++ new)
                    /\ (e = TypeError \/ e = KeyError
                        \/ e = UnicodeEncodeError)
                    /\ sink_writes new = []
                else exists new,
                    print (LogNotJSON (JStr s))
                          (t ++ [Print (LogEventReceived
                                          (JStr (firstn 100 s)))])
                    = (Ok tt, t ++ new)
                    /\ (length (sink_writes new) <= 1)%nat).
    { rewrite run_print. cbn [printable printable_value].
      destruct (encodable s); cbn [negb].
      - normalise_trace. eexists. split; [reflexivity|]. cbn. lia.
      - apply U. reflexivity. }
    destruct (json_loads s) as [v|]; [|exact N].
    destruct v as [|b|z|f|s'|l|o]; try exact N;
      (destruct (not_a_reading _);
       [rewrite run_print; cbn [skip_line printable]; cbv beta iota;
        normalise_trace; eexists; split; [reflexivity|]; cbn; lia
       |rewrite run_bind_print; cbn [printable]; cbv beta iota;
        match goal with
        | |- context [process_event ?x ?t1] =>
            destruct (process_event_at_most_one_write x t1)
              as (new & -> & W)
        end;
        normalise_trace; eexists; split; [reflexivity|];
        exact W]).
Qed.

Lemma for_payloads_harmless (ps : list str) :
  Forall (fun p => harmless p = true) ps ->
  forall t, exists new,
    for_payloads ps t = (Ok tt, t ++ new)
    /\ (length (sink_writes new) <= length ps)%nat.
Proof.
  induction 1 as [|p ps Hp _ IH]; intros t.
  - exists []. rewrite app_nil_r. split; [reflexivity|apply le_n].
  - cbn [Bridge.for_payloads]. unfold bind.
    pose proof (handle_payload_outcome p t) as O. unfold harmless in Hp.
    apply andb_true_iff in Hp as [_ Hp].
    destruct (json_loads p) as [wrapper|].
    + apply negb_true_iff in Hp. rewrite Hp in O.
      destruct O as (n1 & -> & W1).
      destruct (IH (t ++ n1)) as (n2 & -> & W2).
      exists (n1 ++ n2). rewrite app_assoc. split; [reflexivity|].
      rewrite sink_writes_app, length_app. cbn [length]. lia.
    + rewrite O. destruct (IH (t ++ [Print LogWrapperParseFailed]))
        as (n2 & -> & W2).
      exists ([Print LogWrapperParseFailed] ++ n2).
      rewrite app_assoc. split; [reflexivity|].
      rewrite sink_writes_app, length_app.
      cbn [length sink_writes flat_map app]. lia.
Qed.

End PayloadFacts.

(** X1. [process_event] returns for every argument, every sink and
    everything printed before, and it calls the sink at most once. When it
    calls the sink, it does so with the point made of the parts of the
    reading, every one of which was found and converted, and it prints at
    most one error line, the one of line 77 when the sink fails. When it
    calls no sink, it prints exactly one error line. A reading of which a
    part is missing or cannot be converted is never written. *)
Theorem process_event_writes_the_reading_point
        (sink : trace -> point -> bool)
        (str_to_float : str -> option spec_float)
        (str_to_int : str -> option Z)
        (event_data : json) (t : trace) :
  exists new,
    process_event sink str_to_float str_to_int event_data t
    = (Ok tt, t ++ new)
    /\ (length (sink_writes new) <= 1)%nat
    /\ (forall p ok,
           In (p, ok) (sink_writes new) ->
           reading_point str_to_float str_to_int event_data = Ok p
           /\ sink_writes new = [(p, ok)]
           /\ (length (error_logs new) <= 1)%nat
           /\ (ok = false -> error_logs new = [LogErrorProcessing SinkError]))
    /\ (sink_writes new = [] ->
        error_logs new = [LogJSONDecodeError]
        \/ exists e, error_logs new = [LogErrorProcessing e])
    /\ (forall e,
           reading_point str_to_float str_to_int event_data = Raise e ->
           sink_writes new = []).
Proof. apply process_event_outcome. Qed.

Lemma process_event_writes_the_reading_point_witness :
  exists new,
    process_event (fun _ _ => false) (fun _ => None) (fun _ => None)
                  (JStr scenario1_reading) []
    = (Ok tt, [] ++ new)
    /\ reading_point (fun _ => None) (fun _ => None) (JStr scenario1_reading)
       = Ok scenario1_point
    /\ error_logs new = [LogErrorProcessing SinkError]
    /\ sink_writes
         (snd (process_event (fun _ _ => true) (fun _ => None)
                             (fun _ => None)
                             (JStr (lit "{'measurement':'env'}")) []))
       = [].
Proof.
  destruct (process_event_writes_the_reading_point
              (fun _ _ => false) (fun _ => None) (fun _ => None)
              (JStr scenario1_reading) []) as (new & E & _ & W & _).
  exists new. split; [exact E|].
  assert (Hin : In (scenario1_point, false) (sink_writes new)).
  { assert (E' := E). vm_compute in E'. injection E' as <-.
    cbn. left. reflexivity. }
  destruct (W scenario1_point false Hin) as (R & _ & _ & F).
  split; [exact R|]. split; [exact (F eq_refl)|].
  destruct (process_event_writes_the_reading_point
              (fun _ _ => true) (fun _ => None) (fun _ => None)
              (JStr (lit "{'measurement':'env'}")) [])
    as (new' & E' & _ & _ & _ & N).
  rewrite E'. cbn [snd app]. apply (N KeyError). reflexivity.
Defined.



(** X3. A connection on which every decoded payload is harmless (within
    the limits of the interpreter, and no JSON or an envelope that does not
    end the connection) is read to its end: the stream loop returns the
    buffer of the decoder; what it has done is the processing of the
    decoded payloads one after the other, each of which returned; and it
    has called the sink at most once per payload. *)
Theorem harmless_stream_is_read_to_its_end
        (sink : trace -> point -> bool)
        (str_to_float : str -> option spec_float)
        (str_to_int : str -> option Z)
        (chunks : list str) (t : trace) :
  Forall (fun p => harmless p = true) (decode chunks) ->
  exists new,
    stream_loop sink str_to_float str_to_int chunks [] t
    = (Ok (buffer_after [] chunks), t ++ new)
    /\ for_payloads sink str_to_float str_to_int (decode chunks) t
       = (Ok tt, t ++ new)
    /\ (length (sink_writes new) <= length (decode chunks))%nat.
Proof.
  intros H. rewrite stream_loop_decode. unfold bind, ret.
  destruct (for_payloads_harmless sink str_to_float str_to_int _ H t)
    as (new & -> & W).
  exists new. split; [reflexivity|]. split; [reflexivity|exact W].
Qed.

Lemma harmless_stream_is_read_to_its_end_witness :
  let chunks := [lit "data: not-json$$da"; lit "ta: {'ttl':60}$$";
                 scenario1_frame; lit "data: {'da"] in
  exists new,
    stream_loop (fun _ _ => false) (fun _ => None) (fun _ => None)
                chunks [] []
    = (Ok (buffer_after [] chunks), [] ++ new)
    /\ for_payloads (fun _ _ => false) (fun _ => None) (fun _ => None)
                    (decode chunks) []
       = (Ok tt, [] ++ new)
    /\ (length (sink_writes new) <= length (decode chunks))%nat.
Proof.
  intros chunks.
  apply (harmless_stream_is_read_to_its_end
           (fun _ _ => false) (fun _ => None) (fun _ => None) chunks []).
  replace (decode chunks)
    with [lit "not-json"; lit "{'ttl':60}"; scenario1_payload]
    by (vm_compute; reflexivity).
  repeat (apply Forall_cons; [vm_compute; reflexivity|]).
  apply Forall_nil.
Defined.

(** ** The supervisor and the stream loop, composed and bounded *)

Section SupervisorFacts.

Variable sink : trace -> point -> bool.
Variable str_to_float : str -> option spec_float.
Variable str_to_int : str -> option Z.

Local Abbreviation stream_loop := (stream_loop sink str_to_float str_to_int).
Local Abbreviation iteration := (iteration sink str_to_float str_to_int).
Local Abbreviation main_loop := (main_loop sink str_to_float str_to_int).

Lemma main_loop_app (attempts1 attempts2 : list attempt) :
  forall retry_delay t,
    main_loop (attempts1 ++ attempts2) retry_delay t =
    match main_loop attempts1 retry_delay t with
    | (Running retry_delay', t') => main_loop attempts2 retry_delay' t'
    | (Stopped, t') => (Stopped, t')
    end.
Proof.
  induction attempts1 as [|a rest IH]; intros d t; [reflexivity|].
  cbn [app Bridge.main_loop].
  destruct (iteration a d t) as [[[[]|e] d'] t']; [apply IH|].
  destruct (is_Exception e); [apply IH|reflexivity].
Qed.

Lemma stream_loop_app (chunks1 chunks2 : list str) :
  forall buffer t,
    stream_loop (chunks1 ++ chunks2) buffer t =
    bind (stream_loop chunks1 buffer)
         (fun buffer' => stream_loop chunks2 buffer') t.
Proof.
  induction chunks1 as [|chunk rest IH]; intros buffer t; [reflexivity|].
  cbn [app Bridge.stream_loop].
  destruct (truthy chunk); [|apply IH].
  destruct (contains_nn (buffer ++ chunk)); [|apply IH].
  rewrite bind_assoc. apply bind_ext. intros _ t'. apply IH.
Qed.

(** The delay stays between 5 and 60, and so does every wait. *)
Lemma main_loop_bounds (attempts : list attempt) :
  forall retry_delay t,
    (5 <= retry_delay <= 60)%Z ->
    exists new,
      snd (main_loop attempts retry_delay t) = t ++ new
      /\ Forall (fun d => 5 <= d <= 60)%Z (sleeps new)
      /\ (forall d, fst (main_loop attempts retry_delay t) = Running d ->
                    (5 <= d <= 60)%Z).
Proof.
  assert (Q : forall inner,
             Forall (fun x => sleeps [x] = []) inner -> sleeps inner = []).
  { induction 1 as [|x l Hx _ IH]; [reflexivity|].
    change (x :: l) with ([x] ++ l). unfold sleeps in *.
    rewrite flat_map_app, Hx, IH. reflexivity. }
  assert (A : forall t1 t2, sleeps (t1 ++ t2) = sleeps t1 ++ sleeps t2).
  { intros. apply flat_map_app. }
  induction attempts as [|a rest IH]; intros d t Hd.
  - exists []. cbn. rewrite app_nil_r. repeat split; try constructor.
    + injection H as <-. lia.
    + injection H as <-. lia.
  - cbn [Bridge.main_loop].
    destruct (iteration_shape sink str_to_float str_to_int
                (fun x => sleeps [x] = []) a d t)
      as [(e & E)|(r & inner & E & F)].
    + reflexivity.
    + intros l _ _. reflexivity.
    + rewrite E. destruct (is_Exception e).
      * destruct (IH (Z.min (d * 2) max_retry_delay)
                     ((t ++ [Print LogConnecting; Print LogUrl])
                        ++ [Print (LogConnectionError e);
                            Print (LogRetrying d); Sleep d]))
          as (new & En & Fn & Rn); [unfold max_retry_delay; lia|].
        exists ([Print LogConnecting; Print LogUrl]
                  ++ [Print (LogConnectionError e); Print (LogRetrying d);
                      Sleep d] ++ new).
        split; [rewrite En, <- !app_assoc; reflexivity|].
        split; [|exact Rn].
        cbn. constructor; [lia|exact Fn].
      * exists ([Print LogConnecting; Print LogUrl] ++ [Print LogShutdown]).
        split; [cbn [snd]; rewrite <- !app_assoc; reflexivity|].
        split; [cbn; constructor|]. cbn [fst]. discriminate.
    + rewrite E. pose proof (Q inner F) as Qi.
      destruct r as [[]|e].
      * destruct (IH 5%Z (t ++ [Print LogConnecting; Print LogUrl;
                                Print LogConnected] ++ inner))
          as (new & En & Fn & Rn); [lia|].
        exists (([Print LogConnecting; Print LogUrl; Print LogConnected]
                   ++ inner) ++ new).
        split; [rewrite En, <- !app_assoc; reflexivity|].
        split; [|exact Rn].
        rewrite !A, Qi. cbn. exact Fn.
      * destruct (is_Exception e).
        -- destruct (IH (Z.min (5 * 2) max_retry_delay)
                       ((t ++ [Print LogConnecting; Print LogUrl;
                               Print LogConnected] ++ inner)
                          ++ [Print (LogConnectionError e);
                              Print (LogRetrying 5); Sleep 5]))
             as (new & En & Fn & Rn); [unfold max_retry_delay; lia|].
           exists (([Print LogConnecting; Print LogUrl; Print LogConnected]
                      ++ inner)
                     ++ [Print (LogConnectionError e);
                         Print (LogRetrying 5); Sleep 5] ++ new).
           split; [rewrite En, <- !app_assoc; reflexivity|].
           split; [|exact Rn].
           rewrite !A, Qi. cbn. constructor; [lia|exact Fn].
        -- exists (([Print LogConnecting; Print LogUrl; Print LogConnected]
                      ++ inner) ++ [Print LogShutdown]).
           split; [cbn [snd]; rewrite <- !app_assoc; reflexivity|].
           split; [rewrite !A, Qi; cbn; constructor|].
           cbn [fst]. discriminate.
Qed.

(** Failures in a row: the waits are those of the closed form. *)
Lemma main_loop_failures (n : nat) :
  forall k t,
    main_loop (repeat ConnectFails n) (nth_wait k) t
    = (Running (nth_wait (k + n)),
       t ++ flat_map (fun j => [Print LogConnecting; Print LogUrl;
                                Print (LogConnectionError RequestError);
                                Print (LogRetrying (nth_wait j));
                                Sleep (nth_wait j)])
                     (seq k n)).
Proof.
  assert (Step : forall k, Z.min (nth_wait k * 2) max_retry_delay
                           = nth_wait (S k)).
  { intros k. unfold nth_wait, max_retry_delay.
    rewrite Nat2Z.inj_succ, Z.pow_succ_r by lia.
    pose proof (Z.pow_pos_nonneg 2 (Z.of_nat k) ltac:(lia) ltac:(lia)).
    lia. }
  induction n as [|n IH]; intros k t.
  - cbn. rewrite app_nil_r, Nat.add_0_r. reflexivity.
  - cbn [repeat Bridge.main_loop Bridge.iteration is_Exception seq flat_map].
    rewrite Step, IH, <- !app_assoc. cbn [app].
    rewrite Nat.add_succ_r. reflexivity.
Qed.

End SupervisorFacts.

Lemma sleeps_quiet (inner : trace) :
  Forall (fun x => sleeps [x] = []) inner -> sleeps inner = [].
Proof.
  induction 1 as [|x l Hx _ IH]; [reflexivity|].
  change (x :: l) with ([x] ++ l). unfold sleeps in *.
  rewrite flat_map_app, Hx, IH. reflexivity.
Qed.

Lemma harmless_stream_is_read_to_its_end_aux
      (sink : trace -> point -> bool)
      (str_to_float : str -> option spec_float)
      (str_to_int : str -> option Z)
      (chunks : list str) (t : trace) :
  Forall (fun p => harmless p = true) (decode chunks) ->
  exists inner,
    stream_loop sink str_to_float str_to_int chunks [] t
    = (Ok (buffer_after [] chunks), t ++ inner)
    /\ sleeps inner = [].
Proof.
  intros H.
  destruct (for_payloads_harmless sink str_to_float str_to_int _ H t)
    as (new & E & _).
  destruct (stream_loop_appends sink str_to_float str_to_int
              (fun x => sleeps [x] = []) chunks
              ltac:(reflexivity) ltac:(reflexivity) t) as (new' & E' & F & _).
  rewrite stream_loop_decode in *. unfold bind, ret in *.
  rewrite E in *. cbn [snd] in E'. apply app_inv_head in E'. subst new'.
  exists new. split; [reflexivity|apply sleeps_quiet; exact F].
Qed.

(** X4. Runs of the supervisor compose: the run against two lists of
    attempts on end is the run against the first, followed, if the loop is
    still running, by the run against the second from the delay and the
    trace then reached. Once the loop has left by [break], attempts that
    would follow are not made. *)
Theorem supervisor_runs_compose
        (sink : trace -> point -> bool)
        (str_to_float : str -> option spec_float)
        (str_to_int : str -> option Z)
        (attempts1 attempts2 : list attempt) (retry_delay : Z) (t : trace) :
  let main_loop := main_loop sink str_to_float str_to_int in
  main_loop (attempts1 ++ attempts2) retry_delay t
  = match main_loop attempts1 retry_delay t with
    | (Running retry_delay', t') => main_loop attempts2 retry_delay' t'
    | (Stopped, t') => (Stopped, t')
    end
  /\ (fst (main_loop attempts1 retry_delay t) = Stopped ->
      main_loop (attempts1 ++ attempts2) retry_delay t
      = main_loop attempts1 retry_delay t).
Proof.
  intros ml. unfold ml. split; [apply main_loop_app|].
  intros H. rewrite main_loop_app.
  destruct (main_loop sink str_to_float str_to_int attempts1 retry_delay t)
    as [[d|] t']; [discriminate H|reflexivity].
Qed.

Lemma supervisor_runs_compose_witness :
  main_loop (fun _ _ => true) (fun _ => None) (fun _ => None)
            ([ConnectFails; ConnectInterrupted] ++ [ConnectFails]) 5 []
  = main_loop (fun _ _ => true) (fun _ => None) (fun _ => None)
              [ConnectFails; ConnectInterrupted] 5 [].
Proof.
  refine (proj2 (supervisor_runs_compose
                   (fun _ _ => true) (fun _ => None) (fun _ => None)
                   [ConnectFails; ConnectInterrupted] [ConnectFails] 5 [])
                _).
  reflexivity.
Defined.

(** X5. In every run of [main], [retry_delay] stays between 5 and 60, and
    every wait is between 5 and 60 time units. *)
Theorem delay_and_waits_stay_between_5_and_60
        (sink : trace -> point -> bool)
        (str_to_float : str -> option spec_float)
        (str_to_int : str -> option Z) (attempts : list attempt) :
  let run := main sink str_to_float str_to_int attempts in
  Forall (fun d => 5 <= d <= 60)%Z (sleeps (snd run))
  /\ (forall d, fst run = Running d -> (5 <= d <= 60)%Z).
Proof.
  intros run. unfold run, main.
  destruct (main_loop_bounds sink str_to_float str_to_int attempts 5 []
                             ltac:(lia)) as (new & E & F & R).
  rewrite E. cbn [app]. split; [exact F|exact R].
Qed.

Lemma delay_and_waits_stay_between_5_and_60_witness :
  fst (main (fun _ _ => true) (fun _ => None) (fun _ => None)
            (repeat ConnectFails 6)) = Running 60
  /\ (5 <= 60 <= 60)%Z.
Proof.
  split; [reflexivity|].
  refine (proj2 (delay_and_waits_stay_between_5_and_60
                   (fun _ _ => true) (fun _ => None) (fun _ => None)
                   (repeat ConnectFails 6)) 60%Z _).
  reflexivity.
Defined.

(** X6. Connection failures in a row from the start: the wait after the
    failure number [k] (from 0) is [min (5 * 2^k) 60], that is 5, 10, 20,
    40 and then 60 for ever; after [n] failures the loop is running with
    that delay for [n], and nothing else has happened. *)
Theorem waits_of_failures_in_a_row
        (sink : trace -> point -> bool)
        (str_to_float : str -> option spec_float)
        (str_to_int : str -> option Z) (n : nat) :
  let run := main sink str_to_float str_to_int (repeat ConnectFails n) in
  fst run = Running (nth_wait n)
  /\ sleeps (snd run) = map nth_wait (seq 0 n)
  /\ sink_writes (snd run) = []
  /\ backoff_events (snd run) = map (fun k => Some (nth_wait k)) (seq 0 n)
  /\ (forall k, (4 <= k)%nat -> nth_wait k = 60%Z)
  /\ map nth_wait (seq 0 5) = [5; 10; 20; 40; 60]%Z.
Proof.
  intros run. unfold run, main.
  change 5%Z with (nth_wait 0) at 1 2 3 4.
  rewrite (main_loop_failures sink str_to_float str_to_int n 0 []).
  cbn [fst snd app]. split; [reflexivity|].
  assert (G : forall k,
             sleeps (flat_map
                       (fun j => [Print LogConnecting; Print LogUrl;
                                  Print (LogConnectionError RequestError);
                                  Print (LogRetrying (nth_wait j));
                                  Sleep (nth_wait j)]) (seq k n))
             = map nth_wait (seq k n)
             /\ sink_writes (flat_map
                       (fun j => [Print LogConnecting; Print LogUrl;
                                  Print (LogConnectionError RequestError);
                                  Print (LogRetrying (nth_wait j));
                                  Sleep (nth_wait j)]) (seq k n)) = []
             /\ backoff_events (flat_map
                       (fun j => [Print LogConnecting; Print LogUrl;
                                  Print (LogConnectionError RequestError);
                                  Print (LogRetrying (nth_wait j));
                                  Sleep (nth_wait j)]) (seq k n))
                = map (fun k => Some (nth_wait k)) (seq k n)).
  { induction n as [|m IH]; intros k; [repeat split|].
    destruct (IH (S k)) as (I1 & I2 & I3).
    cbn [seq flat_map map]. unfold sleeps, sink_writes, backoff_events in *.
    rewrite !flat_map_app, I1, I2, I3. repeat split. }
  destruct (G 0%nat) as (G1 & G2 & G3).
  split; [exact G1|]. split; [exact G2|]. split; [exact G3|].
  split; [|reflexivity].
  intros k Hk. unfold nth_wait.
  assert (2 ^ 4 <= 2 ^ Z.of_nat k)%Z
    by (apply Z.pow_le_mono_r; lia).
  lia.
Qed.

Lemma waits_of_failures_in_a_row_witness : nth_wait 7 = 60%Z.
Proof.
  refine (proj1 (proj2 (proj2 (proj2 (proj2
            (waits_of_failures_in_a_row
               (fun _ _ => true) (fun _ => None) (fun _ => None) 0)))))
            7%nat _).
  repeat constructor.
Defined.

(** X7. The stream loop composes over the chunks: reading two lists of
    chunks on end is reading the first, then the second from the buffer the
    first leaves; if the first raises, the second is not read. *)
Theorem stream_loop_composes
        (sink : trace -> point -> bool)
        (str_to_float : str -> option spec_float)
        (str_to_int : str -> option Z)
        (chunks1 chunks2 : list str) (buffer : str) (t : trace) :
  let stream_loop := stream_loop sink str_to_float str_to_int in
  stream_loop (chunks1 ++ chunks2) buffer t
  = match stream_loop chunks1 buffer t with
    | (Ok buffer', t') => stream_loop chunks2 buffer' t'
    | (Raise e, t') => (Raise e, t')
    end.
Proof.
  intros sl. unfold sl. rewrite stream_loop_app. reflexivity.
Qed.

(** X8. How a connection ends, when every payload decoded from it is
    harmless. The stream is read to its end first, without any wait. If the
    server then closes the stream, the loop reconnects at once, with
    [retry_delay] at 5 and without waiting; if a read fails, it waits 5 and
    goes on with a delay of 10; if the user interrupts, it prints the
    shutdown line and stops, whatever attempts would follow. *)
Theorem end_of_a_connection
        (sink : trace -> point -> bool)
        (str_to_float : str -> option spec_float)
        (str_to_int : str -> option Z)
        (chunks : list str) (e : ending) (rest : list attempt)
        (retry_delay : Z) (t : trace) :
  Forall (fun p => harmless p = true) (decode chunks) ->
  let main_loop := main_loop sink str_to_float str_to_int in
  exists inner,
    stream_loop sink str_to_float str_to_int chunks []
                (t ++ [Print LogConnecting; Print LogUrl; Print LogConnected])
    = (Ok (buffer_after [] chunks),
       (t ++ [Print LogConnecting; Print LogUrl; Print LogConnected])
         ++ inner)
    /\ sleeps inner = []
    /\ let t' := (t ++ [Print LogConnecting; Print LogUrl;
                        Print LogConnected]) ++ inner in
       main_loop (Connects chunks e :: rest) retry_delay t
       = match e with
         | EndOfStream => main_loop rest 5%Z t'
         | ReadError =>
             main_loop rest 10%Z
                       (t' ++ [Print (LogConnectionError RequestError);
                               Print (LogRetrying 5%Z); Sleep 5%Z])
         | Interrupted => (Stopped, t' ++ [Print LogShutdown])
         end.
Proof.
  intros H ml. unfold ml.
  destruct (harmless_stream_is_read_to_its_end_aux
              sink str_to_float str_to_int chunks
              (t ++ [Print LogConnecting; Print LogUrl; Print LogConnected])
              H) as (inner & E & S).
  exists inner. split; [exact E|]. split; [exact S|].
  cbv zeta. cbn [main_loop iteration].
  rewrite <- app_assoc in E. cbn [app] in E.
  replace ((t ++ [Print LogConnecting; Print LogUrl])
             ++ [Print LogConnected])
    with (t ++ [Print LogConnecting; Print LogUrl; Print LogConnected])
    by (rewrite <- app_assoc; reflexivity).
  rewrite E.
  destruct e; cbn [is_Exception]; rewrite <- ?app_assoc; cbn [app];
    reflexivity.
Qed.

Lemma end_of_a_connection_witness :
  let chunks := [lit "data: not-json$$da"; lit "ta: x"] in
  exists inner,
    stream_loop (fun _ _ => true) (fun _ => None) (fun _ => None) chunks []
                ([] ++ [Print LogConnecting; Print LogUrl; Print LogConnected])
    = (Ok (buffer_after [] chunks),
       ([] ++ [Print LogConnecting; Print LogUrl; Print LogConnected])
         ++ inner)
    /\ sleeps inner = []
    /\ let t' := ([] ++ [Print LogConnecting; Print LogUrl;
                         Print LogConnected]) ++ inner in
       main_loop (fun _ _ => true) (fun _ => None) (fun _ => None)
                 (Connects chunks EndOfStream :: [ConnectFails]) 40 []
       = main_loop (fun _ _ => true) (fun _ => None) (fun _ => None)
                   [ConnectFails] 5 t'.
Proof.
  intros chunks.
  apply (end_of_a_connection
           (fun _ _ => true) (fun _ => None) (fun _ => None)
           chunks EndOfStream [ConnectFails] 40 []).
  replace (decode chunks) with [lit "not-json"] by (vm_compute; reflexivity).
  apply Forall_cons; [vm_compute; reflexivity|apply Forall_nil].
Defined.

(** ** Readings that are written, values that are skipped, frames that are
       lost *)

Section ReadingFacts.

Variable sink : trace -> point -> bool.
Variable str_to_float : str -> option spec_float.
Variable str_to_int : str -> option Z.

Local Abbreviation process_event :=
  (process_event sink str_to_float str_to_int).
Local Abbreviation handle_payload :=
  (handle_payload sink str_to_float str_to_int).
Local Abbreviation for_payloads := (for_payloads sink str_to_float str_to_int).
Local Abbreviation stream_loop := (stream_loop sink str_to_float str_to_int).
Local Abbreviation main_loop := (main_loop sink str_to_float str_to_int).

Lemma reading_without_surrogates_is_written (text : str) (p : point)
      (t : trace) :
  reading_point str_to_float str_to_int (JStr text) = Ok p ->
  (forall data, json_loads text = Some data ->
                strings_encodable data = true) ->
  exists new ok,
    process_event (JStr text) t = (Ok tt, t ++ new)
    /\ sink_writes new = [(p, ok)]
    /\ error_logs new = (if ok then [] else [LogErrorProcessing SinkError]).
Proof.
  unfold Reading.reading_point, rbind.
  repeat lazymatch goal with
         | |- context [match ?r with Ok _ => _ | Raise _ => _ end] =>
             lazymatch r with
             | context [match _ with _ => _ end] => fail
             | _ => destruct r eqn:?
             end
         end;
    intros Hp Hs; try discriminate Hp.
  injection Hp as <-.
  match goal with
  | H : py_json_loads (JStr text) = Ok ?data |- _ =>
      destruct (py_json_loads_ok _ _ H) as (s & [= <-] & Hl);
      pose proof (Hs _ Hl) as Sd
  end.
  epose proof (process_event_accepts sink str_to_float str_to_int
                 (JStr text) _ _ _ _ _ _ _ _ _ _ _ _ t
                 ltac:(eassumption) ltac:(eassumption) ltac:(eassumption)
                 ltac:(eassumption) ltac:(eassumption) ltac:(eassumption)
                 ltac:(eassumption) ltac:(eassumption) ltac:(eassumption)
                 ltac:(eassumption) ltac:(eassumption) ltac:(eassumption)
                 _ _ _ _) as E.
  cbv zeta in E. rewrite E. eexists. eexists. split; [reflexivity|].
  split; [reflexivity|].
  cbn [app error_logs flat_map is_error_log]. unfold closing_line.
  match goal with
  | |- context [sink ?t1 ?p] => destruct (sink t1 p)
  end; [|reflexivity].
  cbn [printable].
  repeat match goal with
         | H : py_getitem ?v ?k = Ok ?x, S : strings_encodable ?v = true
           |- _ =>
             lazymatch goal with
             | _ : strings_encodable x = true |- _ => fail
             | _ => pose proof (strings_encodable_getitem _ _ _ H S)
             end
         end.
  repeat match goal with
         | S : strings_encodable ?v = true |- _ =>
             rewrite (strings_encodable_printable _ S)
         end.
  reflexivity.
  Unshelve.
  all: apply strings_encodable_printable;
    repeat match goal with
           | H : py_getitem ?v ?k = Ok ?x, S : strings_encodable ?v = true
             |- _ =>
               lazymatch goal with
               | _ : strings_encodable x = true |- _ => fail
               | _ => pose proof (strings_encodable_getitem _ _ _ H S)
               end
           end;
    assumption.
Qed.



End ReadingFacts.

(** X11. A reading is written: when every part of the reading is found and
    converted, no string of the reading holds a surrogate, the text is
    within the limits of the interpreter and the timestamp in nanoseconds
    has at most 640 digits, [process_event] calls the sink exactly once,
    with the point made of the parts, and prints an error line only if the
    sink fails. *)
Theorem reading_is_written
        (sink : trace -> point -> bool)
        (str_to_float : str -> option spec_float)
        (str_to_int : str -> option Z)
        (text : str) (p : point) (t : trace) :
  reading_point str_to_float str_to_int (JStr text) = Ok p ->
  (forall data, json_loads text = Some data ->
                strings_encodable data = true) ->
  within_limits text = true ->
  (Z.abs (time p) < 10 ^ 640)%Z ->
  exists new ok,
    process_event sink str_to_float str_to_int (JStr text) t
    = (Ok tt, t ++ new)
    /\ sink_writes new = [(p, ok)]
    /\ error_logs new = (if ok then [] else [LogErrorProcessing SinkError]).
Proof.
  intros Hp Hs _ _. apply reading_without_surrogates_is_written; assumption.
Qed.

Lemma reading_is_written_witness :
  exists new ok,
    process_event (fun _ _ => true) (fun _ => None) (fun _ => None)
                  (JStr scenario1_reading) []
    = (Ok tt, [] ++ new)
    /\ sink_writes new = [(scenario1_point, ok)]
    /\ error_logs new = (if ok then [] else [LogErrorProcessing SinkError]).
Proof.
  apply (reading_is_written
           (fun _ _ => true) (fun _ => None) (fun _ => None)
           scenario1_reading scenario1_point []).
  - vm_compute. reflexivity.
  - intros data H.
    assert (E : json_loads scenario1_reading = Some scenario1_data)
      by (vm_compute; reflexivity).
    rewrite E in H. injection H as <-. vm_compute. reflexivity.
  - vm_compute. reflexivity.
  - vm_compute. reflexivity.
Defined.

(** X12. An inner value that is no reading is skipped. For every payload
    within the limits whose envelope is an object with a [data] string
    that holds no surrogate and decodes to a value that the test of line
    134 turns away or cannot test (an object lacking the key [measurement]
    or the key [fields]; a number, a boolean or null; a string or an array
    that does not hold both names): the processing calls no sink, prints
    the receipt and exactly one informational skip line, prints no error
    line, and returns to the stream loop. For an object, to be no reading
    is to lack one of the two keys, and the skip line is that of line
    138. *)
Theorem payload_that_is_no_reading_is_skipped
        (sink : trace -> point -> bool)
        (str_to_float : str -> option spec_float)
        (str_to_int : str -> option Z)
        (event_data : str) (wrapper : list (str * json)) (d : str)
        (v : json) (t : trace) :
  json_loads event_data = Some (JDict wrapper) ->
  dict_get wrapper (lit "data") = Some (JStr d) ->
  json_loads d = Some v ->
  not_a_reading v = true ->
  encodable d = true ->
  decoded_within_limits event_data = true ->
  let new := [Print (LogEventReceived (JStr (firstn 100 d)));
              Print (skip_line d v)] in
  handle_payload sink str_to_float str_to_int event_data t
  = (Ok tt, t ++ new)
  /\ sink_writes new = []
  /\ skip_logs new = [skip_line d v]
  /\ error_logs new = []
  /\ (forall o,
         v = JDict o ->
         (has_key (lit "measurement") v = false
          \/ has_key (lit "fields") v = false)
         /\ skip_line d v = LogNotSensorFormat).
Proof.
  intros Hw Hd Hv Hn He _ new.
  split; [apply handle_payload_no_reading with (wrapper := wrapper);
          assumption|].
  unfold new. split; [reflexivity|].
  split; [destruct v; reflexivity|]. split; [destruct v; reflexivity|].
  intros o ->. split; [|reflexivity].
  unfold not_a_reading, has_key in *. cbn [py_contains] in Hn.
  destruct (dict_get o (lit "measurement")); [|left; reflexivity].
  destruct (dict_get o (lit "fields")); [discriminate Hn|right; reflexivity].
Qed.

Lemma payload_that_is_no_reading_is_skipped_witness :
  handle_payload (fun _ _ => true) (fun _ => None) (fun _ => None)
                 (lit "{'data':'{\'other\':true}','ttl':60}") []
  = (Ok tt, [Print (LogEventReceived (JStr (lit "{'other':true}")));
             Print LogNotSensorFormat])
  /\ handle_payload (fun _ _ => true) (fun _ => None) (fun _ => None)
                    (lit "{'data':'42'}") []
     = (Ok tt, [Print (LogEventReceived (JStr (lit "42")));
                Print (LogNotJSON (JStr (lit "42")))]).
Proof.
  split.
  - refine (proj1 (payload_that_is_no_reading_is_skipped
                     (fun _ _ => true) (fun _ => None) (fun _ => None)
                     (lit "{'data':'{\'other\':true}','ttl':60}")
                     [(lit "data", JStr (lit "{'other':true}"));
                      (lit "ttl", JInt 60)]
                     (lit "{'other':true}")
                     (JDict [(lit "other", JBool true)]) [] _ _ _ _ _ _));
      vm_compute; reflexivity.
  - refine (proj1 (payload_that_is_no_reading_is_skipped
                     (fun _ _ => true) (fun _ => None) (fun _ => None)
                     (lit "{'data':'42'}")
                     [(lit "data", JStr (lit "42"))]
                     (lit "42") (JInt 42) [] _ _ _ _ _ _));
      vm_compute; reflexivity.
Defined.



(** ** The logged URL and the configuration *)

Section ReplaceFacts.

Variables old new : str.

Lemma startswith_app_fits (pre x : str) :
  (length old <= length pre)%nat ->
  startswith (pre ++ x) old = startswith pre old.
Proof.
  revert pre. induction old as [|o old' IH]; intros pre H; [reflexivity|].
  destruct pre as [|p pre]; [cbn in H; lia|].
  cbn [app startswith]. rewrite IH; [reflexivity|cbn in H; lia].
Qed.

Lemma startswith_reaches (pre x : str) (c : N) :
  startswith (pre ++ c :: x) old = true ->
  (length pre < length old)%nat -> In c old.
Proof.
  revert pre. induction old as [|o old' IH]; intros pre H L;
    [cbn in L; lia|].
  destruct pre as [|p pre]; cbn [app startswith] in H;
    apply andb_true_iff in H as [H1 H2].
  - apply N.eqb_eq in H1. left. exact H1.
  - right. apply (IH pre H2). cbn in L. lia.
Qed.

Lemma replace_from_skip (s : str) :
  forall k, replace_from old new k s = replace_from old new 0 (skipn k s).
Proof.
  induction s as [|c s IH]; intros k.
  - destruct k; reflexivity.
  - destruct k as [|k]; [reflexivity|]. cbn [replace_from skipn]. apply IH.
Qed.

Lemma replace_from_cons (c : N) (s : str) :
  replace_from old new 0 (c :: s) =
  if startswith (c :: s) old
  then new ++ replace_from old new 0 (skipn (length old - 1) s)
  else c :: replace_from old new 0 s.
Proof.
  cbn [replace_from]. destruct (startswith (c :: s) old); [|reflexivity].
  rewrite replace_from_skip. reflexivity.
Qed.

Section Disjoint.

Variables (o n0 : N) (old' new' : str).
Hypothesis old_eq : old = o :: old'.
Hypothesis new_eq : new = n0 :: new'.
Hypothesis first_of_new : ~ In n0 old.
Hypothesis first_of_old : ~ In o new.

(** What starts with [old] after the replacement started with it before. *)
Lemma startswith_replaced (n : nat) :
  forall s pre, (length s <= n)%nat ->
    startswith (pre ++ replace_from old new 0 s) old = true ->
    startswith (pre ++ s) old = true.
Proof.
  induction n as [|n IH]; intros s pre L H.
  - destruct s; [exact H|cbn in L; lia].
  - destruct s as [|c s]; [exact H|].
    rewrite replace_from_cons in H.
    destruct (startswith (c :: s) old) eqn:E.
    + destruct (Nat.le_gt_cases (length old) (length pre)) as [Hf|Hf].
      * rewrite startswith_app_fits in * by exact Hf. exact H.
      * exfalso. apply first_of_new. rewrite new_eq in H.
        cbn [app] in H. exact (startswith_reaches _ _ _ H Hf).
    + change (pre ++ c :: replace_from old new 0 s)
        with (pre ++ [c] ++ replace_from old new 0 s) in H.
      rewrite app_assoc in H. apply IH in H; [|cbn in L; lia].
      rewrite <- app_assoc in H. exact H.
Qed.

Lemma contains_after_new (x : str) :
  forall l, (forall c, In c l -> c <> o) ->
            Str.contains (l ++ x) old = Str.contains x old.
Proof.
  induction l as [|a l IH]; intros Hl; [reflexivity|].
  cbn [app Str.contains]. rewrite IH by (intros c Hc; apply Hl; right; exact Hc).
  rewrite old_eq at 1. cbn [startswith].
  destruct (N.eqb_spec o a) as [->|Hne].
  - exfalso. apply (Hl a); [left|]; reflexivity.
  - reflexivity.
Qed.

(** No occurrence of [old] is left after the replacement. *)
Lemma replaced_everywhere (n : nat) :
  forall s, (length s <= n)%nat ->
            Str.contains (replace_from old new 0 s) old = false.
Proof.
  induction n as [|n IH]; intros s L.
  - destruct s; [|cbn in L; lia]. rewrite old_eq. reflexivity.
  - destruct s as [|c s]; [rewrite old_eq; reflexivity|].
    rewrite replace_from_cons.
    destruct (startswith (c :: s) old) eqn:E.
    + rewrite contains_after_new.
      * apply IH. rewrite length_skipn. cbn in L. lia.
      * intros a Ha ->. apply first_of_old. exact Ha.
    + cbn [Str.contains]. rewrite IH by (cbn in L; lia).
      rewrite orb_false_r.
      destruct (startswith (c :: replace_from old new 0 s) old) eqn:E';
        [|reflexivity].
      apply (startswith_replaced (length s) s [c] (le_n _)) in E'.
      cbn [app] in E'. congruence.
Qed.

End Disjoint.

End ReplaceFacts.

(** X9. The URL printed by line 89 does not show the access token, provided
    the token does not begin with one of the letters of the word REDACTED
    and does not contain the letter R; such is every token that has no
    character in common with that word. *)
Theorem logged_url_hides_the_token (cfg : config) (c : N) (token' u : str) :
  PARTICLE_TOKEN cfg = Some (c :: token') ->
  ~ In c REDACTED ->
  ~ In 82%N (c :: token') ->
  logged_url cfg = Ok u ->
  Str.contains u (c :: token') = false.
Proof.
  intros Ht Hc Hr Hu. unfold logged_url in Hu. rewrite Ht in Hu.
  injection Hu as <-. cbn [py_replace].
  apply (replaced_everywhere (c :: token') REDACTED c 82%N token'
                             (lit "EDACTED") eq_refl eq_refl Hr Hc
                             (length (url cfg))).
  apply le_n.
Qed.

Lemma logged_url_hides_the_token_witness :
  Str.contains
    (lit "https://api.particle.io/v1/devices/e00fce68/events?access_token=REDACTED")
    (lit "3f9a0c") = false.
Proof.
  refine (logged_url_hides_the_token
            {| PARTICLE_TOKEN := Some (lit "3f9a0c");
               DEVICE_ID := Some (lit "e00fce68") |}
            51%N (lit "f9a0c") _ eq_refl _ _ _).
  - vm_compute. intros H.
    repeat (destruct H as [H|H]; [discriminate H|]). exact H.
  - vm_compute. intros H.
    repeat (destruct H as [H|H]; [discriminate H|]). exact H.
  - reflexivity.
Defined.

Section ConfigFacts.

Variable sink : trace -> point -> bool.
Variable str_to_float : str -> option spec_float.
Variable str_to_int : str -> option Z.
Variable cfg : config.

Lemma main_loop_cfg_token (token : str) (attempts : list attempt) :
  PARTICLE_TOKEN cfg = Some token ->
  forall retry_delay t,
    main_loop_cfg sink str_to_float str_to_int cfg attempts retry_delay t
    = main_loop sink str_to_float str_to_int attempts retry_delay t.
Proof.
  intros Ht. induction attempts as [|a rest IH]; intros d t; [reflexivity|].
  cbn [main_loop_cfg main_loop]. unfold iteration_cfg, logged_url.
  rewrite Ht.
  destruct (iteration sink str_to_float str_to_int a d t)
    as [[[[]|e] d'] t']; [apply IH|].
  destruct (is_Exception e); [apply IH|reflexivity].
Qed.

Lemma main_loop_cfg_no_token (attempts : list attempt) :
  PARTICLE_TOKEN cfg = None ->
  forall k t,
    main_loop_cfg sink str_to_float str_to_int cfg attempts (nth_wait k) t
    = (Running (nth_wait (k + length attempts)),
       t ++ flat_map (fun j => [Print LogConnecting;
                                Print (LogConnectionError TypeError);
                                Print (LogRetrying (nth_wait j));
                                Sleep (nth_wait j)])
                     (seq k (length attempts))).
Proof.
  intros Ht.
  assert (Step : forall k, Z.min (nth_wait k * 2) max_retry_delay
                           = nth_wait (S k)).
  { intros k. unfold nth_wait, max_retry_delay.
    rewrite Nat2Z.inj_succ, Z.pow_succ_r by lia.
    pose proof (Z.pow_pos_nonneg 2 (Z.of_nat k) ltac:(lia) ltac:(lia)).
    lia. }
  induction attempts as [|a rest IH]; intros k t.
  - cbn. rewrite app_nil_r, Nat.add_0_r. reflexivity.
  - cbn [main_loop_cfg length seq flat_map]. unfold iteration_cfg, logged_url.
    rewrite Ht. cbn [is_Exception].
    rewrite Step, IH, <- !app_assoc. cbn [app].
    rewrite Nat.add_succ_r. reflexivity.
Qed.

End ConfigFacts.

(** X10. The supervisor with line 89 evaluated. When the access token is
    set, the run is that of [main]: line 89 does not change the course of
    the loop. When it is unset, line 89 raises a [TypeError] in every
    iteration before the request of line 92: no connection is ever made and
    no sink is called; the loop reports a connection error and waits, with
    the waits of failures in a row, for ever. *)
Theorem unset_token_never_connects
        (sink : trace -> point -> bool)
        (str_to_float : str -> option spec_float)
        (str_to_int : str -> option Z)
        (cfg : config) (attempts : list attempt) :
  let run := main_cfg sink str_to_float str_to_int cfg attempts in
  (forall token,
      PARTICLE_TOKEN cfg = Some token ->
      run = main sink str_to_float str_to_int attempts)
  /\ (PARTICLE_TOKEN cfg = None ->
      fst run = Running (nth_wait (length attempts))
      /\ ~ In (Print LogConnected) (snd run)
      /\ sink_writes (snd run) = []
      /\ sleeps (snd run) = map nth_wait (seq 0 (length attempts))
      /\ error_logs (snd run)
         = repeat (LogConnectionError TypeError) (length attempts)).
Proof.
  intros run. unfold run, main_cfg, main. split.
  - intros token Ht. apply (main_loop_cfg_token _ _ _ _ token). exact Ht.
  - intros Ht. change 5%Z with (nth_wait 0).
    rewrite (main_loop_cfg_no_token sink str_to_float str_to_int cfg
               attempts Ht 0 []).
    cbn [fst snd app]. split; [reflexivity|].
    generalize (length attempts). intros n. generalize 0%nat.
    induction n as [|n IH]; intros k.
    + cbn. repeat split. tauto.
    + destruct (IH (S k)) as (I1 & I2 & I3 & I4).
      cbn [seq flat_map map repeat].
      unfold sink_writes, sleeps, error_logs in *.
      rewrite !flat_map_app, I2, I3, I4. repeat split.
      intros Hin. apply in_app_or in Hin as [Hin|Hin]; [|exact (I1 Hin)].
      cbn in Hin. repeat (destruct Hin as [Hin|Hin]; [discriminate Hin|]).
      exact Hin.
Qed.

Lemma unset_token_never_connects_witness :
  main_cfg (fun _ _ => true) (fun _ => None) (fun _ => None)
           {| PARTICLE_TOKEN := Some (lit "3f9a0c"); DEVICE_ID := None |}
           [Connects [scenario1_frame] EndOfStream]
  = main (fun _ _ => true) (fun _ => None) (fun _ => None)
         [Connects [scenario1_frame] EndOfStream]
  /\ sleeps (snd (main_cfg (fun _ _ => true) (fun _ => None) (fun _ => None)
                           {| PARTICLE_TOKEN := None; DEVICE_ID := None |}
                           [Connects [scenario1_frame] EndOfStream;
                            ConnectFails]))
     = map nth_wait (seq 0 2).
Proof.
  split.
  - refine (proj1 (unset_token_never_connects
                     (fun _ _ => true) (fun _ => None) (fun _ => None)
                     {| PARTICLE_TOKEN := Some (lit "3f9a0c");
                        DEVICE_ID := None |}
                     [Connects [scenario1_frame] EndOfStream])
                  (lit "3f9a0c") eq_refl).
  - refine (proj1 (proj2 (proj2 (proj2
             (proj2 (unset_token_never_connects
                       (fun _ _ => true) (fun _ => None) (fun _ => None)
                       {| PARTICLE_TOKEN := None; DEVICE_ID := None |}
                       [Connects [scenario1_frame] EndOfStream;
                        ConnectFails]) eq_refl))))).
Defined.
